(** * Netball tournament statistics: the data-access layer and the schema

    A shallow embedding of [models/database_manager.py] and
    [models/schema.py].  Both classes are thin wrappers around Python's
    [sqlite3] module, so the development has three layers:

    - [Sqlite]: an executable model of the part of SQLite that the two
      classes drive: a catalog of tables with INTEGER PRIMARY KEY,
      NOT NULL, UNIQUE, CHECK and FOREIGN KEY ... ON DELETE CASCADE
      constraints, the statements CREATE TABLE, DROP TABLE, INSERT,
      INSERT OR IGNORE, DELETE, SELECT (over a table or over the
      catalog) and PRAGMA foreign_keys, and the LIKE operator.
      SQL text is represented by its abstract syntax; [Malformed] stands
      for text the engine cannot parse.
    - [Py]: connection objects as Python's [sqlite3] module keeps them
      (a statement is compiled, an implicit transaction is opened before
      an INSERT or DELETE, the values are bound, the statement runs;
      commit, rollback, close, row factories) and a state-and-exception
      monad for the methods.
    - [DatabaseManager] and [DatabaseSchema]: the methods of the two
      classes, statement by statement.

    Modelling boundaries.

    - Statements.  The statements are those listed above.  UPDATE, CREATE
      INDEX, transaction control and the rest of SQL are outside the
      model; a theorem about every statement ranges over the listed ones.
    - Values.  Values are NULL, integers and text.  An integer bound to a
      statement has to fit 64 bits ([Py.fits]); Python raises
      [OverflowError] for one that does not, before the statement runs.
      Values are stored and compared as they are bound: the conversions
      of SQLite's type affinity are not modelled, so a theorem that
      depends on a comparison is stated for values of the declared types
      ([typed], [typed_row]) or for integer keys.
    - Keys.  A row inserted with a NULL key receives the largest key in
      use plus one.  At the largest 64-bit key SQLite tries unused keys at
      random instead; a theorem that names the new key assumes that it
      fits 64 bits.
    - Names.  Table names are compared without regard to the case of
      ASCII letters, column names exactly.  The catalog can be read under
      its names sqlite_master, sqlite_schema, sqlite_temp_master and
      sqlite_temp_schema (there is no temporary table) and cannot be
      written; of its columns [type], [name] and [tbl_name] are kept.
      The other names to which the engine answers by itself
      ([engine_name]: its own sqlite_ tables, its table-valued functions)
      are not modelled.
    - The database file is used by one process only and can always be
      opened.  [database_exists] (a test on the file system) and
      [get_foreign_keys] (a PRAGMA that only reads the catalog) are left
      out. *)

From Stdlib Require Import ZArith List String Ascii Bool Lia DecimalString Sorted.
From stdpp Require Import gmap strings.
Import ListNotations.

#[local] Open Scope string_scope.
#[local] Open Scope list_scope.

(* ================================================================== *)
(** * The storage engine *)
(* ================================================================== *)

Module Sqlite.

(** ** Values and three-valued comparison *)

Inductive value : Type :=
| VNull
| VInt (z : Z)
| VText (s : string).

(** SQL [=]: NULL (here [None]) as soon as one side is NULL. *)
Definition sql_eq (a b : value) : option bool :=
  match a, b with
  | VNull, _ | _, VNull => None
  | VInt x, VInt y => Some (Z.eqb x y)
  | VText s, VText t => Some (String.eqb s t)
  | _, _ => Some false
  end.

(** Two values are the same key when [=] is true of them. *)
Definition same_key (a b : value) : bool :=
  match sql_eq a b with Some true => true | _ => false end.

Definition is_null (v : value) : bool :=
  match v with VNull => true | _ => false end.

(** The order of ORDER BY: NULL first, then integers, then text in byte
    order (the BINARY collation). *)
Definition value_leb (a b : value) : bool :=
  match a, b with
  | VNull, _ => true
  | _, VNull => false
  | VInt x, VInt y => Z.leb x y
  | VInt _, VText _ => true
  | VText _, VInt _ => false
  | VText s, VText t => String.leb s t
  end.

Definition text_of (v : value) : option string :=
  match v with
  | VNull => None
  | VInt z => Some (NilZero.string_of_int (Z.to_int z))
  | VText s => Some s
  end.

(** ** LIKE

    [%] matches any run of characters, [_] matches exactly one character,
    any other character matches itself, upper and lower case ASCII letters
    being equal. *)

Definition lower (c : ascii) : ascii :=
  let n := nat_of_ascii c in
  if Nat.leb 65 n && Nat.leb n 90 then ascii_of_nat (n + 32) else c.

Definition same_letter (c d : ascii) : bool := Ascii.eqb (lower c) (lower d).

Fixpoint like (pat : string) : string -> bool :=
  match pat with
  | EmptyString => fun s => match s with EmptyString => true | _ => false end
  | String p pat' =>
      if Ascii.eqb p "%" then
        fix star (s : string) : bool :=
          like pat' s ||
          match s with EmptyString => false | String _ s' => star s' end
      else if Ascii.eqb p "_" then
        fun s => match s with EmptyString => false | String _ s' => like pat' s' end
      else
        fun s =>
          match s with
          | EmptyString => false
          | String c s' => same_letter p c && like pat' s'
          end
  end.

(** ** Expressions *)

Inductive operand : Type :=
| Col (c : string)
| Lit (v : value)
| Param (i : nat).   (* the i-th [?] of the statement, counted from 0 *)

Inductive cond : Type :=
| Eq (a b : operand)
| Ne (a b : operand)
| Like (a : operand) (pat : string)
| Not (c : cond)
| And (c d : cond)
| Or (c d : cond).

Fixpoint index_of (c : string) (cols : list string) : option nat :=
  match cols with
  | [] => None
  | c' :: cols' =>
      if String.eqb c c' then Some O
      else match index_of c cols' with Some i => Some (S i) | None => None end
  end.

Definition row : Type := list value.

Definition field (cols : list string) (r : row) (c : string) : value :=
  match index_of c cols with
  | Some i => nth i r VNull
  | None => VNull
  end.

Definition eval_operand (cols : list string) (r : row) (ps : list value)
    (o : operand) : value :=
  match o with
  | Col c => field cols r c
  | Lit v => v
  | Param i => nth i ps VNull
  end.

Definition not3 (b : option bool) : option bool :=
  match b with Some x => Some (negb x) | None => None end.

Definition and3 (a b : option bool) : option bool :=
  match a, b with
  | Some false, _ | _, Some false => Some false
  | Some true, Some true => Some true
  | _, _ => None
  end.

Definition or3 (a b : option bool) : option bool :=
  match a, b with
  | Some true, _ | _, Some true => Some true
  | Some false, Some false => Some false
  | _, _ => None
  end.

Fixpoint eval_cond (cols : list string) (r : row) (ps : list value)
    (c : cond) : option bool :=
  match c with
  | Eq a b => sql_eq (eval_operand cols r ps a) (eval_operand cols r ps b)
  | Ne a b => not3 (sql_eq (eval_operand cols r ps a) (eval_operand cols r ps b))
  | Like a pat =>
      match text_of (eval_operand cols r ps a) with
      | Some s => Some (like pat s)
      | None => None
      end
  | Not c => not3 (eval_cond cols r ps c)
  | And c d => and3 (eval_cond cols r ps c) (eval_cond cols r ps d)
  | Or c d => or3 (eval_cond cols r ps c) (eval_cond cols r ps d)
  end.

(** A WHERE clause keeps the rows on which it is true. *)
Definition holds (cols : list string) (ps : list value) (w : option cond)
    (r : row) : bool :=
  match w with
  | None => true
  | Some c => match eval_cond cols r ps c with Some true => true | _ => false end
  end.

(** Static checks made when a statement is prepared. *)
Definition operand_ok (cols : list string) (o : operand) : bool :=
  match o with
  | Col c => match index_of c cols with Some _ => true | None => false end
  | _ => true
  end.

Fixpoint cond_ok (cols : list string) (c : cond) : bool :=
  match c with
  | Eq a b | Ne a b => operand_ok cols a && operand_ok cols b
  | Like a _ => operand_ok cols a
  | Not c => cond_ok cols c
  | And c d | Or c d => cond_ok cols c && cond_ok cols d
  end.

Definition operand_arity (o : operand) : nat :=
  match o with Param i => S i | _ => O end.

Fixpoint cond_arity (c : cond) : nat :=
  match c with
  | Eq a b | Ne a b => Nat.max (operand_arity a) (operand_arity b)
  | Like a _ => operand_arity a
  | Not c => cond_arity c
  | And c d | Or c d => Nat.max (cond_arity c) (cond_arity d)
  end.

(** ** Table definitions and the catalog *)

Inductive ctype : Type := INTEGER | TEXT.

Record column : Type := {
  col_name : string;
  col_type : ctype;
  col_notnull : bool;
  col_default : value
}.

(** Every foreign key of the program is declared ON DELETE CASCADE, the
    only action modelled. *)
Record foreign_key : Type := {
  fk_from : string;     (* column of the referencing (child) table *)
  fk_table : string;    (* referenced (parent) table *)
  fk_to : string        (* referenced column *)
}.

Record table_def : Type := {
  tname : string;
  tcols : list column;
  tpk : option string;             (* the INTEGER PRIMARY KEY column *)
  tuniques : list (list string);   (* UNIQUE constraints *)
  tchecks : list cond;             (* CHECK constraints *)
  tfks : list foreign_key
}.

Record table : Type := { tdef : table_def; trows : list row }.

(** The database: its tables in creation order. *)
Definition Db : Type := list table.

Definition col_names (td : table_def) : list string := map col_name (tcols td).

(** Table names are compared without regard to the case of ASCII
    letters. *)
Fixpoint same_name (a b : string) : bool :=
  match a, b with
  | EmptyString, EmptyString => true
  | String c a', String d b' => same_letter c d && same_name a' b'
  | _, _ => false
  end.

Definition named (n : string) (tb : table) : bool := same_name (tname (tdef tb)) n.

Definition find_table (db : Db) (n : string) : option table := find (named n) db.

Fixpoint set_rows (db : Db) (n : string) (rs : list row) : Db :=
  match db with
  | [] => []
  | tb :: db' =>
      if named n tb then {| tdef := tdef tb; trows := rs |} :: db'
      else tb :: set_rows db' n rs
  end.

Fixpoint remove_table (db : Db) (n : string) : Db :=
  match db with
  | [] => []
  | tb :: db' => if named n tb then db' else tb :: remove_table db' n
  end.

(** Names beginning with sqlite_ (in any case) belong to the engine. *)
Definition reserved (n : string) : bool :=
  match n with
  | String a (String b (String c (String d (String e (String f (String g _)))))) =>
      same_letter a "s" && same_letter b "q" && same_letter c "l" &&
      same_letter d "i" && same_letter e "t" && same_letter f "e" &&
      Ascii.eqb g "_"
  | _ => false
  end.

(** ** Errors *)

Inductive violation : Type :=
| NotNull (t c : string)
| Check (t : string)
| PrimaryKey (t : string)
| Unique (t : string) (cs : list string)
| ForeignKey
| DatatypeMismatch.

Inductive problem : Type :=
| SyntaxError (text : string)
| NoSuchTable (n : string)
| NoSuchColumn (n : string)
| TableExists (n : string)
| ReservedName (n : string)
| ValueCount                (* N values for M columns *)
| TriggerDepth.             (* too many levels of trigger recursion *)

Inductive error : Type :=
| OperationalError (p : problem)
| IntegrityError (v : violation)
| ProgrammingError (msg : string).

Definition wrong_bindings : error :=
  ProgrammingError "Incorrect number of bindings supplied".

(** ** Constraints checked when a row is written *)

Definition build_row (td : table_def) (cols : list string) (vals : list value) : row :=
  map (fun c => match index_of (col_name c) cols with
                | Some i => nth i vals VNull
                | None => col_default c
                end) (tcols td).

Definition ints_of (vs : list value) : list Z :=
  flat_map (fun v => match v with VInt z => [z] | _ => [] end) vs.

(** A NULL INTEGER PRIMARY KEY receives the largest key in use plus one. *)
Definition next_rowid (td : table_def) (rows : list row) (pk : string) : Z :=
  match ints_of (map (fun r => field (col_names td) r pk) rows) with
  | [] => 1
  | z :: zs => (fold_left Z.max zs z + 1)%Z
  end.

Definition assign_rowid (td : table_def) (rows : list row) (r : row) : error + row :=
  match tpk td with
  | None => inr r
  | Some pk =>
      match field (col_names td) r pk with
      | VInt _ => inr r
      | VText _ => inl (IntegrityError DatatypeMismatch)
      | VNull =>
          match index_of pk (col_names td) with
          | Some i => inr (<[i := VInt (next_rowid td rows pk)]> r)
          | None => inr r
          end
      end
  end.

Definition not_null_violation (td : table_def) (r : row) : option violation :=
  match find (fun c => col_notnull c && is_null (field (col_names td) r (col_name c)))
             (tcols td) with
  | Some c => Some (NotNull (tname td) (col_name c))
  | None => None
  end.

(** A CHECK fails only when its expression is false; NULL passes. *)
Definition check_fails (td : table_def) (r : row) (c : cond) : bool :=
  match eval_cond (col_names td) r [] c with Some false => true | _ => false end.

Definition check_violation (td : table_def) (r : row) : option violation :=
  if existsb (check_fails td r) (tchecks td) then Some (Check (tname td)) else None.

Definition pk_clash (td : table_def) (rows : list row) (r : row) : bool :=
  match tpk td with
  | Some pk =>
      existsb (fun r' => same_key (field (col_names td) r' pk) (field (col_names td) r pk)) rows
  | None => false
  end.

Definition pk_violation (td : table_def) (rows : list row) (r : row) : option violation :=
  if pk_clash td rows r then Some (PrimaryKey (tname td)) else None.

(** Two rows collide on a UNIQUE constraint when they have the same non-NULL
    value in each of its columns. *)
Definition agree (td : table_def) (u : list string) (r r' : row) : bool :=
  forallb (fun c => same_key (field (col_names td) r' c) (field (col_names td) r c)) u.

Definition unique_clash (td : table_def) (rows : list row) (r : row) (u : list string) : bool :=
  existsb (agree td u r) rows.

Definition unique_violation (td : table_def) (rows : list row) (r : row) : option violation :=
  match find (unique_clash td rows r) (tuniques td) with
  | Some u => Some (Unique (tname td) u)
  | None => None
  end.

Definition first_of {A} (a b : option A) : option A :=
  match a with Some _ => a | None => b end.

(** The constraints an ON CONFLICT clause applies to, in the order the
    engine tests them. *)
Definition local_violation (td : table_def) (rows : list row) (r : row) : option violation :=
  first_of (not_null_violation td r)
    (first_of (check_violation td r)
       (first_of (pk_violation td rows r) (unique_violation td rows r))).

(** [f] of a row [r] of table [td] has no parent row in [db]. *)
Definition fk_orphan (db : Db) (td : table_def) (r : row) (f : foreign_key) : bool :=
  let v := field (col_names td) r (fk_from f) in
  if is_null v then false
  else match find_table db (fk_table f) with
       | Some p =>
           negb (existsb (fun pr => same_key (field (col_names (tdef p)) pr (fk_to f)) v)
                         (trows p))
       | None => true
       end.

Definition fk_violated (db : Db) (td : table_def) (r : row) : bool :=
  existsb (fk_orphan db td r) (tfks td).

Definition parent_missing (db : Db) (td : table_def) : option string :=
  match find (fun f => match find_table db (fk_table f) with Some _ => false | None => true end)
             (tfks td) with
  | Some f => Some (fk_table f)
  | None => None
  end.

(** ** ON DELETE CASCADE *)

(** The foreign keys that reference table [parent], with their tables. *)
Definition referencing (db : Db) (parent : string) : list (string * foreign_key) :=
  flat_map (fun tb =>
              map (fun f => (tname (tdef tb), f))
                  (List.filter (fun f => same_name (fk_table f) parent) (tfks (tdef tb))))
           db.

(** [r], a row of the child table, references one of the removed parent
    rows [gone] through [f]. *)
Definition refers (ccols pcols : list string) (f : foreign_key) (gone : list row)
    (r : row) : bool :=
  existsb (fun g => same_key (field ccols r (fk_from f)) (field pcols g (fk_to f))) gone.

(** The engine runs foreign-key actions as triggers and bounds their
    nesting. *)
Definition trigger_depth : nat := 1000.

(** One foreign key [snd cf] of the table [fst cf] that references the
    parent: the rows that reference a removed parent row are removed, and
    [continue] carries on from them. *)
Definition cascade_through (continue : Db -> string -> list string -> list row -> error + Db)
    (pcols : list string) (gone : list row) (acc : error + Db)
    (cf : string * foreign_key) : error + Db :=
  match acc with
  | inl e => inl e
  | inr db =>
      match find_table db (fst cf) with
      | None => inr db
      | Some tb =>
          let ccols := col_names (tdef tb) in
          let hit := refers ccols pcols (snd cf) gone in
          continue
            (set_rows db (fst cf) (List.filter (fun r => negb (hit r)) (trows tb)))
            (fst cf) ccols (List.filter hit (trows tb))
      end
  end.

(** The rows [gone] have been removed from [parent]: remove, through every
    foreign key that references [parent], the rows that referenced them, and
    so on from those. *)
Fixpoint cascade (depth : nat) (db : Db) (parent : string) (pcols : list string)
    (gone : list row) : error + Db :=
  match gone with
  | [] => inr db
  | _ :: _ =>
      match depth with
      | O => inl (OperationalError TriggerDepth)
      | S depth' =>
          fold_left (cascade_through (cascade depth') pcols gone)
                    (referencing db parent) (inr db)
      end
  end.

(** ** Statements *)

Inductive projection : Type := Star | Columns (cs : list string).

Inductive stmt : Type :=
| CreateTable (if_not_exists : bool) (td : table_def)
| DropTable (if_exists : bool) (name : string)
| Insert (or_ignore : bool) (into : string) (cols : list string) (vals : list operand)
| Delete (from : string) (where_ : option cond)
| Select (proj : projection) (from : string) (where_ : option cond) (order_by : option string)
| PragmaForeignKeys (on : bool)
| Malformed (text : string).

(** The statements before which Python's sqlite3 module opens a transaction. *)
Definition is_dml (s : stmt) : bool :=
  match s with Insert _ _ _ _ | Delete _ _ => true | _ => false end.

Definition where_arity (w : option cond) : nat :=
  match w with Some c => cond_arity c | None => O end.

(** The number of values a statement expects to be bound. *)
Definition arity (s : stmt) : nat :=
  match s with
  | Insert _ _ _ vals => fold_right Nat.max O (map operand_arity vals)
  | Delete _ w => where_arity w
  | Select _ _ w _ => where_arity w
  | _ => O
  end.

(** *** sqlite_master *)

Definition master_cols : list string := ["type"; "name"; "tbl_name"].

Definition autoindex_name (t : string) (k : nat) : string :=
  String.append "sqlite_autoindex_"
    (String.append t (String.append "_" (NilZero.string_of_uint (Nat.to_uint k)))).

(** One row per table, followed by one row per automatic index (one for
    each UNIQUE constraint of the table). *)
Definition master_rows (db : Db) : list row :=
  flat_map (fun tb =>
              let n := tname (tdef tb) in
              [VText "table"; VText n; VText n]
              :: map (fun k => [VText "index"; VText (autoindex_name n k); VText n])
                     (seq 1 (length (tuniques (tdef tb)))))
           db.

(** The catalog of the database file is read under the names sqlite_master
    and sqlite_schema.  The catalog of the temporary tables, of which there
    are none, has the names sqlite_temp_master and sqlite_temp_schema. *)
Definition main_catalog (n : string) : bool :=
  same_name n "sqlite_master" || same_name n "sqlite_schema".

Definition temp_catalog (n : string) : bool :=
  same_name n "sqlite_temp_master" || same_name n "sqlite_temp_schema".

Definition catalog (n : string) : bool := main_catalog n || temp_catalog n.




Definition relation (db : Db) (from : string) : option (list string * list row) :=
  if main_catalog from then Some (master_cols, master_rows db)
  else if temp_catalog from then Some (master_cols, [])
  else match find_table db from with
       | Some tb => Some (col_names (tdef tb), trows tb)
       | None => None
       end.

(** *** ORDER BY *)

Fixpoint insert_sorted (key : row -> value) (r : row) (l : list row) : list row :=
  match l with
  | [] => [r]
  | x :: l' =>
      if value_leb (key r) (key x) then r :: l else x :: insert_sorted key r l'
  end.

Definition sort_by (key : row -> value) (l : list row) : list row :=
  fold_right (insert_sorted key) [] l.

Definition ordered (cols : list string) (o : option string) (l : list row) : list row :=
  match o with
  | Some c => sort_by (fun r => field cols r c) l
  | None => l
  end.

Definition proj_cols (cols : list string) (p : projection) : list string :=
  match p with Star => cols | Columns cs => cs end.

Definition project (cols : list string) (p : projection) (r : row) : row :=
  match p with Star => r | Columns cs => map (field cols r) cs end.

(** *** Running a statement *)

Record outcome : Type := {
  out_db : Db;                 (* the database after the statement *)
  out_rowcount : Z;            (* rows changed; -1 when not a write *)
  out_columns : list string;   (* names of the result columns *)
  out_rows : list row          (* result rows *)
}.

Definition done (db : Db) (n : Z) : error + outcome :=
  inr {| out_db := db; out_rowcount := n; out_columns := []; out_rows := [] |}.

Definition missing_column (cols : list string) (cs : list string) : option string :=
  find (fun c => match index_of c cols with Some _ => false | None => true end) cs.

Definition where_ok (cols : list string) (w : option cond) : bool :=
  match w with Some c => cond_ok cols c | None => true end.

Definition insert (fk or_ignore : bool) (db : Db) (tb : table) (cols : list string)
    (vals : list value) : error + outcome :=
  let td := tdef tb in
  match assign_rowid td (trows tb) (build_row td cols vals) with
  | inl e => inl e
  | inr r =>
      match local_violation td (trows tb) r with
      | Some v => if or_ignore then done db 0 else inl (IntegrityError v)
      | None =>
          let db' := set_rows db (tname td) (trows tb ++ [r])%list in
          if fk && fk_violated db' td r then inl (IntegrityError ForeignKey)
          else done db' 1
      end
  end.

Definition delete_rows (fk : bool) (db : Db) (tb : table) (gone kept : list row)
    : error + Db :=
  let db1 := set_rows db (tname (tdef tb)) kept in
  if fk then cascade trigger_depth db1 (tname (tdef tb)) (col_names (tdef tb)) gone
  else inr db1.

(** The name of no table: a catalog, which may be read but neither
    modified nor dropped, or no name at all.  (No table has the name of a
    catalog, since CREATE TABLE refuses the names that begin with
    sqlite_.) *)
Definition missing (n : string) : problem :=
  if catalog n then ReservedName n else NoSuchTable n.

(** [run fk db s ps]: statement [s] with the values [ps] bound to its
    placeholders, on database [db], foreign-key enforcement being [fk]. *)
Definition run (fk : bool) (db : Db) (s : stmt) (ps : list value) : error + outcome :=
  match s with
  | Malformed text => inl (OperationalError (SyntaxError text))
  | PragmaForeignKeys _ => done db (-1)
  | CreateTable if_not_exists td =>
      if reserved (tname td) then inl (OperationalError (ReservedName (tname td)))
      else match find_table db (tname td) with
           | Some _ =>
               if if_not_exists then done db (-1)
               else inl (OperationalError (TableExists (tname td)))
           | None => done (db ++ [{| tdef := td; trows := [] |}])%list (-1)
           end
  | DropTable if_exists n =>
      match find_table db n with
      | None =>
          if catalog n then inl (OperationalError (ReservedName n))
          else if if_exists then done db (-1)
          else inl (OperationalError (NoSuchTable n))
      | Some tb =>
          if reserved n then inl (OperationalError (ReservedName n))
          else match delete_rows fk db tb (trows tb) [] with
               | inl e => inl e
               | inr db' => done (remove_table db' n) (-1)
               end
      end
  | Insert or_ignore n cols vals =>
      match find_table db n with
      | None => inl (OperationalError (missing n))
      | Some tb =>
          match missing_column (col_names (tdef tb)) cols with
          | Some c => inl (OperationalError (NoSuchColumn c))
          | None =>
              if negb (Nat.eqb (length vals) (length cols)) then
                inl (OperationalError ValueCount)
              else if negb (forallb (operand_ok []) vals) then
                inl (OperationalError (NoSuchColumn "VALUES"))
              else match (if fk then parent_missing db (tdef tb) else None) with
                   | Some p => inl (OperationalError (NoSuchTable p))
                   | None =>
                       if negb (Nat.eqb (length ps) (arity s)) then inl wrong_bindings
                       else insert fk or_ignore db tb cols
                              (map (eval_operand [] [] ps) vals)
                   end
          end
      end
  | Delete n w =>
      match find_table db n with
      | None => inl (OperationalError (missing n))
      | Some tb =>
          let cols := col_names (tdef tb) in
          if negb (where_ok cols w) then inl (OperationalError (NoSuchColumn "WHERE"))
          else match (if fk then parent_missing db (tdef tb) else None) with
               | Some p => inl (OperationalError (NoSuchTable p))
               | None =>
                   if negb (Nat.eqb (length ps) (arity s)) then inl wrong_bindings
                   else
                     let gone := List.filter (holds cols ps w) (trows tb) in
                     let kept := List.filter (fun r => negb (holds cols ps w r)) (trows tb) in
                     match delete_rows fk db tb gone kept with
                     | inl e => inl e
                     | inr db' => done db' (Z.of_nat (length gone))
                     end
               end
      end
  | Select p n w o =>
      match relation db n with
      | None => inl (OperationalError (NoSuchTable n))
      | Some (cols, rows) =>
          match missing_column cols
                  (proj_cols cols p ++ match o with Some c => [c] | None => [] end)%list with
          | Some c => inl (OperationalError (NoSuchColumn c))
          | None =>
              if negb (where_ok cols w) then inl (OperationalError (NoSuchColumn "WHERE"))
              else if negb (Nat.eqb (length ps) (arity s)) then inl wrong_bindings
              else inr {| out_db := db;
                          out_rowcount := -1;
                          out_columns := proj_cols cols p;
                          out_rows := map (project cols p)
                                          (ordered cols o (List.filter (holds cols ps w) rows)) |}
          end
      end
  end.

(** *** Compiling a statement

    The engine compiles a statement before any value is bound to it and
    before it runs.  The operational errors above are found then, but for
    the depth of the triggers, which is reached while the statement
    runs. *)
Definition found_by_prepare (e : error) : bool :=
  match e with
  | OperationalError TriggerDepth => false
  | OperationalError _ => true
  | _ => false
  end.

(** [sqlite3_prepare]: the error of the statement that does not compile.
    No value is bound yet; the statement is examined with NULL at each
    placeholder. *)
Definition prepare (fk : bool) (db : Db) (s : stmt) : option error :=
  match run fk db s (repeat VNull (arity s)) with
  | inl e => if found_by_prepare e then Some e else None
  | inr _ => None
  end.

End Sqlite.

(* ================================================================== *)
(** * Python's sqlite3 module *)
(* ================================================================== *)

Module Py.
Import Sqlite.

(** ** Exceptions *)

(** [sqlite3.OperationalError], [sqlite3.IntegrityError] and
    [sqlite3.ProgrammingError] all derive from [sqlite3.Error];
    [OverflowError], [TypeError] and [IndexError] do not. *)
Inductive exn : Type :=
| sqlite3_Error (e : Sqlite.error)
| OverflowError (msg : string)
| TypeError (msg : string)
| IndexError (msg : string).

Definition is_sqlite3_Error (e : exn) : bool :=
  match e with sqlite3_Error _ => true | _ => false end.

Definition closed_database : exn :=
  sqlite3_Error (ProgrammingError "Cannot operate on a closed database.").

(** ** A state-and-exception monad *)

Inductive result (A : Type) : Type :=
| Return (a : A)
| Raise (e : exn).
Arguments Return {A} a.
Arguments Raise {A} e.

Definition M (S A : Type) : Type := S -> result A * S.

Definition ret {S A} (a : A) : M S A := fun s => (Return a, s).

Definition raise {S A} (e : exn) : M S A := fun s => (Raise e, s).

Definition bind {S A B} (m : M S A) (k : A -> M S B) : M S B :=
  fun s => match m s with
           | (Return a, s') => k a s'
           | (Raise e, s') => (Raise e, s')
           end.

Declare Scope py_scope.
Delimit Scope py_scope with py.
Notation "x <- c1 ;; c2" := (bind c1 (fun x => c2))
  (at level 100, c1 at next level, right associativity) : py_scope.
Notation "c1 ;; c2" := (bind c1 (fun _ => c2))
  (at level 100, right associativity) : py_scope.
#[local] Open Scope py_scope.

(** [try: body except E as e: handler e], where [catches] decides
    membership in [E]; other exceptions pass through. *)
Definition try_except {S A} (body : M S A) (catches : exn -> bool)
    (handler : exn -> M S A) : M S A :=
  fun s => match body s with
           | (Raise e, s') => if catches e then handler e s' else (Raise e, s')
           | ok => ok
           end.

(** [try: body finally: cleanup]: the cleanup runs on both exits; an exception
    of the cleanup replaces the result of the body. *)
Definition try_finally {S A} (body : M S A) (cleanup : M S unit) : M S A :=
  fun s => match body s with
           | (r, s') =>
               match cleanup s' with
               | (Return _, s'') => (r, s'')
               | (Raise e, s'') => (Raise e, s'')
               end
           end.

(** [for x in xs: body x] *)
Fixpoint for_each {S X} (xs : list X) (body : X -> M S unit) : M S unit :=
  match xs with
  | [] => ret tt
  | x :: xs' => body x ;; for_each xs' body
  end.

(** [[f x for x in xs]] *)
Fixpoint comprehension {S X Y} (xs : list X) (f : X -> M S Y) : M S (list Y) :=
  match xs with
  | [] => ret []
  | x :: xs' => y <- f x ;; ys <- comprehension xs' f ;; ret (y :: ys)
  end.

(** ** Rows *)

Inductive factory : Type :=
| no_factory       (* rows are plain tuples *)
| sqlite3_Row.     (* rows are records indexed by column name *)

Inductive py_row : Type :=
| Tuple (vals : list value)
| Row (fields : list (string * value)).

Definition make_row (f : factory) (cols : list string) (r : row) : py_row :=
  match f with
  | no_factory => Tuple r
  | sqlite3_Row => Row (combine cols r)
  end.

Fixpoint assoc (k : string) (fields : list (string * value)) : option value :=
  match fields with
  | [] => None
  | (k', v) :: fields' => if String.eqb k k' then Some v else assoc k fields'
  end.

(** [r[key]] for a string key *)
Definition getitem {S} (r : py_row) (key : string) : M S value :=
  match r with
  | Tuple _ => raise (TypeError "tuple indices must be integers or slices, not str")
  | Row fields =>
      match assoc key fields with
      | Some v => ret v
      | None => raise (IndexError "No item with that key")
      end
  end.

(** ** Connections and cursors *)

Record Connection : Type := {
  foreign_keys : bool;        (* PRAGMA foreign_keys *)
  row_factory : factory;
  pending : option Db         (* the working copy of an open transaction *)
}.

Definition handle : Type := nat.

(** The file named by the manager's [db_name], the connection objects that
    are open on it, and the statements the engine has received. *)
Record World : Type := {
  disk : Db;
  conns : gmap handle Connection;
  next_handle : handle;
  trace : list (stmt * list value)
}.

Definition with_conn (w : World) (h : handle) (c : Connection) : World :=
  {| disk := disk w; conns := <[h := c]> (conns w);
     next_handle := next_handle w; trace := trace w |}.

Definition with_disk (w : World) (db : Db) : World :=
  {| disk := db; conns := conns w; next_handle := next_handle w; trace := trace w |}.

Definition logged (w : World) (s : stmt) (ps : list value) : World :=
  {| disk := disk w; conns := conns w; next_handle := next_handle w;
     trace := (trace w ++ [(s, ps)])%list |}.

Definition set_pending (c : Connection) (p : option Db) : Connection :=
  {| foreign_keys := foreign_keys c; row_factory := row_factory c; pending := p |}.

Definition in_transaction (c : Connection) : bool :=
  match pending c with Some _ => true | None => false end.

(** What a connection reads: its open transaction, else the file. *)
Definition visible (w : World) (c : Connection) : Db :=
  match pending c with Some db => db | None => disk w end.

(** [sqlite3.connect(name)]: a new connection, foreign keys off, no row
    factory, no transaction. *)
Definition sqlite3_connect (name : string) : M World handle :=
  fun w =>
    let h := next_handle w in
    (Return h,
     {| disk := disk w;
        conns := <[h := {| foreign_keys := false; row_factory := no_factory;
                           pending := None |}]> (conns w);
        next_handle := S h;
        trace := trace w |}).

Record Cursor : Type := {
  cur_conn : handle;
  cur_factory : factory;
  rowcount : Z;
  cur_rows : list py_row
}.

(** [conn.cursor()] *)
Definition conn_cursor (h : handle) : M World Cursor :=
  fun w => match conns w !! h with
           | None => (Raise closed_database, w)
           | Some c =>
               (Return {| cur_conn := h; cur_factory := row_factory c;
                          rowcount := -1; cur_rows := [] |}, w)
           end.

(** The effect of a statement that ran without error on the connection and
    on the file: inside a transaction the working copy changes, outside the
    file does; PRAGMA foreign_keys does nothing inside a transaction. *)
Definition settle (w : World) (h : handle) (c : Connection) (s : stmt)
    (out : outcome) : World :=
  let fk := match s with
            | PragmaForeignKeys on => if in_transaction c then foreign_keys c else on
            | _ => foreign_keys c
            end in
  match pending c with
  | Some _ =>
      with_conn w h {| foreign_keys := fk; row_factory := row_factory c;
                       pending := Some (out_db out) |}
  | None =>
      with_conn (with_disk w (out_db out)) h
        {| foreign_keys := fk; row_factory := row_factory c; pending := None |}
  end.

(** SQLite integers have 64 bits. *)
Definition fits (v : value) : bool :=
  match v with
  | VInt z => (-9223372036854775808 <=? z)%Z && (z <=? 9223372036854775807)%Z
  | _ => true
  end.

Definition int_too_large : exn :=
  OverflowError "Python int too large to convert to SQLite INTEGER".

(** Binding the values of a call to the placeholders of the compiled
    statement: their number is checked first, then each value is
    converted; a Python int outside 64 bits cannot be. *)
Definition bind_parameters (s : stmt) (ps : list value) : option exn :=
  if negb (Nat.eqb (length ps) (arity s)) then Some (sqlite3_Error wrong_bindings)
  else if negb (forallb fits ps) then Some int_too_large
  else None.

(** [cursor.execute(sql, parameters)]; [cursor.execute(sql)] binds no
    value.  The statement is compiled; before INSERT and DELETE the module
    then opens a transaction if none is open; the values are bound; the
    statement is run.  The call returns the cursor. *)
Definition cursor_execute (cur : Cursor) (s : stmt) (ps : list value) : M World Cursor :=
  fun w =>
    match conns w !! cur_conn cur with
    | None => (Raise closed_database, w)
    | Some c =>
        let w1 := logged w s ps in
        match prepare (foreign_keys c) (visible w1 c) s with
        | Some e => (Raise (sqlite3_Error e), w1)
        | None =>
            let c1 := if is_dml s && negb (in_transaction c)
                      then set_pending c (Some (disk w)) else c in
            match bind_parameters s ps with
            | Some e => (Raise e, with_conn w1 (cur_conn cur) c1)
            | None =>
                match run (foreign_keys c1) (visible w1 c1) s ps with
                | inl e => (Raise (sqlite3_Error e), with_conn w1 (cur_conn cur) c1)
                | inr out =>
                    (Return {| cur_conn := cur_conn cur; cur_factory := cur_factory cur;
                               rowcount := out_rowcount out;
                               cur_rows := map (make_row (cur_factory cur) (out_columns out))
                                               (out_rows out) |},
                     settle w1 (cur_conn cur) c1 s out)
                end
            end
        end
    end.

(** [conn.execute(sql)] *)
Definition conn_execute (h : handle) (s : stmt) (ps : list value) : M World Cursor :=
  cur <- conn_cursor h ;; cursor_execute cur s ps.

(** [conn.row_factory = f] *)
Definition set_row_factory (h : handle) (f : factory) : M World unit :=
  fun w => match conns w !! h with
           | None => (Return tt, w)
           | Some c =>
               (Return tt,
                with_conn w h {| foreign_keys := foreign_keys c; row_factory := f;
                                 pending := pending c |})
           end.

(** [conn.commit()] *)
Definition conn_commit (h : handle) : M World unit :=
  fun w => match conns w !! h with
           | None => (Raise closed_database, w)
           | Some c => (Return tt, with_conn (with_disk w (visible w c)) h (set_pending c None))
           end.

(** [conn.rollback()] *)
Definition conn_rollback (h : handle) : M World unit :=
  fun w => match conns w !! h with
           | None => (Raise closed_database, w)
           | Some c => (Return tt, with_conn w h (set_pending c None))
           end.

(** [conn.close()]: an open transaction is lost. *)
Definition conn_close (h : handle) : M World unit :=
  fun w => (Return tt,
            {| disk := disk w; conns := delete h (conns w);
               next_handle := next_handle w; trace := trace w |}).

(** [cursor.fetchall()], [cursor.fetchone()], [cursor.close()] *)
Definition fetchall {S} (cur : Cursor) : M S (list py_row) := ret (cur_rows cur).

Definition fetchone {S} (cur : Cursor) : M S (option py_row) := ret (head (cur_rows cur)).

Definition cursor_close {S} (cur : Cursor) : M S unit := ret tt.

End Py.

(* ================================================================== *)
(** * models/database_manager.py *)
(* ================================================================== *)

Module DatabaseManager.
Import Sqlite Py.
#[local] Open Scope py_scope.

(** The attributes of a [DatabaseManager] object. *)
Record manager : Type := {
  db_name : string;
  connection : option handle     (* [None] or the connection object *)
}.

(** Methods run on the manager ([self]) and on the world of the engine. *)
Record State : Type := { world : World; self : manager }.

Definition __init__ (name : string) : manager :=
  {| db_name := name; connection := None |}.

Definition engine {A} (m : M World A) : M State A :=
  fun st => match m (world st) with
            | (r, w') => (r, {| world := w'; self := self st |})
            end.

Definition get_self : M State manager := fun st => (Return (self st), st).

Definition set_connection (c : option handle) : M State unit :=
  fun st => (Return tt,
             {| world := world st;
                self := {| db_name := db_name (self st); connection := c |} |}).

(** The truth value of an [Optional[Tuple]]: [None] and the empty tuple
    are false. *)
Definition truthy (params : option (list value)) : bool :=
  match params with
  | Some (_ :: _) => true
  | _ => false
  end.

Definition tuple_of (params : option (list value)) : list value :=
  match params with Some ps => ps | None => [] end.

Definition connect : M State handle :=
  me <- get_self ;;
  match connection me with
  | None =>
      conn <- engine (sqlite3_connect (db_name me)) ;;
      set_connection (Some conn) ;;
      _ <- engine (conn_execute conn (PragmaForeignKeys true) []) ;;
      engine (set_row_factory conn sqlite3_Row) ;;
      ret conn
  | Some conn => ret conn
  end.

Definition execute_query (query : stmt) (params : option (list value)) : M State Z :=
  conn <- connect ;;
  cursor <- engine (conn_cursor conn) ;;
  try_finally
    (try_except
       (cursor <- (if truthy params
                   then engine (cursor_execute cursor query (tuple_of params))
                   else engine (cursor_execute cursor query [])) ;;
        engine (conn_commit conn) ;;
        ret (rowcount cursor))
       is_sqlite3_Error
       (fun e => engine (conn_rollback conn) ;; raise e))
    (cursor_close cursor).

Definition fetch_all (query : stmt) (params : option (list value))
    : M State (list py_row) :=
  conn <- connect ;;
  cursor <- engine (conn_cursor conn) ;;
  try_finally
    (try_except
       (cursor <- (if truthy params
                   then engine (cursor_execute cursor query (tuple_of params))
                   else engine (cursor_execute cursor query [])) ;;
        fetchall cursor)
       is_sqlite3_Error
       (fun e => raise e))
    (cursor_close cursor).

Definition fetch_one (query : stmt) (params : option (list value))
    : M State (option py_row) :=
  conn <- connect ;;
  cursor <- engine (conn_cursor conn) ;;
  try_finally
    (try_except
       (cursor <- (if truthy params
                   then engine (cursor_execute cursor query (tuple_of params))
                   else engine (cursor_execute cursor query [])) ;;
        fetchone cursor)
       is_sqlite3_Error
       (fun e => raise e))
    (cursor_close cursor).

Definition close : M State unit :=
  me <- get_self ;;
  match connection me with
  | Some conn => engine (conn_close conn) ;; set_connection None
  | None => ret tt
  end.

Definition __enter__ : M State manager := get_self.

(** [__exit__] returns [None], which is false: the exception, if any, is
    not suppressed. *)
Definition __exit__ (exc : option exn) : M State bool := close ;; ret false.

(** [with manager as db: body db] *)
Definition with_ {A} (body : manager -> M State A) : M State (option A) :=
  db <- __enter__ ;;
  (fun st =>
     match body db st with
     | (Return a, st') => (__exit__ None ;; ret (Some a)) st'
     | (Raise e, st') =>
         (suppress <- __exit__ (Some e) ;;
          (if (suppress : bool) then ret None else raise e)) st'
     end).

End DatabaseManager.

(* ================================================================== *)
(** * models/schema.py *)
(* ================================================================== *)

Module DatabaseSchema.
Import Sqlite Py DatabaseManager.
#[local] Open Scope py_scope.

Definition col (n : string) (ty : ctype) (notnull : bool) (default : value) : column :=
  {| col_name := n; col_type := ty; col_notnull := notnull; col_default := default |}.

Definition references (c t c' : string) : foreign_key :=
  {| fk_from := c; fk_table := t; fk_to := c' |}.

Definition divisions_def : table_def :=
  {| tname := "divisions";
     tcols := [col "id" INTEGER false VNull;
               col "name" TEXT true VNull];
     tpk := Some "id";
     tuniques := [["name"]];
     tchecks := [];
     tfks := [] |}.

Definition teams_def : table_def :=
  {| tname := "teams";
     tcols := [col "id" INTEGER false VNull;
               col "name" TEXT true VNull;
               col "division_id" INTEGER true VNull];
     tpk := Some "id";
     tuniques := [];
     tchecks := [];
     tfks := [references "division_id" "divisions" "id"] |}.

Definition players_def : table_def :=
  {| tname := "players";
     tcols := [col "id" INTEGER false VNull;
               col "name" TEXT true VNull;
               col "position" TEXT true VNull;
               col "team_id" INTEGER true VNull];
     tpk := Some "id";
     tuniques := [];
     tchecks := [];
     tfks := [references "team_id" "teams" "id"] |}.

Definition matches_def : table_def :=
  {| tname := "matches";
     tcols := [col "id" INTEGER false VNull;
               col "date" TEXT true VNull;
               col "division_id" INTEGER true VNull;
               col "team1_id" INTEGER true VNull;
               col "team2_id" INTEGER true VNull;
               col "team1_score" INTEGER false (VInt 0);
               col "team2_score" INTEGER false (VInt 0)];
     tpk := Some "id";
     tuniques := [];
     tchecks := [Ne (Col "team1_id") (Col "team2_id")];
     tfks := [references "division_id" "divisions" "id";
              references "team1_id" "teams" "id";
              references "team2_id" "teams" "id"] |}.

Definition player_stats_def : table_def :=
  {| tname := "player_stats";
     tcols := [col "id" INTEGER false VNull;
               col "player_id" INTEGER true VNull;
               col "match_id" INTEGER true VNull;
               col "attempts" INTEGER false (VInt 0);
               col "goals" INTEGER false (VInt 0);
               col "center_passes" INTEGER false (VInt 0);
               col "tips" INTEGER false (VInt 0);
               col "rebounds" INTEGER false (VInt 0);
               col "interceptions" INTEGER false (VInt 0);
               col "turnovers" INTEGER false (VInt 0)];
     tpk := Some "id";
     tuniques := [["player_id"; "match_id"]];
     tchecks := [];
     tfks := [references "player_id" "players" "id";
              references "match_id" "matches" "id"] |}.

Definition create_tables : M State unit :=
  (* 1. Divisions table *)
  execute_query (CreateTable true divisions_def) None ;;
  (* 2. Teams table with foreign key to divisions *)
  execute_query (CreateTable true teams_def) None ;;
  (* 3. Players table with foreign key to teams *)
  execute_query (CreateTable true players_def) None ;;
  (* 4. Matches table with foreign keys to divisions and teams *)
  execute_query (CreateTable true matches_def) None ;;
  (* 5. Player stats table with foreign keys to players and matches *)
  execute_query (CreateTable true player_stats_def) None ;;
  ret tt.

Definition drop_tables : M State unit :=
  let tables := ["player_stats"; "matches"; "players"; "teams"; "divisions"] in
  for_each tables (fun table => execute_query (DropTable true table) None ;; ret tt).

Definition get_table_names : M State (list value) :=
  tables <- fetch_all
              (Select (Columns ["name"]) "sqlite_master"
                 (Some (And (Eq (Col "type") (Lit (VText "table")))
                            (Not (Like (Col "name") "sqlite_%"))))
                 (Some "name"))
              None ;;
  comprehension tables (fun table => getitem table "name").

Definition table_exists (table_name : string) : M State bool :=
  result <- fetch_one
              (Select (Columns ["name"]) "sqlite_master"
                 (Some (And (Eq (Col "type") (Lit (VText "table")))
                            (Eq (Col "name") (Param 0))))
                 None)
              (Some [VText table_name]) ;;
  ret (match result with Some _ => true | None => false end).

Definition sample_divisions : list (Z * string) :=
  [(1, "Premier Division"); (2, "Division 1"); (3, "Division 2")]%Z.

Definition sample_teams : list (Z * string * Z) :=
  [(1, "Red Dragons", 1); (2, "Blue Eagles", 1);
   (3, "Green Lions", 2); (4, "Yellow Tigers", 2)]%Z.

Definition sample_players : list (Z * string * string * Z) :=
  [(1, "Alice Johnson", "Goal Shooter", 1);
   (2, "Bob Smith", "Goal Attack", 1);
   (3, "Charlie Brown", "Wing Attack", 2);
   (4, "Diana Prince", "Center", 2);
   (5, "Eve Wilson", "Goal Keeper", 3);
   (6, "Frank Miller", "Goal Defense", 3)]%Z.

Definition sample_matches : list (Z * string * Z * Z * Z * Z * Z) :=
  [(1, "2024-01-15", 1, 1, 2, 45, 42);
   (2, "2024-01-22", 2, 3, 4, 38, 35)]%Z.

Definition sample_player_stats : list (Z * Z * Z * Z * Z * Z * Z * Z * Z * Z) :=
  [(1, 1, 1, 15, 12, 0, 0, 0, 0, 2);
   (2, 2, 1, 10, 8, 0, 0, 0, 0, 1);
   (3, 3, 1, 8, 6, 0, 0, 0, 0, 3);
   (4, 4, 1, 12, 10, 0, 0, 0, 0, 1);
   (5, 5, 2, 14, 11, 0, 0, 0, 0, 2);
   (6, 6, 2, 9, 7, 0, 0, 0, 0, 1)]%Z.

Definition placeholders (n : nat) : list operand := map Param (seq 0 n).

Definition insert_or_ignore (table : string) (cols : list string) : stmt :=
  Insert true table cols (placeholders (length cols)).

Definition insert_sample_data : M State unit :=
  (* Insert divisions *)
  for_each sample_divisions
    (fun '(div_id, name) =>
       execute_query (insert_or_ignore "divisions" ["id"; "name"])
         (Some [VInt div_id; VText name]) ;; ret tt) ;;
  (* Insert teams *)
  for_each sample_teams
    (fun '(team_id, name, div_id) =>
       execute_query (insert_or_ignore "teams" ["id"; "name"; "division_id"])
         (Some [VInt team_id; VText name; VInt div_id]) ;; ret tt) ;;
  (* Insert players *)
  for_each sample_players
    (fun '(player_id, name, position, team_id) =>
       execute_query (insert_or_ignore "players" ["id"; "name"; "position"; "team_id"])
         (Some [VInt player_id; VText name; VText position; VInt team_id]) ;; ret tt) ;;
  (* Insert matches *)
  for_each sample_matches
    (fun '(match_id, date, div_id, team1_id, team2_id, score1, score2) =>
       execute_query
         (insert_or_ignore "matches"
            ["id"; "date"; "division_id"; "team1_id"; "team2_id";
             "team1_score"; "team2_score"])
         (Some [VInt match_id; VText date; VInt div_id; VInt team1_id;
                VInt team2_id; VInt score1; VInt score2]) ;; ret tt) ;;
  (* Insert player stats *)
  for_each sample_player_stats
    (fun '(stat_id, player_id, match_id, attempts, goals, center_passes, tips,
           rebounds, interceptions, turnovers) =>
       execute_query
         (insert_or_ignore "player_stats"
            ["id"; "player_id"; "match_id"; "attempts"; "goals"; "center_passes";
             "tips"; "rebounds"; "interceptions"; "turnovers"])
         (Some [VInt stat_id; VInt player_id; VInt match_id; VInt attempts;
                VInt goals; VInt center_passes; VInt tips; VInt rebounds;
                VInt interceptions; VInt turnovers]) ;; ret tt).

End DatabaseSchema.

(* ================================================================== *)
(** * Vocabulary of the statements proved below *)
(* ================================================================== *)

Import Sqlite Py DatabaseManager DatabaseSchema.

(** ** States of the manager *)

(** A manager that has just been constructed, on a file without tables. *)
Definition new_state (name : string) : State :=
  {| world := {| disk := []; conns := ∅; next_handle := O; trace := [] |};
     self := __init__ name |}.

(** The invariant of the data-access layer: the only connection that is
    open, if any, is the one the manager holds, and it returns rows as
    records. *)
Definition manager_inv (st : State) : Prop :=
  match connection (self st) with
  | None => conns (world st) = ∅
  | Some h =>
      (h < next_handle (world st))%nat /\
      exists c, conns (world st) = {[h := c]} /\ row_factory c = sqlite3_Row
  end.

(** The connection object of the manager, when it has one. *)
Definition current (st : State) : option Connection :=
  match connection (self st) with
  | Some h => conns (world st) !! h
  | None => None
  end.

(** The database that a query of the manager reads, and whether foreign
    keys are enforced for it: those of the open connection, else those of
    the connection that [connect] will make. *)
Definition seen (st : State) : Db :=
  match current st with
  | Some c => visible (world st) c
  | None => disk (world st)
  end.

Definition enforcing (st : State) : bool :=
  match current st with
  | Some c => foreign_keys c
  | None => true
  end.

(** The values a call binds: those of [params] when it is true, none
    otherwise. *)
Definition bound (params : option (list value)) : list value :=
  if truthy params then tuple_of params else [].

(** The values can be bound to the placeholders of the statement: they are
    as many and every integer has 64 bits. *)
Definition bindable (s : stmt) (ps : list value) : bool :=
  Nat.eqb (length ps) (arity s) && forallb fits ps.

(** The answer of the engine, as [cursor.execute] passes it on. *)
Definition lift (r : error + outcome) : exn + outcome :=
  match r with inl e => inl (sqlite3_Error e) | inr out => inr out end.

(** What [cursor.execute] makes of a statement on database [db]: the
    outcome of the statement, or the exception of the stage that failed. *)
Definition answer (fk : bool) (db : Db) (s : stmt) (ps : list value) : exn + outcome :=
  match prepare fk db s with
  | Some e => inl (sqlite3_Error e)
  | None =>
      match bind_parameters s ps with
      | Some e => inl e
      | None => lift (run fk db s ps)
      end
  end.

(** What [connect] sends to the engine: nothing when a connection is open. *)
Definition connect_log (st : State) : list (stmt * list value) :=
  match connection (self st) with
  | Some _ => []
  | None => [(PragmaForeignKeys true, [])]
  end.

(** The state after [connect], and after [close]. *)
Definition opened (st : State) : State := snd (connect st).

Definition closed (st : State) : State := snd (close st).

Definition no_transaction (st : State) : Prop :=
  forall h c, conns (world st) !! h = Some c -> pending c = None.

Definition is_record (r : py_row) : Prop :=
  match r with Row _ => True | Tuple _ => False end.

(** ** States with an open connection, written out *)

Definition state_with (st : State) (db : Db) (h : handle) (c : Connection)
    (next : handle) (log : list (stmt * list value)) : State :=
  {| world := {| disk := db; conns := {[h := c]}; next_handle := next;
                 trace := trace (world st) ++ log |};
     self := {| db_name := db_name (self st); connection := Some h |} |}.

(** The connection that [connect] makes. *)
Definition fresh_conn : Connection :=
  {| foreign_keys := true; row_factory := sqlite3_Row; pending := None |}.

(** [c] outside a transaction, with foreign-key enforcement [fk]. *)
Definition idle (c : Connection) (fk : bool) : Connection :=
  {| foreign_keys := fk; row_factory := row_factory c; pending := None |}.

Definition view (db : Db) (c : Connection) : Db :=
  match pending c with Some p => p | None => db end.

Definition is_pragma (q : stmt) : bool :=
  match q with PragmaForeignKeys _ => true | _ => false end.

Definition fk_after (c : Connection) (s : stmt) : bool :=
  match s with
  | PragmaForeignKeys on => if in_transaction c then foreign_keys c else on
  | _ => foreign_keys c
  end.

(** [c] once the module has opened the transaction that [s] needs. *)
Definition begun (c : Connection) (db : Db) (s : stmt) : Connection :=
  if is_dml s && negb (in_transaction c) then set_pending c (Some db) else c.

(** The state after a fetch of a statement that compiles: [o] is the
    outcome of the statement, [None] when it failed. *)
Definition fetched (st : State) (h : handle) (c : Connection) (q : stmt)
    (ps : list value) (o : option outcome) : State :=
  let c1 := begun c (disk (world st)) q in
  let w1 := logged (world st) q ps in
  {| world := match o with
              | Some out => settle w1 h c1 q out
              | None => with_conn w1 h c1
              end;
     self := self st |}.

(** The state after a call whose statement does not compile. *)
Definition refused (st : State) (q : stmt) (ps : list value) : State :=
  {| world := logged (world st) q ps; self := self st |}.

Definition rows_of (c : Connection) (out : outcome) : list py_row :=
  map (make_row (row_factory c) (out_columns out)) (out_rows out).

(** ** Lists of statements *)

(** One turn of a loop of [execute_query]. *)
Definition run_one (sp : stmt * list value) : M State unit :=
  bind (execute_query (fst sp) (Some (snd sp))) (fun _ => ret tt).

(** The statements of [l] run one after the other on [db]. *)
Fixpoint run_all (fk : bool) (db : Db) (l : list (stmt * list value)) : error + Db :=
  match l with
  | [] => inr db
  | sp :: l' =>
      match run fk db (fst sp) (snd sp) with
      | inl e => inl e
      | inr out => run_all fk (out_db out) l'
      end
  end.

(** ** The declared schema *)

Definition declared : list table_def :=
  [divisions_def; teams_def; players_def; matches_def; player_stats_def].

Definition tbl (td : table_def) (rows : list row) : table :=
  {| tdef := td; trows := rows |}.

(** The database that [create_tables] makes of an empty file, with rows in
    its five tables. *)
Definition netball_db (dv ts ps ms ss : list row) : Db :=
  [tbl divisions_def dv; tbl teams_def ts; tbl players_def ps;
   tbl matches_def ms; tbl player_stats_def ss].

(** CREATE TABLE IF NOT EXISTS, as a function on databases. *)
Definition ensure (db : Db) (td : table_def) : Db :=
  match find_table db (tname td) with
  | Some _ => db
  | None => db ++ [{| tdef := td; trows := [] |}]
  end.

Definition ensure_all (db : Db) : Db := fold_left ensure declared db.

Definition create_log : list (stmt * list value) :=
  map (fun td => (CreateTable true td, [])) declared.

Definition drop_log : list (stmt * list value) :=
  [(DropTable true "player_stats", []); (DropTable true "matches", []);
   (DropTable true "players", []); (DropTable true "teams", []);
   (DropTable true "divisions", [])].

(** ** Ownership: which rows go with a division *)

(** The value of column [c] in a row of the table declared by [td]. *)
Definition col_of (td : table_def) (c : string) (r : row) : value :=
  field (col_names td) r c.

(** [v] is the id of one of the rows [parents] of table [td]. *)
Definition id_among (v : value) (td : table_def) (parents : list row) : bool :=
  existsb (fun p => same_key v (col_of td "id" p)) parents.

Definition division_is (d : Z) (r : row) : bool :=
  same_key (col_of divisions_def "id" r) (VInt d).

(** A team of one of the [divisions]; a player of one of the [teams]. *)
Definition team_of (divisions : list row) (t : row) : bool :=
  id_among (col_of teams_def "division_id" t) divisions_def divisions.

Definition player_of (teams : list row) (p : row) : bool :=
  id_among (col_of players_def "team_id" p) teams_def teams.

(** A match in one of the [divisions] or played by one of the [teams]. *)
Definition ref_division (divisions : list row) (m : row) : bool :=
  id_among (col_of matches_def "division_id" m) divisions_def divisions.

Definition ref_team1 (teams : list row) (m : row) : bool :=
  id_among (col_of matches_def "team1_id" m) teams_def teams.

Definition ref_team2 (teams : list row) (m : row) : bool :=
  id_among (col_of matches_def "team2_id" m) teams_def teams.

Definition match_of (divisions teams : list row) (m : row) : bool :=
  ref_division divisions m || ref_team1 teams m || ref_team2 teams m.

(** A statistic of one of the [players] or of one of the [matches]. *)
Definition ref_player (players : list row) (s : row) : bool :=
  id_among (col_of player_stats_def "player_id" s) players_def players.

Definition ref_match (matches : list row) (s : row) : bool :=
  id_among (col_of player_stats_def "match_id" s) matches_def matches.

Definition stat_of (players matches : list row) (s : row) : bool :=
  ref_player players s || ref_match matches s.

(** The rows of [l] that [p] does not select, in their order. *)
Definition without (p : row -> bool) (l : list row) : list row :=
  List.filter (fun r => negb (p r)) l.

(** The database without division [d], its teams, their players, the
    matches of the division or of those teams, and the statistics of those
    players or matches. *)
Definition without_division (d : Z) (dv ts ps ms ss : list row) : Db :=
  let gone_dv := List.filter (division_is d) dv in
  let gone_ts := List.filter (team_of gone_dv) ts in
  let gone_ps := List.filter (player_of gone_ts) ps in
  let gone_ms := List.filter (match_of gone_dv gone_ts) ms in
  netball_db (without (division_is d) dv)
             (without (team_of gone_dv) ts)
             (without (player_of gone_ts) ps)
             (without (match_of gone_dv gone_ts) ms)
             (without (stat_of gone_ps gone_ms) ss).

(** DELETE FROM divisions WHERE id = ? *)
Definition delete_division : stmt := Delete "divisions" (Some (Eq (Col "id") (Param 0))).

(** ** The declared constraints, stated on a row *)

Definition not_null_violated (td : table_def) (r : row) : Prop :=
  exists c, In c (tcols td) /\ col_notnull c = true /\ col_of td (col_name c) r = VNull.

Definition check_violated (td : table_def) (r : row) : Prop :=
  exists chk, In chk (tchecks td) /\ eval_cond (col_names td) r [] chk = Some false.

Definition key_taken (td : table_def) (rows : list row) (r : row) : Prop :=
  exists pk r', tpk td = Some pk /\ In r' rows /\
                same_key (col_of td pk r') (col_of td pk r) = true.

Definition unique_taken (td : table_def) (rows : list row) (r : row) : Prop :=
  exists u r', In u (tuniques td) /\ In r' rows /\
               forall c, In c u -> same_key (col_of td c r') (col_of td c r) = true.

Definition parent_absent (db : Db) (td : table_def) (r : row) : Prop :=
  exists f, In f (tfks td) /\ col_of td (fk_from f) r <> VNull /\
            forall p pr, find_table db (fk_table f) = Some p -> In pr (trows p) ->
                         same_key (col_of (tdef p) (fk_to f) pr)
                                  (col_of td (fk_from f) r) = false.

(** Row [r], about to be added to table [tb] of [db], breaks a constraint
    declared for that table: NOT NULL, CHECK, PRIMARY KEY, UNIQUE or, when
    foreign keys are enforced, FOREIGN KEY. *)
Definition violates (fk : bool) (db : Db) (tb : table) (r : row) : Prop :=
  not_null_violated (tdef tb) r \/
  check_violated (tdef tb) r \/
  key_taken (tdef tb) (trows tb) r \/
  unique_taken (tdef tb) (trows tb) r \/
  (fk = true /\
   parent_absent (set_rows db (tname (tdef tb)) (trows tb ++ [r])) (tdef tb) r).

(** An INSERT that the engine accepts as a statement: the table and its
    columns exist, there are as many values as columns and as many bound
    values as placeholders, and [r] is the row it writes. *)
Definition inserts (fk : bool) (db : Db) (tb : table) (cols : list string)
    (vals : list operand) (ps : list value) (r : row) : Prop :=
  find_table db (tname (tdef tb)) = Some tb /\
  missing_column (col_names (tdef tb)) cols = None /\
  length vals = length cols /\
  forallb (operand_ok []) vals = true /\
  (if fk then parent_missing db (tdef tb) else None) = None /\
  length ps = arity (Insert false (tname (tdef tb)) cols vals) /\
  assign_rowid (tdef tb) (trows tb)
    (build_row (tdef tb) cols (map (eval_operand [] [] ps) vals)) = inr r.

(** [v] is NULL or has the storage class of a column declared with type
    [ty], an integer having 64 bits: the engine stores such a value as it
    is bound and compares it with the stored values as it is. *)
Definition of_type (ty : ctype) (v : value) : bool :=
  match ty, v with
  | _, VNull => true
  | INTEGER, VInt _ => fits v
  | TEXT, VText _ => true
  | _, _ => false
  end.

(** A row with one value of the declared type for each column. *)
Fixpoint typed_row (cols : list column) (r : row) : bool :=
  match cols, r with
  | [], [] => true
  | c :: cols', v :: r' => of_type (col_type c) v && typed_row cols' r'
  | _, _ => false
  end.

(** Every stored row has values of the declared types. *)
Definition typed (db : Db) : bool :=
  forallb (fun tb => forallb (typed_row (tcols (tdef tb))) (trows tb)) db.

(** The INSERT statements of tests/test_schema.py. *)
Definition insert_division : stmt :=
  Insert false "divisions" ["id"; "name"] [Param 0; Param 1].

Definition insert_match : stmt :=
  Insert false "matches"
    ["id"; "date"; "division_id"; "team1_id"; "team2_id"; "team1_score"; "team2_score"]
    [Param 0; Param 1; Param 2; Param 3; Param 4; Param 5; Param 6].

Definition insert_player_stat : stmt :=
  Insert false "player_stats" ["id"; "player_id"; "match_id"; "attempts"; "goals"]
    [Param 0; Param 1; Param 2; Param 3; Param 4].

(** ** INSERT OR IGNORE with an explicit key *)

(** [db'] has the tables of [db], each with at least the rows it had. *)
Definition grows (db db' : Db) : Prop :=
  Forall2 (fun tb tb' => tdef tb = tdef tb' /\ incl (trows tb) (trows tb')) db db'.

(** The key of the row is given, as an integer. *)
Definition explicit_key (td : table_def) (r : row) : Prop :=
  exists pk z, tpk td = Some pk /\ field (col_names td) r pk = VInt z.

(** [sp] is an INSERT OR IGNORE that the engine accepts on [db], into table
    [tb], of the row [r], whose key is explicit. *)
Definition ready (fk : bool) (db : Db) (sp : stmt * list value) (tb : table) (r : row)
    : Prop :=
  exists cols vals,
    fst sp = Insert true (tname (tdef tb)) cols vals /\
    r = build_row (tdef tb) cols (map (eval_operand [] [] (snd sp)) vals) /\
    explicit_key (tdef tb) r /\
    inserts fk db tb cols vals (snd sp) r.

(** ... and that finds its row, or a row that excludes it, already there. *)
Definition settled (fk : bool) (db : Db) (sp : stmt * list value) : Prop :=
  exists tb r, ready fk db sp tb r /\ local_violation (tdef tb) (trows tb) r <> None.

(** ** The sample data *)

Definition for_table {X} (table : string) (cols : list string) (values : X -> list value)
    (x : X) : stmt * list value :=
  (insert_or_ignore table cols, values x).

Definition division_values : Z * string -> list value :=
  fun '(div_id, name) => [VInt div_id; VText name].

Definition team_values : Z * string * Z -> list value :=
  fun '(team_id, name, div_id) => [VInt team_id; VText name; VInt div_id].

Definition player_values : Z * string * string * Z -> list value :=
  fun '(player_id, name, position, team_id) =>
    [VInt player_id; VText name; VText position; VInt team_id].

Definition match_values : Z * string * Z * Z * Z * Z * Z -> list value :=
  fun '(match_id, date, div_id, team1_id, team2_id, score1, score2) =>
    [VInt match_id; VText date; VInt div_id; VInt team1_id; VInt team2_id;
     VInt score1; VInt score2].

Definition stat_values : Z * Z * Z * Z * Z * Z * Z * Z * Z * Z -> list value :=
  fun '(stat_id, player_id, match_id, attempts, goals, center_passes, tips,
        rebounds, interceptions, turnovers) =>
    [VInt stat_id; VInt player_id; VInt match_id; VInt attempts; VInt goals;
     VInt center_passes; VInt tips; VInt rebounds; VInt interceptions;
     VInt turnovers].

(** The statements of [insert_sample_data], in the order it issues them. *)
Definition sample_inserts : list (stmt * list value) :=
  map (for_table "divisions" ["id"; "name"] division_values) sample_divisions ++
  map (for_table "teams" ["id"; "name"; "division_id"] team_values) sample_teams ++
  map (for_table "players" ["id"; "name"; "position"; "team_id"] player_values)
      sample_players ++
  map (for_table "matches"
         ["id"; "date"; "division_id"; "team1_id"; "team2_id"; "team1_score"; "team2_score"]
         match_values)
      sample_matches ++
  map (for_table "player_stats"
         ["id"; "player_id"; "match_id"; "attempts"; "goals"; "center_passes"; "tips";
          "rebounds"; "interceptions"; "turnovers"]
         stat_values)
      sample_player_stats.

Definition is_insert_or_ignore (sp : stmt * list value) : bool :=
  match fst sp with Insert true _ _ _ => true | _ => false end.

(** The fixture rows, table by table: each tuple of the source is a row. *)
Definition division_rows : list row := map division_values sample_divisions.
Definition team_rows : list row := map team_values sample_teams.
Definition player_rows : list row := map player_values sample_players.
Definition match_rows : list row := map match_values sample_matches.
Definition stat_rows : list row := map stat_values sample_player_stats.

Definition sample_db : Db :=
  netball_db division_rows team_rows player_rows match_rows stat_rows.

(** ** sqlite_master *)

Definition table_names (db : Db) : list string := map (fun tb => tname (tdef tb)) db.

(** The queries of [get_table_names] and [table_exists]. *)
Definition names_query : stmt :=
  Select (Columns ["name"]) "sqlite_master"
    (Some (And (Eq (Col "type") (Lit (VText "table")))
               (Not (Like (Col "name") "sqlite_%"))))
    (Some "name").

Definition exists_query : stmt :=
  Select (Columns ["name"]) "sqlite_master"
    (Some (And (Eq (Col "type") (Lit (VText "table"))) (Eq (Col "name") (Param 0))))
    None.

Definition name_of (r : row) : value := field master_cols r "name".

(** Their WHERE clauses, on a row of sqlite_master. *)
Definition listed (r : row) : bool :=
  holds master_cols []
    (Some (And (Eq (Col "type") (Lit (VText "table"))) (Not (Like (Col "name") "sqlite_%"))))
    r.

Definition is_table (n : string) (r : row) : bool :=
  holds master_cols [VText n]
    (Some (And (Eq (Col "type") (Lit (VText "table"))) (Eq (Col "name") (Param 0))))
    r.

(** ** States used as examples *)

(** A new database with the schema and the sample rows. *)
Definition sample_state : State :=
  snd (insert_sample_data (snd (create_tables (new_state "netball_stats.db")))).

(** A user table whose name matches 'sqlite_%' without beginning with
    sqlite_. *)
Definition sqlitex_def : table_def :=
  {| tname := "sqlitex"; tcols := [col "id" INTEGER false VNull]; tpk := Some "id";
     tuniques := []; tchecks := []; tfks := [] |}.

Definition sqlitex_state : State :=
  snd (execute_query (CreateTable false sqlitex_def) None (new_state "netball_stats.db")).

(* ================================================================== *)
(** * Vocabulary of the further properties *)
(* ================================================================== *)
(** ** Statements *)

(** The statements that change the catalog; outside a transaction they
    take effect on the file at once. *)
Definition is_ddl (s : stmt) : bool :=
  match s with CreateTable _ _ | DropTable _ _ => true | _ => false end.

(** The table that a statement reads or writes. *)
Definition target (q : stmt) : option string :=
  match q with
  | Insert _ n _ _ | Delete n _ | Select _ n _ _ => Some n
  | _ => None
  end.


(** ** States *)

(** A manager constructed for the file of [st] once every connection to it
    has been closed. *)
Definition new_manager (name : string) (st : State) : State :=
  {| world := world st; self := __init__ name |}.

(** A file on which only the first table of the schema has been created. *)
Definition divisions_only_state : State :=
  snd (execute_query (CreateTable true divisions_def) None (new_state "netball_stats.db")).

(** The schema with one division that has the name of a sample division
    under another id. *)
Definition name_taken_state : State :=
  snd (execute_query insert_division (Some [VInt 7; VText "Premier Division"])
         (snd (create_tables (new_state "netball_stats.db")))).

(** ** Loops that stop at an error *)

(** The database on file once a loop of [execute_query] has stopped at its
    first failing statement: every statement before it was committed. *)
Definition committed (l1 : list (stmt * list value)) (db db1 : Db) : Db :=
  match l1 with [] => db | _ :: _ => db1 end.

(** ** Teams, players and matches *)

(** The statements of ui/team_player_management.py on one team:
    INSERT INTO teams (name, division_id) VALUES (?, ?),
    SELECT name FROM teams WHERE id = ? and DELETE FROM teams WHERE id = ?. *)
Definition insert_team : stmt :=
  Insert false "teams" ["name"; "division_id"] [Param 0; Param 1].

Definition select_team_name : stmt :=
  Select (Columns ["name"]) "teams" (Some (Eq (Col "id") (Param 0))) None.

Definition delete_team : stmt := Delete "teams" (Some (Eq (Col "id") (Param 0))).

Definition team_is (i : Z) (t : row) : bool :=
  same_key (col_of teams_def "id" t) (VInt i).

(** The key that the engine gives the next team. *)
Definition next_team_id (ts : list row) : Z := next_rowid teams_def ts "id".

(** A match played by one of the [teams], as first or as second team. *)
Definition played_by (teams : list row) (m : row) : bool :=
  ref_team1 teams m || ref_team2 teams m.

(** The database without the teams that [hit] selects, their players, the
    matches they played and the statistics of those players or matches. *)
Definition without_teams (hit : row -> bool) (dv ts ps ms ss : list row) : Db :=
  let gone_ts := List.filter hit ts in
  let gone_ps := List.filter (player_of gone_ts) ps in
  let gone_ms := List.filter (played_by gone_ts) ms in
  netball_db dv
             (without hit ts)
             (without (player_of gone_ts) ps)
             (without (played_by gone_ts) ms)
             (without (stat_of gone_ps gone_ms) ss).

(** ... without the players that [hit] selects and their statistics. *)
Definition without_players (hit : row -> bool) (dv ts ps ms ss : list row) : Db :=
  netball_db dv ts (without hit ps) ms (without (ref_player (List.filter hit ps)) ss).

(** ... without the matches that [hit] selects and their statistics. *)
Definition without_matches (hit : row -> bool) (dv ts ps ms ss : list row) : Db :=
  netball_db dv ts ps (without hit ms) (without (ref_match (List.filter hit ms)) ss).

(** The database without the divisions that [hit] selects and all that
    goes with them. *)
Definition without_divisions (hit : row -> bool) (dv ts ps ms ss : list row) : Db :=
  let gone_dv := List.filter hit dv in
  let gone_ts := List.filter (team_of gone_dv) ts in
  let gone_ps := List.filter (player_of gone_ts) ps in
  let gone_ms := List.filter (match_of gone_dv gone_ts) ms in
  netball_db (without hit dv)
             (without (team_of gone_dv) ts)
             (without (player_of gone_ts) ps)
             (without (match_of gone_dv gone_ts) ms)
             (without (stat_of gone_ps gone_ms) ss).

(** ** Referential integrity *)

(** Referential integrity: no row of [db] has a foreign key without a
    parent row. *)
Definition consistent (db : Db) : Prop :=
  forall tb r, In tb db -> In r (trows tb) -> fk_violated db (tdef tb) r = false.

Definition consistentb (db : Db) : bool :=
  forallb (fun tb => forallb (fun r => negb (fk_violated db (tdef tb) r)) (trows tb)) db.

(** [v] is NULL or the id of one of the rows [parents] of table [td]. *)
Definition has_parent (v : value) (td : table_def) (parents : list row) : bool :=
  is_null v || existsb (fun p => same_key (col_of td "id" p) v) parents.

(** ** Rows that only come and go; the declared constraints *)

(** [db'] has the tables of [db], each with a selection of the rows it had,
    in their order. *)
Definition shrinks (db db' : Db) : Prop :=
  Forall2 (fun tb tb' =>
             tdef tb = tdef tb' /\ exists keep, trows tb' = List.filter keep (trows tb))
          db db'.

(** Every row of the table satisfies its NOT NULL and CHECK constraints and
    has neither the primary key nor the UNIQUE columns of a row stored
    before it. *)
Definition lawful (tb : table) : Prop :=
  forall before r after,
    trows tb = before ++ r :: after ->
    ~ not_null_violated (tdef tb) r /\
    ~ check_violated (tdef tb) r /\
    ~ key_taken (tdef tb) before r /\
    ~ unique_taken (tdef tb) before r.

Definition lawful_db (db : Db) : Prop := forall tb, In tb db -> lawful tb.

Fixpoint lawful_rows (td : table_def) (before rows : list row) : bool :=
  match rows with
  | [] => true
  | r :: rest =>
      match local_violation td before r with
      | None => lawful_rows td (before ++ [r]) rest
      | Some _ => false
      end
  end.

Definition lawfulb (db : Db) : bool :=
  forallb (fun tb => lawful_rows (tdef tb) [] (trows tb)) db.

(* ================================================================== *)
(** * The data-access layer *)
(* ================================================================== *)
(** ** Names *)

Lemma same_letter_refl c : same_letter c c = true.
Proof. apply Ascii.eqb_refl. Qed.

Lemma same_letter_sym c d : same_letter c d = same_letter d c.
Proof. apply Ascii.eqb_sym. Qed.

Lemma same_letter_trans c d e :
  same_letter c d = true -> same_letter d e = true -> same_letter c e = true.
Proof.
  unfold same_letter. intros H K. apply Ascii.eqb_eq in H, K. apply Ascii.eqb_eq. congruence.
Qed.

Lemma same_name_refl a : same_name a a = true.
Proof. induction a as [|c a IH]; cbn; [reflexivity|]. rewrite same_letter_refl. exact IH. Qed.

Lemma same_name_sym a : forall b, same_name a b = same_name b a.
Proof.
  induction a as [|c a IH]; intros [|d b]; cbn; try reflexivity.
  rewrite same_letter_sym, IH. reflexivity.
Qed.

Lemma same_name_trans a : forall b c,
  same_name a b = true -> same_name b c = true -> same_name a c = true.
Proof.
  induction a as [|x a IH]; intros [|y b] [|z c]; cbn; try discriminate; auto.
  intros H K. apply andb_true_iff in H, K. destruct H as [H1 H2], K as [K1 K2].
  rewrite (same_letter_trans _ _ _ H1 K1), (IH _ _ H2 K2). reflexivity.
Qed.

(** Two spellings of a name find the same table. *)
Lemma same_name_ext a b c : same_name a b = true -> same_name c a = same_name c b.
Proof.
  intros H. destruct (same_name c a) eqn:A.
  - symmetry. exact (same_name_trans _ _ _ A H).
  - destruct (same_name c b) eqn:B; [|reflexivity].
    rewrite same_name_sym in H. rewrite (same_name_trans _ _ _ B H) in A. discriminate.
Qed.

Lemma named_same a b tb : same_name a b = true -> named a tb = named b tb.
Proof. intros H. unfold named. apply same_name_ext, H. Qed.

Lemma find_table_same db a b : same_name a b = true -> find_table db a = find_table db b.
Proof.
  intros H. unfold find_table. induction db as [|tb db IH]; cbn [find]; [reflexivity|].
  rewrite (named_same _ _ tb H), IH. reflexivity.
Qed.

Lemma set_rows_same_name db a b rs : same_name a b = true -> set_rows db a rs = set_rows db b rs.
Proof.
  intros H. induction db as [|tb db IH]; cbn [set_rows]; [reflexivity|].
  rewrite (named_same _ _ tb H), IH. reflexivity.
Qed.

Lemma remove_table_same db a b : same_name a b = true -> remove_table db a = remove_table db b.
Proof.
  intros H. induction db as [|tb db IH]; cbn [remove_table]; [reflexivity|].
  rewrite (named_same _ _ tb H), IH. reflexivity.
Qed.

Lemma referencing_same db a b : same_name a b = true -> referencing db a = referencing db b.
Proof.
  intros H. unfold referencing. apply flat_map_ext. intros tb. f_equal.
  apply List.filter_ext. intros f. apply same_name_ext, H.
Qed.

Lemma find_table_named db n tb :
  find_table db n = Some tb -> same_name (tname (tdef tb)) n = true.
Proof.
  unfold find_table. intros F. apply find_some in F. destruct F as [_ N]. exact N.
Qed.

Lemma set_rows_named db n tb rs :
  find_table db n = Some tb -> set_rows db (tname (tdef tb)) rs = set_rows db n rs.
Proof. intros F. apply set_rows_same_name, (find_table_named _ _ _ F). Qed.

Lemma find_table_own db n tb :
  find_table db n = Some tb -> find_table db (tname (tdef tb)) = Some tb.
Proof.
  intros F. rewrite (find_table_same _ _ _ (find_table_named _ _ _ F)). exact F.
Qed.

Lemma find_table_in db n tb : find_table db n = Some tb -> In tb db.
Proof. unfold find_table. intros F. apply find_some in F. apply F. Qed.





(** ** The errors of the engine *)

Lemma cascade_error depth : forall db parent pcols gone e,
  cascade depth db parent pcols gone = inl e -> e = OperationalError TriggerDepth.
Proof.
  induction depth as [|d IH]; intros db parent pcols gone e.
  - destruct gone; simpl; congruence.
  - destruct gone as [|g gone]; simpl; [congruence|].
    generalize (referencing db parent). intros refs.
    assert (G : forall (acc : error + Db),
              (forall e', acc = inl e' -> e' = OperationalError TriggerDepth) ->
              fold_left (cascade_through (cascade d) pcols (g :: gone)) refs acc = inl e ->
              e = OperationalError TriggerDepth).
    { induction refs as [|cf refs IHr]; intros acc Hacc; simpl.
      - intros H. apply Hacc, H.
      - apply IHr. intros e'. unfold cascade_through. destruct acc as [e0|db1].
        + apply Hacc.
        + destruct (find_table db1 (fst cf)); [apply IH | discriminate]. }
    apply G. discriminate.
Qed.

Lemma delete_rows_error fk db tb gone kept e :
  delete_rows fk db tb gone kept = inl e -> e = OperationalError TriggerDepth.
Proof.
  unfold delete_rows. destruct fk; [apply cascade_error | discriminate].
Qed.

Lemma assign_rowid_error td rows r e :
  assign_rowid td rows r = inl e -> e = IntegrityError DatatypeMismatch.
Proof.
  unfold assign_rowid.
  destruct (tpk td); [|discriminate].
  destruct (field _ _ _); [destruct (index_of _ _)| |]; congruence.
Qed.

Lemma run_programming_error fk db q ps msg :
  run fk db q ps = inl (ProgrammingError msg) ->
  msg = "Incorrect number of bindings supplied".
Proof.
  unfold run, insert, done, wrong_bindings.
  intros H.
  repeat match type of H with
         | context [match ?x with _ => _ end] =>
             let E := fresh "E" in destruct x eqn:E; try discriminate H
         end;
  try (injection H; intros; subst; reflexivity);
  try (match goal with
       | E : delete_rows _ _ _ _ _ = inl _ |- _ =>
           apply delete_rows_error in E; congruence
       | E : assign_rowid _ _ _ = inl _ |- _ =>
           apply assign_rowid_error in E; congruence
       end).
Qed.

Lemma insert_error fk or_ignore db tb cols vals e :
  insert fk or_ignore db tb cols vals = inl e -> exists v, e = IntegrityError v.
Proof.
  unfold insert, done. intros H.
  destruct (assign_rowid _ _ _) as [e0|r] eqn:A.
  - apply assign_rowid_error in A. exists DatatypeMismatch. congruence.
  - destruct (local_violation _ _ r) as [v|].
    + destruct or_ignore; [discriminate|]. exists v. congruence.
    + destruct (fk && _); [|discriminate]. exists ForeignKey. congruence.
Qed.

(** An error found when the statement is compiled does not depend on the
    values bound. *)
Lemma run_static fk db s ps ps' e :
  run fk db s ps = inl e -> found_by_prepare e = true -> run fk db s ps' = inl e.
Proof.
  destruct s as [ine td|ife n|ign n cols vals|n w|p n w o|on|text]; simpl; try (intros H _; exact H).
  - destruct (find_table db n) as [tb|]; [|intros H _; exact H].
    destruct (missing_column _ cols); [intros H _; exact H|].
    destruct (negb (length vals =? length cols)%nat); [intros H _; exact H|].
    destruct (negb (forallb _ vals)); [intros H _; exact H|].
    destruct (if fk then parent_missing db (tdef tb) else None); [intros H _; exact H|].
    destruct (negb (length ps =? _)%nat).
    + intros [= <-]. discriminate.
    + intros H F. apply insert_error in H. destruct H as [v ->]. discriminate.
  - destruct (find_table db n) as [tb|]; [|intros H _; exact H].
    destruct (negb (where_ok _ w)); [intros H _; exact H|].
    destruct (if fk then parent_missing db (tdef tb) else None); [intros H _; exact H|].
    destruct (negb (length ps =? _)%nat).
    + intros [= <-]. discriminate.
    + destruct (delete_rows _ _ _ _ _) as [e0|db'] eqn:D; [|discriminate].
      apply delete_rows_error in D. intros [= <-]. subst e0. discriminate.
  - destruct (relation db n) as [[rcols rows]|]; [|intros H _; exact H].
    destruct (missing_column _ _); [intros H _; exact H|].
    destruct (negb (where_ok _ w)); [intros H _; exact H|].
    destruct (negb (length ps =? _)%nat); [|discriminate].
    intros [= <-]. discriminate.
Qed.

Lemma prepare_run fk db s ps e :
  prepare fk db s = Some e -> run fk db s ps = inl e.
Proof.
  unfold prepare. destruct (run fk db s (repeat VNull (arity s))) as [e0|] eqn:R; [|discriminate].
  destruct (found_by_prepare e0) eqn:F; [|discriminate].
  intros [= <-]. exact (run_static _ _ _ _ _ _ R F).
Qed.

Lemma prepare_found fk db s e :
  prepare fk db s = Some e -> found_by_prepare e = true.
Proof.
  unfold prepare. destruct (run _ _ _ _) as [e0|]; [|discriminate].
  destruct (found_by_prepare e0) eqn:F; [|discriminate]. intros [= <-]. exact F.
Qed.

Lemma run_prepare fk db s ps e :
  run fk db s ps = inl e -> found_by_prepare e = true -> prepare fk db s = Some e.
Proof.
  intros R F. unfold prepare.
  rewrite (run_static _ _ _ _ (repeat VNull (arity s)) _ R F), F. reflexivity.
Qed.

Lemma prepare_none_run fk db s ps e :
  prepare fk db s = None -> run fk db s ps = inl e -> found_by_prepare e = false.
Proof.
  intros P R. destruct (found_by_prepare e) eqn:F; [|reflexivity].
  rewrite (run_prepare _ _ _ _ _ R F) in P. discriminate.
Qed.

(** ** Binding *)

Lemma bind_parameters_bindable s ps :
  bind_parameters s ps = None <-> bindable s ps = true.
Proof.
  unfold bind_parameters, bindable.
  destruct (length ps =? arity s)%nat; simpl; [|split; discriminate].
  destruct (forallb fits ps); simpl; split; congruence.
Qed.

(** With values that can be bound, the call answers what the engine
    does. *)
Lemma answer_run fk db s ps :
  bindable s ps = true -> answer fk db s ps = lift (run fk db s ps).
Proof.
  intros B. unfold answer. destruct (prepare fk db s) as [e|] eqn:P.
  - rewrite (prepare_run _ _ _ ps _ P). reflexivity.
  - apply bind_parameters_bindable in B. rewrite B. reflexivity.
Qed.

Lemma answer_inr fk db s ps out :
  answer fk db s ps = inr out -> run fk db s ps = inr out /\ bindable s ps = true.
Proof.
  unfold answer. destruct (prepare fk db s); [discriminate|].
  destruct (bind_parameters s ps) eqn:B; [discriminate|].
  apply bind_parameters_bindable in B.
  destruct (run fk db s ps); [discriminate|]. intros [= <-]. auto.
Qed.

(** Whatever the values, a statement that fails with them bound fails to
    be run without them: the answer is an outcome only if the engine's
    is. *)
Lemma answer_inl_run fk db s ps e :
  run fk db s ps = inl e -> exists x, answer fk db s ps = inl x.
Proof.
  intros R. unfold answer. destruct (prepare fk db s); [eauto|].
  destruct (bind_parameters s ps); [eauto|]. rewrite R. cbn. eauto.
Qed.


Lemma answer_wrong_count fk db s ps :
  length ps <> arity s -> exists e, answer fk db s ps = inl (sqlite3_Error e).
Proof.
  intros N. unfold answer, bind_parameters. destruct (prepare fk db s); [eauto|].
  destruct (Nat.eqb_spec (length ps) (arity s)); [contradiction|]. cbn. eauto.
Qed.


Lemma answer_prepare fk db s ps e :
  prepare fk db s = Some e -> answer fk db s ps = inl (sqlite3_Error e).
Proof. intros P. unfold answer. rewrite P. reflexivity. Qed.

Lemma answer_not_closed fk db s ps : answer fk db s ps <> inl closed_database.
Proof.
  unfold answer, bind_parameters, closed_database.
  destruct (prepare fk db s) as [e|] eqn:P.
  - intros [= ->]. apply (prepare_run _ _ _ []) in P.
    apply run_programming_error in P. discriminate.
  - destruct (negb (length ps =? arity s)%nat); [discriminate|].
    destruct (negb (forallb fits ps)); [discriminate|].
    destruct (run fk db s ps) as [e|] eqn:R; [|discriminate].
    intros [= ->]. apply run_programming_error in R. discriminate.
Qed.


(** ** What each method does to the state *)

Lemma connect_connected st h :
  connection (self st) = Some h -> connect st = (Return h, st).
Proof.
  intros H. unfold connect, bind, get_self. rewrite H. reflexivity.
Qed.

Ltac gmap_simpl :=
  repeat (first [rewrite lookup_insert_eq | rewrite insert_insert_eq
                | rewrite lookup_singleton_eq | rewrite insert_singleton_eq
                | rewrite delete_singleton_eq | rewrite lookup_empty ]; simpl).

Lemma connect_fresh st :
  connection (self st) = None -> conns (world st) = ∅ ->
  connect st =
    (Return (next_handle (world st)),
     state_with st (disk (world st)) (next_handle (world st)) fresh_conn
       (S (next_handle (world st))) [(PragmaForeignKeys true, [])]).
Proof.
  intros H E. destruct st as [[db cs n tr] [name conn]]. simpl in *. subst.
  unfold connect, bind, get_self, engine, set_connection, sqlite3_connect,
    conn_execute, conn_cursor, cursor_execute, set_row_factory, bind, ret. simpl.
  repeat (first [rewrite lookup_insert_eq | rewrite insert_insert_eq]; simpl).
  unfold settle, with_conn, with_disk, logged, visible. simpl.
  repeat (first [rewrite lookup_insert_eq | rewrite insert_insert_eq]; simpl).
  reflexivity.
Qed.

Lemma visible_begun w c q ps :
  visible (logged w q ps) (begun c (disk w) q) = visible w c.
Proof.
  unfold begun, visible, in_transaction. destruct c as [fk rf [p|]]; simpl.
  - rewrite andb_false_r. reflexivity.
  - destruct (is_dml q); reflexivity.
Qed.

Lemma foreign_keys_begun c db q : foreign_keys (begun c db q) = foreign_keys c.
Proof. unfold begun. destruct (_ && _); reflexivity. Qed.

Lemma cursor_execute_connected q ps st h c f :
  connection (self st) = Some h -> conns (world st) = {[h := c]} ->
  engine (cursor_execute {| cur_conn := h; cur_factory := f; rowcount := -1; cur_rows := [] |} q ps) st =
    match prepare (foreign_keys c) (visible (world st) c) q with
    | Some e => (Raise (sqlite3_Error e), refused st q ps)
    | None =>
        match answer (foreign_keys c) (visible (world st) c) q ps with
        | inl e => (Raise e, fetched st h c q ps None)
        | inr out =>
            (Return {| cur_conn := h; cur_factory := f; rowcount := out_rowcount out;
                       cur_rows := map (make_row f (out_columns out)) (out_rows out) |},
             fetched st h c q ps (Some out))
        end
    end.
Proof.
  intros H E. unfold engine, cursor_execute, answer. simpl. rewrite E. gmap_simpl.
  change (visible (logged (world st) q ps) c) with (visible (world st) c).
  destruct (prepare _ _ q) as [e|]; [reflexivity|].
  fold (begun c (disk (world st)) q).
  rewrite visible_begun, foreign_keys_begun.
  destruct (bind_parameters q ps); [reflexivity|].
  destruct (run _ _ q ps); reflexivity.
Qed.

(** The connection after [execute_query] has raised [e]: rolled back when
    [e] is a [sqlite3.Error]; otherwise as the failed call left it. *)
Lemma execute_query_connected q params st h c :
  connection (self st) = Some h -> conns (world st) = {[h := c]} ->
  execute_query q params st =
    match answer (foreign_keys c) (visible (world st) c) q (bound params) with
    | inl e =>
        (Raise e,
         state_with st (disk (world st)) h
           (if is_sqlite3_Error e then idle c (foreign_keys c)
            else begun c (disk (world st)) q)
           (next_handle (world st)) [(q, bound params)])
    | inr out =>
        (Return (out_rowcount out),
         state_with st (out_db out) h (idle c (fk_after c q))
           (next_handle (world st)) [(q, bound params)])
    end.
Proof.
  intros H E. destruct st as [[db cs n tr] [name conn]]. simpl in *. subst.
  unfold execute_query, bound.
  unfold bind at 1. rewrite (connect_connected _ h) by reflexivity.
  unfold bind at 1. unfold engine at 1, conn_cursor. simpl. gmap_simpl.
  unfold try_finally, try_except, cursor_close, ret.
  set (st := {| world := {| disk := db; conns := {[h := c]}; next_handle := n; trace := tr |};
                self := {| db_name := name; connection := Some h |} |}).
  assert (X : forall ps,
    (cursor <- engine (cursor_execute {| cur_conn := h; cur_factory := row_factory c; rowcount := -1; cur_rows := [] |} q ps);;
     engine (conn_commit h);; (fun s => (Return (rowcount cursor), s)))%py st =
    match prepare (foreign_keys c) (visible (world st) c) q with
    | Some e => (Raise (sqlite3_Error e), refused st q ps)
    | None =>
        match answer (foreign_keys c) (visible (world st) c) q ps with
        | inl e => (Raise e, fetched st h c q ps None)
        | inr out =>
            (Return (out_rowcount out),
             state_with st (out_db out) h (idle c (fk_after c q)) n [(q, ps)])
        end
    end).
  { intros ps. unfold bind at 1.
    rewrite (cursor_execute_connected _ _ _ h c) by reflexivity.
    destruct (prepare _ _ q); [reflexivity|].
    destruct (answer _ _ q ps) as [e|out]; [reflexivity|].
    unfold bind, engine, conn_commit, fetched, settle, with_conn, with_disk, logged,
      begun, visible, state_with, idle, in_transaction; simpl.
    destruct c as [fk rf [p|]]; simpl.
    - rewrite andb_false_r. simpl. gmap_simpl. destruct q; reflexivity.
    - rewrite andb_true_r. destruct (is_dml q) eqn:D; simpl; gmap_simpl;
        destruct q; try discriminate D; reflexivity. }
  assert (Y : forall ps,
    match
      match
        (cursor <- engine (cursor_execute {| cur_conn := h; cur_factory := row_factory c; rowcount := -1; cur_rows := [] |} q ps);;
         engine (conn_commit h);; (fun s => (Return (rowcount cursor), s)))%py st
      with
      | (Raise e, s') =>
          if is_sqlite3_Error e then (engine (conn_rollback h);; raise e)%py s' else (Raise e, s')
      | ok => ok
      end
    with
    | (r, s') => (r, s')
    end =
    match answer (foreign_keys c) (visible (world st) c) q ps with
    | inl e =>
        (Raise e,
         state_with st db h
           (if is_sqlite3_Error e then idle c (foreign_keys c) else begun c db q)
           n [(q, ps)])
    | inr out =>
        (Return (out_rowcount out),
         state_with st (out_db out) h (idle c (fk_after c q)) n [(q, ps)])
    end).
  { intros ps. rewrite X. destruct (prepare _ _ q) as [e|] eqn:P.
    - rewrite (answer_prepare _ _ _ ps _ P). simpl.
      unfold engine, conn_rollback, bind, raise, refused, logged, with_conn, state_with,
        idle; simpl. gmap_simpl. reflexivity.
    - destruct (answer _ _ q ps) as [e|out]; [|reflexivity].
      destruct e; simpl; try reflexivity.
      + unfold engine, conn_rollback, bind, raise, fetched, with_conn, logged,
          state_with, idle, begun; simpl. gmap_simpl.
        destruct (is_dml q && negb (in_transaction c)); reflexivity.
      + unfold fetched, with_conn, logged, state_with; simpl. gmap_simpl. reflexivity.
      + unfold fetched, with_conn, logged, state_with; simpl. gmap_simpl. reflexivity.
      + unfold fetched, with_conn, logged, state_with; simpl. gmap_simpl. reflexivity. }
  destruct (truthy params); apply Y.
Qed.

Lemma fetch_all_connected q params st h c :
  connection (self st) = Some h -> conns (world st) = {[h := c]} ->
  fetch_all q params st =
    match prepare (foreign_keys c) (visible (world st) c) q with
    | Some e => (Raise (sqlite3_Error e), refused st q (bound params))
    | None =>
        match answer (foreign_keys c) (visible (world st) c) q (bound params) with
        | inl e => (Raise e, fetched st h c q (bound params) None)
        | inr out => (Return (rows_of c out), fetched st h c q (bound params) (Some out))
        end
    end.
Proof.
  intros H E. unfold fetch_all, bound.
  unfold bind at 1. rewrite (connect_connected _ h) by assumption.
  unfold bind at 1. unfold engine at 1, conn_cursor. rewrite E. gmap_simpl.
  replace {| world := world st; self := self st |} with st by (destruct st; reflexivity).
  unfold try_finally, try_except, cursor_close, ret, bind, fetchall.
  destruct (truthy params);
    rewrite (cursor_execute_connected _ _ _ h c) by assumption;
    (destruct (prepare _ _ q); [reflexivity|]);
    (destruct (answer _ _ q _) as [e|out]; [destruct e|]); reflexivity.
Qed.

Lemma fetch_one_connected q params st h c :
  connection (self st) = Some h -> conns (world st) = {[h := c]} ->
  fetch_one q params st =
    match prepare (foreign_keys c) (visible (world st) c) q with
    | Some e => (Raise (sqlite3_Error e), refused st q (bound params))
    | None =>
        match answer (foreign_keys c) (visible (world st) c) q (bound params) with
        | inl e => (Raise e, fetched st h c q (bound params) None)
        | inr out =>
            (Return (head (rows_of c out)), fetched st h c q (bound params) (Some out))
        end
    end.
Proof.
  intros H E. unfold fetch_one, bound.
  unfold bind at 1. rewrite (connect_connected _ h) by assumption.
  unfold bind at 1. unfold engine at 1, conn_cursor. rewrite E. gmap_simpl.
  replace {| world := world st; self := self st |} with st by (destruct st; reflexivity).
  unfold try_finally, try_except, cursor_close, ret, bind, fetchone.
  destruct (truthy params);
    rewrite (cursor_execute_connected _ _ _ h c) by assumption;
    (destruct (prepare _ _ q); [reflexivity|]);
    (destruct (answer _ _ q _) as [e|out]; [destruct e|]); reflexivity.
Qed.

Lemma fetch_all_connected_fst q params st h c :
  connection (self st) = Some h -> conns (world st) = {[h := c]} ->
  fst (fetch_all q params st) =
    match answer (foreign_keys c) (visible (world st) c) q (bound params) with
    | inl e => Raise e
    | inr out => Return (rows_of c out)
    end.
Proof.
  intros H E. rewrite (fetch_all_connected _ _ _ h c H E).
  destruct (prepare _ _ q) as [e|] eqn:P.
  - rewrite (answer_prepare _ _ _ _ _ P). reflexivity.
  - destruct (answer _ _ q _); reflexivity.
Qed.

Lemma fetch_one_connected_fst q params st h c :
  connection (self st) = Some h -> conns (world st) = {[h := c]} ->
  fst (fetch_one q params st) =
    match answer (foreign_keys c) (visible (world st) c) q (bound params) with
    | inl e => Raise e
    | inr out => Return (head (rows_of c out))
    end.
Proof.
  intros H E. rewrite (fetch_one_connected _ _ _ h c H E).
  destruct (prepare _ _ q) as [e|] eqn:P.
  - rewrite (answer_prepare _ _ _ _ _ P). reflexivity.
  - destruct (answer _ _ q _); reflexivity.
Qed.

Lemma inv_opened st :
  manager_inv st ->
  exists h c,
    connect st = (Return h, opened st) /\
    connection (self (opened st)) = Some h /\
    conns (world (opened st)) = {[h := c]} /\
    row_factory c = sqlite3_Row /\
    (h < next_handle (world (opened st)))%nat /\
    visible (world (opened st)) c = seen st /\
    foreign_keys c = enforcing st /\
    disk (world (opened st)) = disk (world st) /\
    db_name (self (opened st)) = db_name (self st) /\
    trace (world (opened st)) = (trace (world st) ++ connect_log st)%list /\
    (connection (self st) = None -> h = next_handle (world st) /\ c = fresh_conn) /\
    (connection (self st) <> None -> opened st = st).
Proof.
  unfold manager_inv, opened, seen, enforcing, current, connect_log.
  destruct (connection (self st)) as [h|] eqn:C.
  - intros [L [c [E F]]]. exists h, c.
    rewrite (connect_connected _ _ C). simpl. rewrite C, E. gmap_simpl.
    rewrite app_nil_r. repeat split; auto; intros; discriminate.
  - intros E. exists (next_handle (world st)), fresh_conn.
    rewrite (connect_fresh _ C E). simpl. repeat split; auto; intros; congruence.
Qed.

Lemma bind_connect_opened {A} (k : handle -> M State A) st :
  manager_inv st -> bind connect k st = bind connect k (opened st).
Proof.
  intros W. destruct (inv_opened st W) as (h & c & E & C & _).
  unfold bind. rewrite E. rewrite (connect_connected _ _ C). reflexivity.
Qed.

Lemma bind_opened {A B} (m : M State A) (k : A -> M State B) st :
  m st = m (opened st) -> bind m k st = bind m k (opened st).
Proof. intros E. unfold bind. rewrite E. reflexivity. Qed.

Lemma execute_query_opened q params st :
  manager_inv st -> execute_query q params st = execute_query q params (opened st).
Proof. intros W. unfold execute_query. apply bind_connect_opened, W. Qed.

Lemma fetch_all_opened q params st :
  manager_inv st -> fetch_all q params st = fetch_all q params (opened st).
Proof. intros W. unfold fetch_all. apply bind_connect_opened, W. Qed.

Lemma fetch_one_opened q params st :
  manager_inv st -> fetch_one q params st = fetch_one q params (opened st).
Proof. intros W. unfold fetch_one. apply bind_connect_opened, W. Qed.

(** What [execute_query] does, in one equation. *)
Lemma execute_query_answer q params st :
  manager_inv st ->
  exists h c,
    connection (self (opened st)) = Some h /\
    conns (world (opened st)) = {[h := c]} /\
    row_factory c = sqlite3_Row /\
    execute_query q params st =
      match answer (enforcing st) (seen st) q (bound params) with
      | inl e =>
          (Raise e,
           state_with (opened st) (disk (world st)) h
             (if is_sqlite3_Error e then idle c (enforcing st)
              else begun c (disk (world st)) q)
             (next_handle (world (opened st))) [(q, bound params)])
      | inr out =>
          (Return (out_rowcount out),
           state_with (opened st) (out_db out) h (idle c (fk_after c q))
             (next_handle (world (opened st))) [(q, bound params)])
      end.
Proof.
  intros W. destruct (inv_opened st W) as (h & c & E & C & M & F & L & V & K & D & _).
  exists h, c. repeat split; auto.
  rewrite (execute_query_opened _ _ _ W).
  rewrite (execute_query_connected _ _ _ h c C M). rewrite V, K, D. reflexivity.
Qed.

(** ... and when the values can be bound. *)
Lemma execute_query_run q params st :
  manager_inv st ->
  bindable q (bound params) = true ->
  exists h c,
    connection (self (opened st)) = Some h /\
    conns (world (opened st)) = {[h := c]} /\
    row_factory c = sqlite3_Row /\
    execute_query q params st =
      match run (enforcing st) (seen st) q (bound params) with
      | inl e =>
          (Raise (sqlite3_Error e),
           state_with (opened st) (disk (world st)) h (idle c (enforcing st))
             (next_handle (world (opened st))) [(q, bound params)])
      | inr out =>
          (Return (out_rowcount out),
           state_with (opened st) (out_db out) h (idle c (fk_after c q))
             (next_handle (world (opened st))) [(q, bound params)])
      end.
Proof.
  intros W B. destruct (execute_query_answer q params st W) as (h & c & C & M & F & E).
  exists h, c. repeat split; auto.
  rewrite E, (answer_run _ _ _ _ B). destruct (run _ _ q _); reflexivity.
Qed.

Lemma execute_query_fst q params st :
  manager_inv st ->
  fst (execute_query q params st) =
    match answer (enforcing st) (seen st) q (bound params) with
    | inl e => Raise e
    | inr out => Return (out_rowcount out)
    end.
Proof.
  intros W. destruct (execute_query_answer q params st W) as (h & c & _ & _ & _ & E).
  rewrite E. destruct (answer _ _ q _); reflexivity.
Qed.

(** A failed [execute_query] stores nothing. *)
Lemma execute_query_raise_keeps q params st e :
  manager_inv st -> fst (execute_query q params st) = Raise e ->
  disk (world (snd (execute_query q params st))) = disk (world st).
Proof.
  intros W. destruct (execute_query_answer q params st W) as (h & c & _ & _ & _ & E).
  rewrite E. destruct (answer _ _ q _); simpl; [reflexivity | discriminate].
Qed.

Lemma execute_query_state_with_answer q params st0 db h c next log :
  execute_query q params (state_with st0 db h c next log) =
    match answer (foreign_keys c) (view db c) q (bound params) with
    | inl e =>
        (Raise e,
         state_with st0 db h
           (if is_sqlite3_Error e then idle c (foreign_keys c) else begun c db q) next
           (log ++ [(q, bound params)])%list)
    | inr out =>
        (Return (out_rowcount out),
         state_with st0 (out_db out) h (idle c (fk_after c q)) next
           (log ++ [(q, bound params)])%list)
    end.
Proof.
  rewrite (execute_query_connected q params (state_with st0 db h c next log) h c eq_refl eq_refl).
  unfold state_with, visible, view; simpl.
  destruct (answer _ _ q _); rewrite <- app_assoc; reflexivity.
Qed.

Lemma execute_query_state_with q params st0 db h c next log :
  bindable q (bound params) = true ->
  execute_query q params (state_with st0 db h c next log) =
    match run (foreign_keys c) (view db c) q (bound params) with
    | inl e =>
        (Raise (sqlite3_Error e),
         state_with st0 db h (idle c (foreign_keys c)) next
           (log ++ [(q, bound params)])%list)
    | inr out =>
        (Return (out_rowcount out),
         state_with st0 (out_db out) h (idle c (fk_after c q)) next
           (log ++ [(q, bound params)])%list)
    end.
Proof.
  intros B. rewrite execute_query_state_with_answer, (answer_run _ _ _ _ B).
  destruct (run _ _ q _); reflexivity.
Qed.

Lemma fk_after_idle c fk q :
  is_pragma q = false -> fk_after (idle c fk) q = fk.
Proof. destruct q; simpl; congruence. Qed.

(** [execute_query] on a manager whose connection is open and has no
    transaction, for a statement other than PRAGMA whose values can be
    bound. *)
Lemma execute_query_idle q params st0 db h c fk next log :
  is_pragma q = false ->
  bindable q (bound params) = true ->
  execute_query q params (state_with st0 db h (idle c fk) next log) =
    match run fk db q (bound params) with
    | inl e =>
        (Raise (sqlite3_Error e),
         state_with st0 db h (idle c fk) next (log ++ [(q, bound params)])%list)
    | inr out =>
        (Return (out_rowcount out),
         state_with st0 (out_db out) h (idle c fk) next
           (log ++ [(q, bound params)])%list)
    end.
Proof.
  intros P B. rewrite execute_query_state_with by exact B. simpl.
  rewrite fk_after_idle by exact P. reflexivity.
Qed.

(** Any state of the invariant, once connected, is of that form, up to a
    transaction left open by a fetch. *)
Lemma opened_state_with st :
  manager_inv st ->
  exists h c,
    row_factory c = sqlite3_Row /\
    foreign_keys c = enforcing st /\
    view (disk (world st)) c = seen st /\
    opened st = state_with st (disk (world st)) h c (next_handle (world (opened st)))
                  (connect_log st).
Proof.
  intros W. destruct (inv_opened st W) as (h & c & _ & Co & Mo & Fo & _ & Vo & Ko & Do & No & To & _).
  exists h, c. repeat split; auto.
  - rewrite <- Vo. unfold view, visible. rewrite Do. reflexivity.
  - destruct (opened st) as [[db cs nx tr] [nm cn]]. simpl in *. subst.
    reflexivity.
Qed.

(** ** The invariant *)

Lemma inv_new_state name : manager_inv (new_state name).
Proof. reflexivity. Qed.

Lemma inv_state_with st db h c next log :
  (h < next)%nat -> row_factory c = sqlite3_Row -> manager_inv (state_with st db h c next log).
Proof. intros L F. split; [exact L | exists c; split; [reflexivity | exact F]]. Qed.

Lemma inv_connect st : manager_inv st -> manager_inv (opened st).
Proof.
  intros W. destruct (inv_opened st W) as (h & c & _ & C & M & F & L & _).
  unfold manager_inv. rewrite C. split; [exact L|]. exists c. auto.
Qed.

Lemma row_factory_begun c db q : row_factory (begun c db q) = row_factory c.
Proof. unfold begun. destruct (_ && _); reflexivity. Qed.

Lemma inv_execute_query q params st : manager_inv st -> manager_inv (snd (execute_query q params st)).
Proof.
  intros W. destruct (execute_query_answer q params st W) as (h & c & C & M & F & E).
  destruct (inv_opened st W) as (h' & c' & _ & C' & _ & _ & L & _).
  assert (h' = h) by congruence. subst h'.
  rewrite E. destruct (answer _ _ q _) as [e|out]; simpl; apply inv_state_with; auto.
  destruct (is_sqlite3_Error e); [exact F|]. rewrite row_factory_begun. exact F.
Qed.

Lemma fetched_shape st h c q ps o :
  conns (world st) = {[h := c]} ->
  exists c',
    conns (world (fetched st h c q ps o)) = {[h := c']} /\
    row_factory c' = row_factory c /\
    next_handle (world (fetched st h c q ps o)) = next_handle (world st) /\
    self (fetched st h c q ps o) = self st /\
    trace (world (fetched st h c q ps o)) = (trace (world st) ++ [(q, ps)])%list.
Proof.
  intros E. unfold fetched, settle, with_conn, with_disk, logged, begun.
  destruct o as [out|]; simpl.
  - destruct (pending (if is_dml q && negb (in_transaction c)
                       then set_pending c (Some (disk (world st))) else c)) eqn:P;
      simpl; rewrite E; gmap_simpl; eexists; (split; [reflexivity|]);
      simpl; destruct (is_dml q && negb (in_transaction c)); auto.
  - rewrite E. gmap_simpl. eexists; split; [reflexivity|].
    destruct (is_dml q && negb (in_transaction c)); auto.
Qed.

Lemma inv_fetched st h c q ps o :
  connection (self st) = Some h -> conns (world st) = {[h := c]} ->
  row_factory c = sqlite3_Row -> (h < next_handle (world st))%nat ->
  manager_inv (fetched st h c q ps o).
Proof.
  intros C E F L. destruct (fetched_shape st h c q ps o E) as (c' & E' & F' & N' & S' & _).
  unfold manager_inv. rewrite S', C, N'. split; [exact L|]. exists c'. split; congruence.
Qed.

Lemma inv_refused st q ps : manager_inv st -> manager_inv (refused st q ps).
Proof. intros W. exact W. Qed.

(** A fetch keeps the connection object, the handles and the manager. *)
Lemma fetch_all_shape q params st h c :
  connection (self st) = Some h -> conns (world st) = {[h := c]} ->
  exists c',
    conns (world (snd (fetch_all q params st))) = {[h := c']} /\
    row_factory c' = row_factory c /\
    (is_pragma q = false -> foreign_keys c' = foreign_keys c) /\
    next_handle (world (snd (fetch_all q params st))) = next_handle (world st) /\
    self (snd (fetch_all q params st)) = self st /\
    trace (world (snd (fetch_all q params st))) = (trace (world st) ++ [(q, bound params)])%list.
Proof.
  intros C E. rewrite (fetch_all_connected _ _ _ h c C E).
  assert (X : forall o, exists c',
    conns (world (fetched st h c q (bound params) o)) = {[h := c']} /\
    row_factory c' = row_factory c /\
    (is_pragma q = false -> foreign_keys c' = foreign_keys c) /\
    next_handle (world (fetched st h c q (bound params) o)) = next_handle (world st) /\
    self (fetched st h c q (bound params) o) = self st /\
    trace (world (fetched st h c q (bound params) o)) = (trace (world st) ++ [(q, bound params)])%list).
  { intros o. unfold fetched, settle, with_conn, with_disk, logged, begun.
    destruct o as [out|]; simpl.
    - destruct (pending (if is_dml q && negb (in_transaction c)
                         then set_pending c (Some (disk (world st))) else c)) eqn:P;
        simpl; rewrite E; gmap_simpl; eexists; (split; [reflexivity|]);
        simpl; destruct (is_dml q && negb (in_transaction c)); destruct q;
        repeat split; auto; discriminate.
    - rewrite E. gmap_simpl. eexists; split; [reflexivity|].
      destruct (is_dml q && negb (in_transaction c)); auto. }
  destruct (prepare _ _ q).
  - exists c. cbn [snd refused world self logged conns next_handle trace].
    repeat split; auto.
  - destruct (answer _ _ q _); cbn [snd]; apply X.
Qed.

Lemma fetch_one_all q params st h c :
  connection (self st) = Some h -> conns (world st) = {[h := c]} ->
  snd (fetch_one q params st) = snd (fetch_all q params st).
Proof.
  intros C E. rewrite (fetch_all_connected _ _ _ h c C E), (fetch_one_connected _ _ _ h c C E).
  destruct (prepare _ _ q); [reflexivity|]. destruct (answer _ _ q _); reflexivity.
Qed.

Lemma inv_fetch_all q params st : manager_inv st -> manager_inv (snd (fetch_all q params st)).
Proof.
  intros W. destruct (inv_opened st W) as (h & c & _ & C & M & F & L & _).
  rewrite (fetch_all_opened _ _ _ W), (fetch_all_connected _ _ _ h c C M).
  destruct (prepare _ _ q); [apply inv_refused, inv_connect, W|].
  destruct (answer _ _ q _); simpl; apply inv_fetched; auto.
Qed.

Lemma inv_fetch_one q params st : manager_inv st -> manager_inv (snd (fetch_one q params st)).
Proof.
  intros W. destruct (inv_opened st W) as (h & c & _ & C & M & F & L & _).
  rewrite (fetch_one_opened _ _ _ W), (fetch_one_connected _ _ _ h c C M).
  destruct (prepare _ _ q); [apply inv_refused, inv_connect, W|].
  destruct (answer _ _ q _); simpl; apply inv_fetched; auto.
Qed.

Lemma close_spec st :
  manager_inv st ->
  close st = (Return tt, closed st) /\
  connection (self (closed st)) = None /\
  conns (world (closed st)) = ∅ /\
  disk (world (closed st)) = disk (world st) /\
  next_handle (world (closed st)) = next_handle (world st) /\
  trace (world (closed st)) = trace (world st) /\
  db_name (self (closed st)) = db_name (self st).
Proof.
  unfold manager_inv, closed, close, bind, get_self, engine, conn_close, set_connection, ret.
  destruct st as [[db cs next tr] [name [h|]]]; simpl.
  - intros [L [c [E F]]]. subst cs. gmap_simpl. repeat split; reflexivity.
  - intros E. subst cs. repeat split; reflexivity.
Qed.

Lemma close_total st :
  close st = (Return tt, closed st) /\
  connection (self (closed st)) = None /\
  (forall h, connection (self st) = Some h -> conns (world (closed st)) !! h = None).
Proof.
  unfold closed, close, bind, get_self, engine, conn_close, set_connection, ret.
  destruct st as [[db cs next tr] [name [h|]]]; simpl.
  - repeat split. intros h' [= <-]. apply lookup_delete_eq.
  - repeat split. discriminate.
Qed.

Lemma inv_closed st : manager_inv st -> manager_inv (closed st).
Proof.
  intros W. destruct (close_spec st W) as (_ & C & E & _).
  unfold manager_inv. rewrite C. exact E.
Qed.

Lemma closed_closed st : manager_inv st -> closed (closed st) = closed st.
Proof.
  intros W. destruct (close_spec st W) as (_ & C & _).
  unfold closed at 1. unfold close, bind, get_self. rewrite C. reflexivity.
Qed.

Lemma iter_closed n st : manager_inv st -> Nat.iter (S n) closed st = closed st.
Proof.
  intros W. induction n as [|n IH]; [reflexivity|].
  change (Nat.iter (S (S n)) closed st) with (closed (Nat.iter (S n) closed st)).
  rewrite IH. apply closed_closed, W.
Qed.

Lemma rows_are_records c out :
  row_factory c = sqlite3_Row -> Forall is_record (rows_of c out).
Proof.
  intros F. unfold rows_of. rewrite F. apply List.Forall_forall. intros r H.
  apply in_map_iff in H. destruct H as (x & <- & _). exact I.
Qed.

(** ** Properties of the data-access layer *)



(** C9.  The empty tuple is as false as [None], so [execute_query],
    [fetch_all] and [fetch_one] do with [params = ()] exactly what they do
    without [params]: same result, same state, no value bound. *)
Theorem empty_params_same_as_no_params (query : stmt) (st : State) :
  truthy (Some []) = truthy None /\
  bound (Some []) = [] /\
  execute_query query (Some []) st = execute_query query None st /\
  fetch_all query (Some []) st = fetch_all query None st /\
  fetch_one query (Some []) st = fetch_one query None st.
Proof. repeat split; reflexivity. Qed.

(** C4.  [close] always returns and leaves the manager without a
    connection; closing again, any number of times, changes nothing more.
    After [close], [execute_query], [fetch_all] and [fetch_one] open a
    connection that was never used before, on the same file, and give what
    the engine answers there: they never fail for want of a connection. *)
Theorem close_idempotent_then_lazy_reconnect
    (st : State) (n : nat) (query : stmt) (params : option (list value)) :
  manager_inv st ->
  (* close succeeds, leaves no connection, and may be repeated *)
  close st = (Return tt, closed st) /\
  connection (self (closed st)) = None /\
  conns (world (closed st)) = ∅ /\
  close (closed st) = (Return tt, closed st) /\
  Nat.iter (S n) closed st = closed st /\
  (* a query after close runs on a new connection to the same file *)
  conns (world st) !! next_handle (world st) = None /\
  fst (execute_query query params (closed st)) =
    match answer true (disk (world st)) query (bound params) with
    | inl e => Raise e
    | inr out => Return (out_rowcount out)
    end /\
  fst (fetch_all query params (closed st)) =
    match answer true (disk (world st)) query (bound params) with
    | inl e => Raise e
    | inr out => Return (map (make_row sqlite3_Row (out_columns out)) (out_rows out))
    end /\
  fst (fetch_one query params (closed st)) =
    match answer true (disk (world st)) query (bound params) with
    | inl e => Raise e
    | inr out => Return (head (map (make_row sqlite3_Row (out_columns out)) (out_rows out)))
    end /\
  fst (execute_query query params (closed st)) <> Raise closed_database /\
  fst (fetch_all query params (closed st)) <> Raise closed_database /\
  fst (fetch_one query params (closed st)) <> Raise closed_database /\
  (forall st',
     st' = snd (execute_query query params (closed st)) \/
     st' = snd (fetch_all query params (closed st)) \/
     st' = snd (fetch_one query params (closed st)) ->
     connection (self st') = Some (next_handle (world st)) /\
     exists c, conns (world st') = {[next_handle (world st) := c]}) /\
  (* the answer is the engine's whenever the values can be bound *)
  (bindable query (bound params) = true ->
   answer true (disk (world st)) query (bound params) =
     match run true (disk (world st)) query (bound params) with
     | inl e => inl (sqlite3_Error e)
     | inr out => inr out
     end).
Proof.
  intros W.
  destruct (close_spec st W) as (E & C & M & D & N & _).
  pose proof (inv_closed st W) as W1.
  destruct (inv_opened (closed st) W1)
    as (h & c & _ & Co & Mo & Fo & Lo & Vo & Ko & Do & _ & _ & Fr & _).
  destruct (Fr C) as [-> ->]. clear Fr. rewrite N in *.
  assert (SE : seen (closed st) = disk (world st)).
  { unfold seen, current. rewrite C. exact D. }
  assert (R1 : fst (execute_query query params (closed st)) =
    match answer true (disk (world st)) query (bound params) with
    | inl e => Raise e
    | inr out => Return (out_rowcount out)
    end).
  { rewrite (execute_query_opened _ _ _ W1),
      (execute_query_connected _ _ _ _ _ Co Mo).
    cbn [visible fresh_conn pending foreign_keys]. rewrite Do, D.
    destruct (answer _ _ _ _); reflexivity. }
  assert (R2 : fst (fetch_all query params (closed st)) =
    match answer true (disk (world st)) query (bound params) with
    | inl e => Raise e
    | inr out => Return (map (make_row sqlite3_Row (out_columns out)) (out_rows out))
    end).
  { rewrite (fetch_all_opened _ _ _ W1), (fetch_all_connected_fst _ _ _ _ _ Co Mo).
    cbn [visible fresh_conn pending foreign_keys]. rewrite Do, D.
    destruct (answer _ _ _ _); reflexivity. }
  assert (R3 : fst (fetch_one query params (closed st)) =
    match answer true (disk (world st)) query (bound params) with
    | inl e => Raise e
    | inr out => Return (head (map (make_row sqlite3_Row (out_columns out)) (out_rows out)))
    end).
  { rewrite (fetch_one_opened _ _ _ W1), (fetch_one_connected_fst _ _ _ _ _ Co Mo).
    cbn [visible fresh_conn pending foreign_keys]. rewrite Do, D.
    destruct (answer _ _ _ _); reflexivity. }
  repeat match goal with |- _ /\ _ => split end; auto.
  - destruct (close_spec (closed st) W1) as (E2 & _).
    rewrite E2, (closed_closed st W). reflexivity.
  - apply iter_closed, W.
  - unfold manager_inv in W. destruct (connection (self st)) as [h0|].
    + destruct W as [L [c0 [-> _]]]. apply lookup_singleton_ne. lia.
    + rewrite W. apply lookup_empty.
  - rewrite R1. destruct (answer _ _ _ _) eqn:R; [|discriminate].
    intros H. injection H as ->. exact (answer_not_closed _ _ _ _ R).
  - rewrite R2. destruct (answer _ _ _ _) eqn:R; [|discriminate].
    intros H. injection H as ->. exact (answer_not_closed _ _ _ _ R).
  - rewrite R3. destruct (answer _ _ _ _) eqn:R; [|discriminate].
    intros H. injection H as ->. exact (answer_not_closed _ _ _ _ R).
  - clear R1 R2 R3. intros st' [->|[->| ->]].
    + rewrite (execute_query_opened _ _ _ W1),
        (execute_query_connected _ _ _ _ _ Co Mo).
      destruct (answer _ _ _ _); simpl; (split; [reflexivity | eexists; reflexivity]).
    + rewrite (fetch_all_opened _ _ _ W1).
      destruct (fetch_all_shape query params _ _ _ Co Mo)
        as (c' & E' & _ & _ & _ & S' & _). rewrite S', Co. eauto.
    + rewrite (fetch_one_opened _ _ _ W1), (fetch_one_all _ _ _ _ _ Co Mo).
      destruct (fetch_all_shape query params _ _ _ Co Mo)
        as (c' & E' & _ & _ & _ & S' & _). rewrite S', Co. eauto.
  - intros B. rewrite (answer_run _ _ _ _ B). destruct (run _ _ query _); reflexivity.
Qed.

Lemma close_idempotent_then_lazy_reconnect_witness :
  manager_inv sample_state /\
  close sample_state = (Return tt, closed sample_state) /\
  connection (self (closed sample_state)) = None /\
  conns (world (closed sample_state)) = ∅ /\
  close (closed sample_state) = (Return tt, closed sample_state) /\
  Nat.iter 3 closed sample_state = closed sample_state.
Proof.
  assert (W : manager_inv sample_state).
  { vm_compute. split; [constructor | eexists; split; reflexivity]. }
  split; [exact W|].
  destruct (close_idempotent_then_lazy_reconnect sample_state 2 (Malformed "") None W)
    as (A & B & C & D & E & _).
  exact (conj A (conj B (conj C (conj D E)))).
Defined.

(** C5.  At most one connection is open, the manager's.  Every operation
    keeps it so.  While a connection is open, [connect] returns it and
    [execute_query], [fetch_all] and [fetch_one] use it without opening
    another.  The connection that [connect] creates has foreign keys
    enabled and the [sqlite3.Row] factory, and the rows that the fetches
    return are records. *)
Theorem one_lazily_created_connection
    (st : State) (query : stmt) (params : option (list value)) :
  manager_inv st ->
  (size (conns (world st)) <= 1)%nat /\
  manager_inv (snd (connect st)) /\
  manager_inv (snd (execute_query query params st)) /\
  manager_inv (snd (fetch_all query params st)) /\
  manager_inv (snd (fetch_one query params st)) /\
  manager_inv (snd (close st)) /\
  (forall h, connection (self st) = Some h ->
     connect st = (Return h, st) /\
     forall st',
       st' = snd (execute_query query params st) \/
       st' = snd (fetch_all query params st) \/
       st' = snd (fetch_one query params st) ->
       connection (self st') = Some h /\
       next_handle (world st') = next_handle (world st) /\
       exists c, conns (world st') = {[h := c]}) /\
  (connection (self st) = None ->
     connect st = (Return (next_handle (world st)), opened st) /\
     connection (self (opened st)) = Some (next_handle (world st)) /\
     conns (world (opened st)) =
       {[next_handle (world st) :=
           {| foreign_keys := true; row_factory := sqlite3_Row; pending := None |}]}) /\
  (forall rows, fst (fetch_all query params st) = Return rows -> Forall is_record rows) /\
  (forall r, fst (fetch_one query params st) = Return (Some r) -> is_record r).
Proof.
  intros W.
  destruct (inv_opened st W) as (h & c & E & Co & Mo & Fo & Lo & _ & _ & _ & _ & _ & Fr & Re).
  repeat match goal with |- _ /\ _ => split end.
  - unfold manager_inv in W. destruct (connection (self st)).
    + destruct W as [_ [c0 [-> _]]]. rewrite map_size_singleton. lia.
    + rewrite W, map_size_empty. lia.
  - apply inv_connect, W.
  - apply inv_execute_query, W.
  - apply inv_fetch_all, W.
  - apply inv_fetch_one, W.
  - apply inv_closed, W.
  - intros h0 C0. split; [apply connect_connected, C0|].
    assert (O : opened st = st) by (apply Re; congruence).
    rewrite O in *. assert (h0 = h) by congruence. subst h0.
    intros st' [->|[->| ->]].
    + rewrite (execute_query_connected _ _ _ _ _ Co Mo).
      destruct (answer _ _ _ _); simpl; repeat split; eauto.
    + destruct (fetch_all_shape query params st h c Co Mo)
        as (c' & E' & _ & _ & N' & S' & _). rewrite S', Co, N'. eauto.
    + rewrite (fetch_one_all _ _ _ _ _ Co Mo).
      destruct (fetch_all_shape query params st h c Co Mo)
        as (c' & E' & _ & _ & N' & S' & _). rewrite S', Co, N'. eauto.
  - intros C0. destruct (Fr C0) as [-> ->]. auto.
  - intros rows. rewrite (fetch_all_opened _ _ _ W), (fetch_all_connected_fst _ _ _ _ _ Co Mo).
    destruct (answer _ _ _ _); [discriminate|]. intros [= <-].
    apply rows_are_records, Fo.
  - intros r. rewrite (fetch_one_opened _ _ _ W), (fetch_one_connected_fst _ _ _ _ _ Co Mo).
    destruct (answer _ _ _ _) as [e|out]; [discriminate|]. intros [= H].
    pose proof (rows_are_records c out Fo) as R.
    destruct (rows_of c out) as [|r0 rs]; [discriminate|].
    injection H as <-. inversion R; assumption.
Qed.

Lemma one_lazily_created_connection_witness :
  manager_inv (new_state "netball_stats.db") /\
  connect (new_state "netball_stats.db") =
    (Return (next_handle (world (new_state "netball_stats.db"))),
     opened (new_state "netball_stats.db")) /\
  connection (self (opened (new_state "netball_stats.db"))) =
    Some (next_handle (world (new_state "netball_stats.db"))) /\
  conns (world (opened (new_state "netball_stats.db"))) =
    {[next_handle (world (new_state "netball_stats.db")) :=
        {| foreign_keys := true; row_factory := sqlite3_Row; pending := None |}]}.
Proof.
  assert (W : manager_inv (new_state "netball_stats.db")) by reflexivity.
  split; [exact W|].
  destruct (one_lazily_created_connection (new_state "netball_stats.db")
              (Malformed "") None W) as (_ & _ & _ & _ & _ & _ & _ & N & _).
  apply N. reflexivity.
Defined.

(** C8, as the code has it.  [__enter__] returns the manager and changes
    nothing: it opens no connection.  The [with] statement runs [close] on
    the state its body leaves, whether the body returns or raises; an
    exception of the body is raised again; afterwards the manager has no
    connection and the one the body used is closed. *)
Theorem with_block_closes_on_exit {A} (body : manager -> M State A) (st : State) :
  __enter__ st = (Return (self st), st) /\
  with_ body st =
    match body (self st) st with
    | (Return a, st') => (Return (Some a), closed st')
    | (Raise e, st') => (Raise e, closed st')
    end /\
  connection (self (snd (with_ body st))) = None /\
  match connection (self (snd (body (self st) st))) with
  | Some h => conns (world (snd (with_ body st))) !! h = None
  | None => True
  end.
Proof.
  assert (E : with_ body st =
    match body (self st) st with
    | (Return a, st') => (Return (Some a), closed st')
    | (Raise e, st') => (Raise e, closed st')
    end).
  { unfold with_, __enter__, __exit__, get_self, bind at 1.
    destruct (body (self st) st) as [[a|e] st'];
      unfold bind, ret, raise; destruct (close_total st') as (-> & _); reflexivity. }
  split; [reflexivity|]. split; [exact E|].
  rewrite E. destruct (body (self st) st) as [[a|e] st']; cbn [fst snd];
    destruct (close_total st') as (_ & C & L);
    (split; [exact C|]);
    (destruct (connection (self st')) as [h|]; [exact (L h eq_refl) | exact I]).
Qed.

(** C8, as stated, fails: entering the scope on a new manager acquires
    nothing, no connection is open afterwards. *)
Lemma enter_opens_no_connection :
  fst (__enter__ (new_state "netball_stats.db")) = Return (__init__ "netball_stats.db") /\
  connection (self (snd (__enter__ (new_state "netball_stats.db")))) = None /\
  conns (world (snd (__enter__ (new_state "netball_stats.db")))) = ∅.
Proof. split; [reflexivity|]. split; reflexivity. Qed.

(* ================================================================== *)
(** * The schema manager *)
(* ================================================================== *)
(** ** Loops of [execute_query] *)

Lemma bound_some ps : bound (Some ps) = ps.
Proof. destruct ps; reflexivity. Qed.

Lemma for_each_cons {X} (x : X) l (f : X -> M State unit) st :
  for_each (x :: l) f st =
    match f x st with
    | (Return _, s) => for_each l f s
    | (Raise e, s) => (Raise e, s)
    end.
Proof. reflexivity. Qed.

Lemma run_one_eq sp st :
  run_one sp st =
    match execute_query (fst sp) (Some (snd sp)) st with
    | (Return _, s) => (Return tt, s)
    | (Raise e, s) => (Raise e, s)
    end.
Proof. reflexivity. Qed.

Lemma for_each_run_one st0 h c fk next l :
  Forall (fun sp => is_pragma (fst sp) = false /\ bindable (fst sp) (snd sp) = true) l ->
  forall db log,
    match run_all fk db l with
    | inr db' =>
        for_each l run_one (state_with st0 db h (idle c fk) next log) =
          (Return tt, state_with st0 db' h (idle c fk) next (log ++ l))
    | inl e =>
        fst (for_each l run_one (state_with st0 db h (idle c fk) next log)) =
          Raise (sqlite3_Error e)
    end.
Proof.
  induction 1 as [|sp l [P B] _ IH]; intros db log.
  - simpl. rewrite app_nil_r. reflexivity.
  - cbn [run_all]. rewrite for_each_cons, run_one_eq.
    rewrite execute_query_idle by (rewrite ?bound_some; assumption). rewrite bound_some.
    destruct (run fk db (fst sp) (snd sp)) as [e|out]; [reflexivity|].
    specialize (IH (out_db out) (log ++ [(fst sp, snd sp)])).
    destruct (run_all fk (out_db out) l) as [e|db'].
    + exact IH.
    + rewrite IH. rewrite <- app_assoc. destruct sp. reflexivity.
Qed.

Lemma for_each_run_one_first st0 h c next sp l db log :
  Forall (fun sp => is_pragma (fst sp) = false /\ bindable (fst sp) (snd sp) = true)
         (sp :: l) ->
  match run_all (foreign_keys c) (view db c) (sp :: l) with
  | inr db' =>
      for_each (sp :: l) run_one (state_with st0 db h c next log) =
        (Return tt,
         state_with st0 db' h (idle c (foreign_keys c)) next (log ++ sp :: l))
  | inl e =>
      fst (for_each (sp :: l) run_one (state_with st0 db h c next log)) =
        Raise (sqlite3_Error e)
  end.
Proof.
  intros P. inversion P as [|? ? [Psp Bsp] Pl]; subst.
  cbn [run_all]. rewrite for_each_cons, run_one_eq.
  rewrite execute_query_state_with by (rewrite bound_some; exact Bsp). rewrite bound_some.
  destruct (run (foreign_keys c) (view db c) (fst sp) (snd sp)) as [e|out]; [reflexivity|].
  replace (fk_after c (fst sp)) with (foreign_keys c)
    by (destruct (fst sp); simpl in *; congruence).
  pose proof (for_each_run_one st0 h c (foreign_keys c) next l Pl (out_db out)
                (log ++ [(fst sp, snd sp)])) as H.
  destruct (run_all (foreign_keys c) (out_db out) l) as [e|db'].
  - exact H.
  - rewrite H, <- app_assoc. destruct sp. reflexivity.
Qed.

Lemma for_each_app {X} (l1 l2 : list X) (f : X -> M State unit) st :
  for_each (l1 ++ l2) f st = bind (for_each l1 f) (fun _ => for_each l2 f) st.
Proof.
  revert st. induction l1 as [|x l1 IH]; intros st; [reflexivity|].
  cbn [app]. rewrite for_each_cons. unfold bind at 1. rewrite for_each_cons.
  destruct (f x st) as [[[]|e] s]; [|reflexivity].
  rewrite IH. reflexivity.
Qed.

Lemma bind_ext {A B} (m : M State A) (k k' : A -> M State B) st :
  (forall a s, k a s = k' a s) -> bind m k st = bind m k' st.
Proof. intros H. unfold bind. destruct (m st) as [[a|e] s]; [apply H | reflexivity]. Qed.

(** ** CREATE TABLE IF NOT EXISTS *)

Lemma run_create_if_not_exists fk db td ps :
  reserved (tname td) = false ->
  run fk db (CreateTable true td) ps = done (ensure db td) (-1).
Proof.
  intros R. unfold run, ensure. rewrite R. destruct (find_table db (tname td)); reflexivity.
Qed.

Lemma find_table_app db l n :
  find_table (db ++ l) n =
    match find_table db n with Some t => Some t | None => find_table l n end.
Proof.
  unfold find_table. induction db as [|tb db IH]; simpl; [reflexivity|].
  destruct (named n tb); [reflexivity | exact IH].
Qed.

Lemma find_table_ensure_keeps db td n tb :
  find_table db n = Some tb -> find_table (ensure db td) n = Some tb.
Proof.
  intros F. unfold ensure. destruct (find_table db (tname td)); [exact F|].
  rewrite find_table_app, F. reflexivity.
Qed.

Lemma find_table_ensure db td : exists tb, find_table (ensure db td) (tname td) = Some tb.
Proof.
  unfold ensure. destruct (find_table db (tname td)) as [tb|] eqn:F.
  - exists tb. exact F.
  - rewrite find_table_app, F. unfold find_table, named. cbn [find tdef].
    rewrite same_name_refl. eauto.
Qed.

Lemma ensure_found db td tb : find_table db (tname td) = Some tb -> ensure db td = db.
Proof. intros F. unfold ensure. rewrite F. reflexivity. Qed.

Lemma ensure_all_again db : ensure_all (ensure_all db) = ensure_all db.
Proof.
  unfold ensure_all, declared. cbn [fold_left].
  set (d1 := ensure db divisions_def).
  set (d2 := ensure d1 teams_def).
  set (d3 := ensure d2 players_def).
  set (d4 := ensure d3 matches_def).
  set (d5 := ensure d4 player_stats_def).
  destruct (find_table_ensure db divisions_def) as [t1 F1]. fold d1 in F1.
  destruct (find_table_ensure d1 teams_def) as [t2 F2]. fold d2 in F2.
  destruct (find_table_ensure d2 players_def) as [t3 F3]. fold d3 in F3.
  destruct (find_table_ensure d3 matches_def) as [t4 F4]. fold d4 in F4.
  destruct (find_table_ensure d4 player_stats_def) as [t5 F5]. fold d5 in F5.
  rewrite (ensure_found d5 divisions_def t1)
    by (unfold d5, d4, d3, d2; do 4 apply find_table_ensure_keeps; exact F1).
  rewrite (ensure_found d5 teams_def t2)
    by (unfold d5, d4, d3; do 3 apply find_table_ensure_keeps; exact F2).
  rewrite (ensure_found d5 players_def t3)
    by (unfold d5, d4; do 2 apply find_table_ensure_keeps; exact F3).
  rewrite (ensure_found d5 matches_def t4)
    by (unfold d5; apply find_table_ensure_keeps; exact F4).
  rewrite (ensure_found d5 player_stats_def t5) by exact F5.
  reflexivity.
Qed.

Lemma create_tables_state_with st0 db h c next log :
  create_tables (state_with st0 db h c next log) =
    (Return tt,
     state_with st0 (ensure_all (view db c)) h (idle c (foreign_keys c)) next
       (log ++ create_log)%list).
Proof.
  unfold create_tables, bind.
  rewrite execute_query_state_with, run_create_if_not_exists by reflexivity.
  cbn [done fk_after out_db].
  repeat (rewrite execute_query_idle by reflexivity;
          rewrite run_create_if_not_exists by reflexivity; cbn [done out_db]).
  unfold ret, ensure_all, create_log. cbn [fold_left declared map bound truthy].
  repeat rewrite <- app_assoc. reflexivity.
Qed.

Lemma create_tables_opened st : manager_inv st -> create_tables st = create_tables (opened st).
Proof.
  intros W. unfold create_tables. apply bind_opened, execute_query_opened, W.
Qed.

Lemma schema_netball db :
  map tdef db = declared -> exists dv ts ps ms ss, db = netball_db dv ts ps ms ss.
Proof.
  unfold declared, netball_db, tbl.
  destruct db as [|[d1 r1] [|[d2 r2] [|[d3 r3] [|[d4 r4] [|[d5 r5] [|? ?]]]]]];
    simpl; intros H; try discriminate H.
  injection H as -> -> -> -> ->. exists r1, r2, r3, r4, r5. reflexivity.
Qed.

(** ** DROP TABLE IF EXISTS *)

Lemma cascade_S d db parent pcols gone :
  cascade (S d) db parent pcols gone =
    match gone with
    | [] => inr db
    | _ :: _ =>
        fold_left (cascade_through (cascade d) pcols gone) (referencing db parent) (inr db)
    end.
Proof. destruct gone; reflexivity. Qed.

Lemma cascade_no_refs d db parent pcols gone :
  referencing db parent = [] -> cascade (S d) db parent pcols gone = inr db.
Proof. intros R. rewrite cascade_S, R. destruct gone; reflexivity. Qed.

Lemma remove_set_rows db n rs : remove_table (set_rows db n rs) n = remove_table db n.
Proof.
  induction db as [|tb db IH]; cbn [set_rows remove_table]; [reflexivity|].
  destruct (named n tb) eqn:N; cbn [remove_table].
  - unfold named in *. cbn [tdef]. rewrite N. reflexivity.
  - rewrite N. f_equal. exact IH.
Qed.

Lemma run_drop_unreferenced fk db n tb ps :
  find_table db n = Some tb -> reserved n = false ->
  referencing (set_rows db n []) n = [] ->
  run fk db (DropTable true n) ps = done (remove_table db n) (-1).
Proof.
  intros F R N. unfold run. rewrite F, R. unfold delete_rows.
  pose proof (find_table_named _ _ _ F) as Nm.
  rewrite (set_rows_same_name _ _ _ _ Nm).
  destruct fk.
  - unfold trigger_depth.
    rewrite cascade_no_refs by (rewrite (referencing_same _ _ _ Nm); exact N).
    rewrite remove_set_rows. reflexivity.
  - rewrite remove_set_rows. reflexivity.
Qed.

Lemma run_drop_absent fk db n ps :
  catalog n = false -> find_table db n = None ->
  run fk db (DropTable true n) ps = done db (-1).
Proof. intros C F. unfold run. rewrite F, C. reflexivity. Qed.

Lemma run_drop_player_stats fk dv ts ps ms ss :
  run fk (netball_db dv ts ps ms ss) (DropTable true "player_stats") [] =
    done [tbl divisions_def dv; tbl teams_def ts; tbl players_def ps; tbl matches_def ms] (-1).
Proof. rewrite (run_drop_unreferenced _ _ _ (tbl player_stats_def ss)); reflexivity. Qed.

Lemma run_drop_matches fk dv ts ps ms :
  run fk [tbl divisions_def dv; tbl teams_def ts; tbl players_def ps; tbl matches_def ms]
      (DropTable true "matches") [] =
    done [tbl divisions_def dv; tbl teams_def ts; tbl players_def ps] (-1).
Proof. rewrite (run_drop_unreferenced _ _ _ (tbl matches_def ms)); reflexivity. Qed.

Lemma run_drop_players fk dv ts ps :
  run fk [tbl divisions_def dv; tbl teams_def ts; tbl players_def ps]
      (DropTable true "players") [] =
    done [tbl divisions_def dv; tbl teams_def ts] (-1).
Proof. rewrite (run_drop_unreferenced _ _ _ (tbl players_def ps)); reflexivity. Qed.

Lemma run_drop_teams fk dv ts :
  run fk [tbl divisions_def dv; tbl teams_def ts] (DropTable true "teams") [] =
    done [tbl divisions_def dv] (-1).
Proof. rewrite (run_drop_unreferenced _ _ _ (tbl teams_def ts)); reflexivity. Qed.

Lemma run_drop_divisions fk dv :
  run fk [tbl divisions_def dv] (DropTable true "divisions") [] = done [] (-1).
Proof. rewrite (run_drop_unreferenced _ _ _ (tbl divisions_def dv)); reflexivity. Qed.

Lemma drop_tables_netball st0 db h c next log dv ts ps ms ss :
  view db c = netball_db dv ts ps ms ss ->
  drop_tables (state_with st0 db h c next log) =
    (Return tt,
     state_with st0 [] h (idle c (foreign_keys c)) next (log ++ drop_log)).
Proof.
  intros V. unfold drop_tables. cbn [for_each]. unfold bind, ret.
  rewrite execute_query_state_with by reflexivity. rewrite V.
  change (bound None) with (@nil value).
  rewrite run_drop_player_stats. cbn [done fk_after out_db]. cbv beta iota.
  rewrite execute_query_idle by reflexivity. change (bound None) with (@nil value).
  rewrite run_drop_matches. cbn [done out_db]. cbv beta iota.
  rewrite execute_query_idle by reflexivity. change (bound None) with (@nil value).
  rewrite run_drop_players. cbn [done out_db]. cbv beta iota.
  rewrite execute_query_idle by reflexivity. change (bound None) with (@nil value).
  rewrite run_drop_teams. cbn [done out_db]. cbv beta iota.
  rewrite execute_query_idle by reflexivity. change (bound None) with (@nil value).
  rewrite run_drop_divisions. cbn [done out_db]. cbv beta iota.
  unfold drop_log. repeat rewrite <- app_assoc. reflexivity.
Qed.

Lemma drop_tables_empty st0 h c next log :
  drop_tables (state_with st0 [] h (idle c (foreign_keys c)) next log) =
    (Return tt,
     state_with st0 [] h (idle c (foreign_keys c)) next (log ++ drop_log)).
Proof.
  unfold drop_tables. cbn [for_each]. unfold bind, ret.
  repeat (rewrite execute_query_idle by reflexivity;
          rewrite run_drop_absent by reflexivity; cbn [done out_db]; cbv beta iota).
  unfold drop_log. change (bound None) with (@nil value).
  repeat rewrite <- app_assoc. reflexivity.
Qed.

Lemma drop_tables_opened st : manager_inv st -> drop_tables st = drop_tables (opened st).
Proof.
  intros W. unfold drop_tables. cbn [for_each].
  apply bind_opened, bind_opened, execute_query_opened, W.
Qed.

(** C6.  [create_tables] always returns and sends the engine the five
    CREATE TABLE IF NOT EXISTS statements, parents before children; a
    second call returns too and leaves the database unchanged.  On the
    declared schema, [drop_tables] returns, sends the five DROP TABLE IF
    EXISTS statements in the reverse order and leaves no table; a second
    call returns too and changes nothing. *)
Theorem create_tables_and_drop_tables_in_order (st : State) :
  manager_inv st ->
  (exists st1 st2,
     create_tables st = (Return tt, st1) /\
     trace (world st1) =
       trace (world st) ++ connect_log st ++
       [(CreateTable true divisions_def, []); (CreateTable true teams_def, []);
        (CreateTable true players_def, []); (CreateTable true matches_def, []);
        (CreateTable true player_stats_def, [])] /\
     create_tables st1 = (Return tt, st2) /\
     disk (world st2) = disk (world st1)) /\
  (map tdef (seen st) = declared ->
   exists st1 st2,
     drop_tables st = (Return tt, st1) /\
     trace (world st1) =
       trace (world st) ++ connect_log st ++
       [(DropTable true "player_stats", []); (DropTable true "matches", []);
        (DropTable true "players", []); (DropTable true "teams", []);
        (DropTable true "divisions", [])] /\
     disk (world st1) = [] /\
     drop_tables st1 = (Return tt, st2) /\
     disk (world st2) = disk (world st1)).
Proof.
  intros W.
  destruct (opened_state_with st W) as (h & c & Fc & Kc & Vc & O).
  split.
  - rewrite (create_tables_opened st W), O, create_tables_state_with.
    eexists. eexists. split; [reflexivity|].
    split; [reflexivity|].
    rewrite create_tables_state_with. split; [reflexivity|].
    cbn [state_with world disk view idle pending]. apply ensure_all_again.
  - intros S. destruct (schema_netball _ S) as (dv & ts & ps & ms & ss & N).
    rewrite (drop_tables_opened st W), O.
    rewrite (drop_tables_netball _ _ _ _ _ _ dv ts ps ms ss) by (rewrite Vc; exact N).
    eexists. eexists. split; [reflexivity|].
    split; [reflexivity|].
    split; [reflexivity|].
    change (idle c (foreign_keys c))
      with (idle (idle c (foreign_keys c)) (foreign_keys (idle c (foreign_keys c)))).
    rewrite drop_tables_empty. split; reflexivity.
Qed.

Lemma create_tables_and_drop_tables_in_order_witness :
  manager_inv (snd (create_tables (new_state "netball_stats.db"))) /\
  map tdef (seen (snd (create_tables (new_state "netball_stats.db")))) = declared /\
  exists st1 st2,
    drop_tables (snd (create_tables (new_state "netball_stats.db"))) = (Return tt, st1) /\
    trace (world st1) =
      trace (world (snd (create_tables (new_state "netball_stats.db")))) ++
      connect_log (snd (create_tables (new_state "netball_stats.db"))) ++
      [(DropTable true "player_stats", []); (DropTable true "matches", []);
       (DropTable true "players", []); (DropTable true "teams", []);
       (DropTable true "divisions", [])] /\
    disk (world st1) = [] /\
    drop_tables st1 = (Return tt, st2) /\
    disk (world st2) = disk (world st1).
Proof.
  assert (W : manager_inv (snd (create_tables (new_state "netball_stats.db")))).
  { vm_compute. split; [constructor | eexists; split; reflexivity]. }
  assert (S : map tdef (seen (snd (create_tables (new_state "netball_stats.db")))) = declared).
  { vm_compute. reflexivity. }
  split; [exact W|]. split; [exact S|].
  exact (proj2 (create_tables_and_drop_tables_in_order
                  (snd (create_tables (new_state "netball_stats.db"))) W) S).
Defined.

(** ** ON DELETE CASCADE *)

Lemma without_nothing (p : row -> bool) l :
  (forall r, p r = false) -> without p l = l.
Proof.
  intros H. unfold without. induction l as [|x l IH]; simpl; [reflexivity|].
  rewrite H. simpl. f_equal. exact IH.
Qed.

Lemma filter_nothing (p : row -> bool) l :
  (forall r, p r = false) -> List.filter p l = [].
Proof.
  intros H. induction l as [|x l IH]; simpl; [reflexivity|]. rewrite H. exact IH.
Qed.

Lemma without_without p q l :
  without q (without p l) = without (fun r => p r || q r) l.
Proof.
  unfold without. induction l as [|x l IH]; simpl; [reflexivity|].
  destruct (p x); simpl; [exact IH|]. destruct (q x); simpl; [exact IH|].
  f_equal. exact IH.
Qed.

Lemma without_ext p q l : (forall r, p r = q r) -> without p l = without q l.
Proof.
  intros H. unfold without. induction l as [|x l IH]; simpl; [reflexivity|].
  rewrite H, IH. reflexivity.
Qed.

Lemma existsb_three (f p1 p2 p3 : row -> bool) l :
  existsb f (List.filter p1 l) ||
  (existsb f (List.filter p2 (without p1 l)) ||
   existsb f (List.filter p3 (without (fun r => p1 r || p2 r) l))) =
  existsb f (List.filter (fun m => p3 m || p1 m || p2 m) l).
Proof.
  unfold without. induction l as [|x l IH]; simpl; [reflexivity|].
  destruct (p1 x); simpl; destruct (p2 x); simpl; destruct (p3 x); simpl;
    rewrite <- IH; destruct (f x); simpl;
    repeat match goal with |- context [existsb ?g ?k] => generalize (existsb g k); intro end;
    repeat match goal with b : bool |- _ => destruct b end; reflexivity.
Qed.

Lemma through_found continue pcols gone db child f tb :
  find_table db child = Some tb ->
  cascade_through continue pcols gone (inr db) (child, f) =
    continue
      (set_rows db child (without (refers (col_names (tdef tb)) pcols f gone) (trows tb)))
      child (col_names (tdef tb))
      (List.filter (refers (col_names (tdef tb)) pcols f gone) (trows tb)).
Proof. intros F. unfold cascade_through. cbn [fst snd]. rewrite F. reflexivity. Qed.

Ltac nothing_gone :=
  repeat (rewrite (filter_nothing (team_of [])) by reflexivity);
  repeat (rewrite (without_nothing (team_of [])) by reflexivity);
  repeat (rewrite (filter_nothing (player_of [])) by reflexivity);
  repeat (rewrite (without_nothing (player_of [])) by reflexivity);
  repeat (rewrite (without_nothing (ref_team1 [])) by reflexivity);
  repeat (rewrite (filter_nothing (ref_team1 [])) by reflexivity);
  repeat (rewrite (without_nothing (ref_team2 [])) by reflexivity);
  repeat (rewrite (filter_nothing (ref_team2 [])) by reflexivity);
  repeat (rewrite (without_nothing (ref_division [])) by reflexivity);
  repeat (rewrite (filter_nothing (ref_division [])) by reflexivity);
  repeat (rewrite (without_nothing (ref_match [])) by reflexivity);
  repeat (rewrite (without_nothing (ref_player [])) by reflexivity).

Lemma cascade_player_stats d dv ts ps ms ss gone :
  cascade (S d) (netball_db dv ts ps ms ss) "player_stats"
    (col_names player_stats_def) gone = inr (netball_db dv ts ps ms ss).
Proof. apply cascade_no_refs. reflexivity. Qed.

Lemma cascade_players d dv ts ps ms ss gone :
  cascade (S (S d)) (netball_db dv ts ps ms ss) "players" (col_names players_def) gone =
    inr (netball_db dv ts ps ms (without (ref_player gone) ss)).
Proof.
  rewrite cascade_S. destruct gone as [|g gone].
  - rewrite without_nothing by reflexivity. reflexivity.
  - change (referencing (netball_db dv ts ps ms ss) "players")
      with [("player_stats", references "player_id" "players" "id")].
    cbn [fold_left]. unfold cascade_through.
    change (find_table (netball_db dv ts ps ms ss) (fst ("player_stats", references "player_id" "players" "id")))
      with (Some (tbl player_stats_def ss)).
    cbv beta iota zeta. cbn [fst snd tbl tdef trows].
    match goal with
    | |- cascade (S d) (set_rows _ _ ?rows) _ _ _ = _ =>
        change (set_rows (netball_db dv ts ps ms ss) "player_stats" rows)
          with (netball_db dv ts ps ms rows)
    end.
    rewrite cascade_player_stats. reflexivity.
Qed.

Lemma cascade_matches d dv ts ps ms ss gone :
  cascade (S (S d)) (netball_db dv ts ps ms ss) "matches" (col_names matches_def) gone =
    inr (netball_db dv ts ps ms (without (ref_match gone) ss)).
Proof.
  rewrite cascade_S. destruct gone as [|g gone].
  - rewrite without_nothing by reflexivity. reflexivity.
  - change (referencing (netball_db dv ts ps ms ss) "matches")
      with [("player_stats", references "match_id" "matches" "id")].
    cbn [fold_left].
    rewrite (through_found _ _ _ _ _ _ (tbl player_stats_def ss)) by reflexivity.
    cbn [tbl tdef trows].
    change (set_rows (netball_db dv ts ps ms ss) "player_stats" ?rows)
      with (netball_db dv ts ps ms rows).
    rewrite cascade_player_stats. reflexivity.
Qed.

Lemma cascade_teams d dv ts ps ms ss gone :
  cascade (S (S (S d))) (netball_db dv ts ps ms ss) "teams" (col_names teams_def) gone =
    inr (netball_db dv ts
           (without (player_of gone) ps)
           (without (ref_team2 gone) (without (ref_team1 gone) ms))
           (without (ref_match (List.filter (ref_team2 gone) (without (ref_team1 gone) ms)))
              (without (ref_match (List.filter (ref_team1 gone) ms))
                 (without (ref_player (List.filter (player_of gone) ps)) ss)))).
Proof.
  rewrite cascade_S. destruct gone as [|g gone].
  - nothing_gone. reflexivity.
  - change (referencing (netball_db dv ts ps ms ss) "teams")
      with [("players", references "team_id" "teams" "id");
            ("matches", references "team1_id" "teams" "id");
            ("matches", references "team2_id" "teams" "id")].
    cbn [fold_left].
    rewrite (through_found _ _ _ _ _ _ (tbl players_def ps)) by reflexivity.
    cbn [tbl tdef trows].
    change (set_rows (netball_db dv ts ps ms ss) "players" ?rows)
      with (netball_db dv ts rows ms ss).
    rewrite cascade_players.
    rewrite (through_found _ _ _ _ _ _ (tbl matches_def ms)) by reflexivity.
    cbn [tbl tdef trows].
    change (set_rows (netball_db dv ts ?p ms ?s) "matches" ?rows)
      with (netball_db dv ts p rows s).
    rewrite cascade_matches.
    rewrite (through_found _ _ _ _ _ _
               (tbl matches_def
                  (without (refers (col_names matches_def) (col_names teams_def)
                              (references "team1_id" "teams" "id") (g :: gone)) ms)))
      by reflexivity.
    cbn [tbl tdef trows].
    change (set_rows (netball_db dv ts ?p ?m ?s) "matches" ?rows)
      with (netball_db dv ts p rows s).
    rewrite cascade_matches. reflexivity.
Qed.

Lemma cascade_divisions d dv ts ps ms ss gone :
  cascade (S (S (S (S d)))) (netball_db dv ts ps ms ss) "divisions"
    (col_names divisions_def) gone =
    let gone_ts := List.filter (team_of gone) ts in
    let ms2 := without (ref_team2 gone_ts) (without (ref_team1 gone_ts) ms) in
    inr (netball_db dv
           (without (team_of gone) ts)
           (without (player_of gone_ts) ps)
           (without (ref_division gone) ms2)
           (without (ref_match (List.filter (ref_division gone) ms2))
              (without (ref_match (List.filter (ref_team2 gone_ts)
                                     (without (ref_team1 gone_ts) ms)))
                 (without (ref_match (List.filter (ref_team1 gone_ts) ms))
                    (without (ref_player (List.filter (player_of gone_ts) ps)) ss))))).
Proof.
  cbv zeta. rewrite cascade_S. destruct gone as [|g gone].
  - nothing_gone. reflexivity.
  - change (referencing (netball_db dv ts ps ms ss) "divisions")
      with [("teams", references "division_id" "divisions" "id");
            ("matches", references "division_id" "divisions" "id")].
    cbn [fold_left].
    rewrite (through_found _ _ _ _ _ _ (tbl teams_def ts)) by reflexivity.
    cbn [tbl tdef trows].
    change (set_rows (netball_db dv ts ps ms ss) "teams" ?rows)
      with (netball_db dv rows ps ms ss).
    rewrite cascade_teams.
    match goal with
    | |- cascade_through _ _ _ (inr (netball_db _ _ _ ?m _)) _ = _ =>
        rewrite (through_found _ _ _ _ _ _ (tbl matches_def m)) by reflexivity
    end.
    cbn [tbl tdef trows].
    change (set_rows (netball_db dv ?t ?p ?m ?s) "matches" ?rows)
      with (netball_db dv t p rows s).
    rewrite cascade_matches. reflexivity.
Qed.

Lemma run_delete_division d dv ts ps ms ss :
  run true (netball_db dv ts ps ms ss) delete_division [VInt d] =
    done (without_division d dv ts ps ms ss)
         (Z.of_nat (length (List.filter (division_is d) dv))).
Proof.
  unfold run, delete_division.
  change (find_table (netball_db dv ts ps ms ss) "divisions")
    with (Some (tbl divisions_def dv)).
  cbv beta iota zeta. cbn [tbl tdef trows].
  change (negb (where_ok (col_names divisions_def) (Some (Eq (Col "id") (Param 0)))))
    with false.
  change (negb (Nat.eqb (length [VInt d]) (arity (Delete "divisions" (Some (Eq (Col "id") (Param 0)))))))
    with false.
  cbv beta iota.
  change (holds (col_names divisions_def) [VInt d] (Some (Eq (Col "id") (Param 0))))
    with (division_is d).
  unfold delete_rows. cbn [tbl tdef tname divisions_def].
  change (set_rows (netball_db dv ts ps ms ss) "divisions" ?rows)
    with (netball_db rows ts ps ms ss).
  fold divisions_def. fold (without (division_is d) dv).
  change trigger_depth with (S (S (S (S 996)))).
  rewrite cascade_divisions. cbv zeta. unfold done, without_division. cbv zeta.
  do 2 f_equal.
  set (gone_dv := List.filter (division_is d) dv).
  set (gone_ts := List.filter (team_of gone_dv) ts).
  assert (M : without (ref_division gone_dv)
                 (without (ref_team2 gone_ts) (without (ref_team1 gone_ts) ms)) =
               without (match_of gone_dv gone_ts) ms).
  { rewrite !without_without. apply without_ext. intros m.
    unfold match_of. fold (ref_division gone_dv m) (ref_team1 gone_ts m) (ref_team2 gone_ts m).
    destruct (ref_team1 gone_ts m), (ref_team2 gone_ts m), (ref_division gone_dv m);
      reflexivity. }
  assert (T : without
                (ref_match
                   (List.filter (ref_division gone_dv)
                      (without (ref_team2 gone_ts) (without (ref_team1 gone_ts) ms))))
                (without
                   (ref_match
                      (List.filter (ref_team2 gone_ts) (without (ref_team1 gone_ts) ms)))
                   (without (ref_match (List.filter (ref_team1 gone_ts) ms))
                      (without (ref_player (List.filter (player_of gone_ts) ps)) ss))) =
              without
                (stat_of (List.filter (player_of gone_ts) ps)
                   (List.filter (match_of gone_dv gone_ts) ms)) ss).
  { rewrite !without_without. apply without_ext. intros s.
    unfold stat_of. fold (ref_player (List.filter (player_of gone_ts) ps) s).
    rewrite <- ?orb_assoc. f_equal.
    unfold ref_match, id_among.
    exact (existsb_three
             (fun p => same_key (col_of player_stats_def "match_id" s)
                                (col_of matches_def "id" p))
             (ref_team1 gone_ts) (ref_team2 gone_ts) (ref_division gone_dv) ms). }
  rewrite M, T. reflexivity.
Qed.

(** C2.  On the declared schema, with foreign keys enforced, deleting
    division [d] through [execute_query] removes, besides the division,
    its teams, the players of those teams, the matches of the division or
    of those teams, and the statistics of those players or matches; all
    other rows stay, in place and unchanged.  (An integer that does not
    fit 64 bits is the id of no division: binding it raises
    [OverflowError] and nothing is removed.) *)
Theorem delete_division_cascades (st : State) (d : Z) (dv ts ps ms ss : list row) :
  manager_inv st ->
  enforcing st = true ->
  seen st = netball_db dv ts ps ms ss ->
  (fits (VInt d) = true ->
   exists st',
     execute_query delete_division (Some [VInt d]) st =
       (Return (Z.of_nat (length (List.filter (division_is d) dv))), st') /\
     disk (world st') = without_division d dv ts ps ms ss) /\
  (fits (VInt d) = false ->
   fst (execute_query delete_division (Some [VInt d]) st) = Raise int_too_large /\
   disk (world (snd (execute_query delete_division (Some [VInt d]) st))) = disk (world st)).
Proof.
  intros W F S. split; intros B.
  - assert (B' : bindable delete_division (bound (Some [VInt d])) = true).
    { unfold bindable. cbn [bound truthy tuple_of forallb length arity delete_division
        where_arity cond_arity operand_arity Nat.max Nat.eqb andb]. rewrite B. reflexivity. }
    destruct (execute_query_run delete_division (Some [VInt d]) st W B')
      as (h & c & _ & _ & _ & E).
    rewrite E, F, S. change (bound (Some [VInt d])) with [VInt d].
    rewrite run_delete_division. eexists. split; reflexivity.
  - destruct (execute_query_answer delete_division (Some [VInt d]) st W)
      as (h & c & _ & _ & _ & E).
    rewrite E, F, S. change (bound (Some [VInt d])) with [VInt d].
    assert (A : answer true (netball_db dv ts ps ms ss) delete_division [VInt d] =
                inl int_too_large).
    { unfold answer, bind_parameters.
      destruct (prepare true (netball_db dv ts ps ms ss) delete_division) as [e|] eqn:P.
      - apply (prepare_run _ _ _ [VInt 0]) in P. rewrite run_delete_division in P.
        discriminate.
      - cbn [forallb length arity delete_division where_arity cond_arity operand_arity
             Nat.max Nat.eqb negb andb]. rewrite B. reflexivity. }
    rewrite A. split; reflexivity.
Qed.

Lemma delete_division_cascades_witness :
  manager_inv sample_state /\
  enforcing sample_state = true /\
  seen sample_state = netball_db division_rows team_rows player_rows match_rows stat_rows /\
  exists st',
    execute_query delete_division (Some [VInt 1]) sample_state =
      (Return (Z.of_nat (length (List.filter (division_is 1) division_rows))), st') /\
    disk (world st') =
      without_division 1 division_rows team_rows player_rows match_rows stat_rows.
Proof.
  assert (W : manager_inv sample_state).
  { vm_compute. split; [constructor | eexists; split; reflexivity]. }
  assert (F : enforcing sample_state = true) by (vm_compute; reflexivity).
  assert (S : seen sample_state =
              netball_db division_rows team_rows player_rows match_rows stat_rows)
    by (vm_compute; reflexivity).
  split; [exact W|]. split; [exact F|]. split; [exact S|].
  exact (proj1 (delete_division_cascades sample_state 1 division_rows team_rows player_rows
                  match_rows stat_rows W F S) eq_refl).
Defined.

(** ** Constraints *)

Lemma run_insert fk oi db tb cols vals ps r :
  inserts fk db tb cols vals ps r ->
  run fk db (Insert oi (tname (tdef tb)) cols vals) ps =
    match local_violation (tdef tb) (trows tb) r with
    | Some v => if oi then done db 0 else inl (IntegrityError v)
    | None =>
        if fk && fk_violated (set_rows db (tname (tdef tb)) (trows tb ++ [r])) (tdef tb) r
        then inl (IntegrityError ForeignKey)
        else done (set_rows db (tname (tdef tb)) (trows tb ++ [r])) 1
    end.
Proof.
  intros (F & M & L & O & P & A & R). unfold run. rewrite F, M, L, O, P.
  rewrite Nat.eqb_refl. cbn [negb].
  change (arity (Insert oi (tname (tdef tb)) cols vals))
    with (arity (Insert false (tname (tdef tb)) cols vals)).
  rewrite A, Nat.eqb_refl. cbn [negb]. unfold insert. rewrite R. reflexivity.
Qed.

Lemma not_null_violation_iff td r :
  not_null_violation td r <> None <-> not_null_violated td r.
Proof.
  unfold not_null_violation, not_null_violated, col_of.
  destruct (find _ (tcols td)) as [c|] eqn:F.
  - apply find_some in F. destruct F as [I H]. apply andb_true_iff in H.
    destruct H as [N Z]. split; [intros _|discriminate].
    exists c. repeat split; auto. destruct (field _ r _); try discriminate; reflexivity.
  - split; [congruence|]. intros (c & I & N & Z). exfalso.
    pose proof (find_none _ _ F c I) as H. simpl in H. rewrite N, Z in H. discriminate.
Qed.

Lemma check_violation_iff td r : check_violation td r <> None <-> check_violated td r.
Proof.
  unfold check_violation, check_violated.
  destruct (existsb _ (tchecks td)) eqn:E.
  - split; [intros _|discriminate]. apply existsb_exists in E.
    destruct E as (chk & I & H). exists chk. split; [exact I|].
    unfold check_fails in H. destruct (eval_cond _ _ _ chk) as [[|]|]; congruence.
  - split; [congruence|]. intros (chk & I & H). exfalso.
    assert (X : existsb (check_fails td r) (tchecks td) = true).
    { apply existsb_exists. exists chk. split; [exact I|]. unfold check_fails. rewrite H.
      reflexivity. }
    congruence.
Qed.

Lemma pk_violation_iff td rows r : pk_violation td rows r <> None <-> key_taken td rows r.
Proof.
  unfold pk_violation, pk_clash, key_taken, col_of.
  destruct (tpk td) as [pk|].
  - destruct (existsb _ rows) eqn:E.
    + split; [intros _|discriminate]. apply existsb_exists in E.
      destruct E as (r' & I & H). exists pk, r'. auto.
    + split; [congruence|]. intros (pk' & r' & [= <-] & I & H). exfalso.
      assert (X : existsb (fun r'0 => same_key (field (col_names td) r'0 pk)
                                         (field (col_names td) r pk)) rows = true).
      { apply existsb_exists. eauto. }
      congruence.
  - split; [congruence|]. intros (pk' & r' & D & _). discriminate.
Qed.

Lemma unique_violation_iff td rows r :
  unique_violation td rows r <> None <-> unique_taken td rows r.
Proof.
  unfold unique_violation, unique_taken, col_of.
  destruct (find _ (tuniques td)) as [u|] eqn:F.
  - apply find_some in F. destruct F as [I H]. split; [intros _|discriminate].
    unfold unique_clash in H. apply existsb_exists in H. destruct H as (r' & I' & H).
    exists u, r'. repeat split; auto. intros c Ic. unfold agree in H.
    rewrite forallb_forall in H. apply H, Ic.
  - split; [congruence|]. intros (u & r' & I & I' & H). exfalso.
    pose proof (find_none _ _ F u I) as X. unfold unique_clash in X.
    assert (Y : existsb (agree td u r) rows = true).
    { apply existsb_exists. exists r'. split; [exact I'|]. unfold agree.
      apply forallb_forall. exact H. }
    congruence.
Qed.

Lemma first_of_none {A} (a b : option A) :
  first_of a b <> None <-> a <> None \/ b <> None.
Proof. destruct a, b; simpl; split; try tauto; try (intros _; left; discriminate); intros [H|H]; congruence. Qed.

Lemma local_violation_iff td rows r :
  local_violation td rows r <> None <->
  not_null_violated td r \/ check_violated td r \/ key_taken td rows r \/
  unique_taken td rows r.
Proof.
  unfold local_violation.
  rewrite !first_of_none, not_null_violation_iff, check_violation_iff,
    pk_violation_iff, unique_violation_iff. reflexivity.
Qed.

Lemma fk_violated_iff db td r : fk_violated db td r = true <-> parent_absent db td r.
Proof.
  unfold fk_violated, parent_absent, col_of. rewrite existsb_exists. split.
  - intros (f & I & H). exists f. split; [exact I|]. unfold fk_orphan in H.
    destruct (field (col_names td) r (fk_from f)) eqn:V; simpl in H; try discriminate;
      (split; [discriminate|]); intros p pr Fp Ip; rewrite Fp in H;
      apply negb_true_iff in H;
      destruct (same_key _ _) eqn:K; auto;
      (assert (X : existsb (fun pr0 => same_key (field (col_names (tdef p)) pr0 (fk_to f)) (field (col_names td) r (fk_from f))) (trows p) = true)
         by (apply existsb_exists; exists pr; rewrite V; auto));
      rewrite V in X; congruence.
  - intros (f & I & N & H). exists f. split; [exact I|]. unfold fk_orphan.
    destruct (is_null _) eqn:Z.
    + destruct (field _ r _); try discriminate. congruence.
    + destruct (find_table db (fk_table f)) as [p|] eqn:Fp; [|reflexivity].
      apply negb_true_iff. destruct (existsb _ (trows p)) eqn:E; [|reflexivity].
      apply existsb_exists in E. destruct E as (pr & Ip & K).
      rewrite (H p pr eq_refl Ip) in K. discriminate.
Qed.

Lemma run_insert_raises_iff fk db tb cols vals ps r :
  inserts fk db tb cols vals ps r ->
  (exists v, run fk db (Insert false (tname (tdef tb)) cols vals) ps =
             inl (IntegrityError v)) <->
  violates fk db tb r.
Proof.
  intros I. rewrite (run_insert _ _ _ _ _ _ _ _ I). unfold violates.
  pose proof (local_violation_iff (tdef tb) (trows tb) r) as L.
  destruct (local_violation (tdef tb) (trows tb) r) as [v|].
  - split; [intros _|eauto].
    assert (X : Some v <> None) by discriminate. apply L in X. tauto.
  - assert (N : ~ (not_null_violated (tdef tb) r \/ check_violated (tdef tb) r \/
                   key_taken (tdef tb) (trows tb) r \/ unique_taken (tdef tb) (trows tb) r)).
    { intros H. apply L in H. congruence. }
    destruct fk; simpl.
    + pose proof (fk_violated_iff (set_rows db (tname (tdef tb)) (trows tb ++ [r]))
                    (tdef tb) r) as K.
      destruct (fk_violated _ _ _).
      * split; [intros _|eauto]. do 4 right. split; [reflexivity|]. apply K. reflexivity.
      * split; [intros [v H]; discriminate|].
        intros H. exfalso. destruct H as [H|[H|[H|[H|[_ H]]]]]; try tauto.
        apply K in H. discriminate.
    + split; [intros [v H]; discriminate|].
      intros H. exfalso. destruct H as [H|[H|[H|[H|[H _]]]]]; try tauto. discriminate.
Qed.

Lemma insert_local_violation fk db tb cols vals :
  (forall r, assign_rowid (tdef tb) (trows tb) (build_row (tdef tb) cols vals) = inr r ->
             local_violation (tdef tb) (trows tb) r <> None) ->
  exists v, insert fk false db tb cols vals = inl (IntegrityError v).
Proof.
  intros H. unfold insert.
  destruct (assign_rowid _ _ _) as [e|r] eqn:A.
  - apply assign_rowid_error in A. subst e. eauto.
  - specialize (H r eq_refl). destruct (local_violation _ _ r); [eauto | congruence].
Qed.

Lemma run_insert_division fk dv ts ps ms ss vid vname other :
  In other dv -> same_key (col_of divisions_def "name" other) vname = true ->
  exists v, run fk (netball_db dv ts ps ms ss) insert_division [vid; vname] =
            inl (IntegrityError v).
Proof.
  intros I K. unfold run, insert_division.
  change (find_table (netball_db dv ts ps ms ss) "divisions") with (Some (tbl divisions_def dv)).
  cbv beta iota.
  change (missing_column (col_names (tdef (tbl divisions_def dv))) ["id"; "name"]) with (@None string).
  cbv beta iota.
  replace (if fk then parent_missing (netball_db dv ts ps ms ss) (tdef (tbl divisions_def dv)) else None)
    with (@None string) by (destruct fk; reflexivity).
  cbn [length Nat.eqb negb forallb operand_ok andb arity map operand_arity fold_right Nat.max eval_operand nth].
  apply insert_local_violation. cbn [tbl tdef trows]. intros r A.
  apply local_violation_iff. do 3 right.
  exists ["name"], other. split; [left; reflexivity|]. split; [exact I|].
  intros c [<-|[]].
  assert (R : col_of divisions_def "name" r = vname).
  { unfold assign_rowid in A. cbn in A.
    destruct vid; try discriminate A; injection A as <-; reflexivity. }
  rewrite R. exact K.
Qed.

Lemma run_insert_match fk dv ts ps ms ss vid vdate vdiv vt1 vt2 vs1 vs2 :
  same_key vt1 vt2 = true ->
  exists v, run fk (netball_db dv ts ps ms ss) insert_match
              [vid; vdate; vdiv; vt1; vt2; vs1; vs2] = inl (IntegrityError v).
Proof.
  intros K. unfold run, insert_match.
  change (find_table (netball_db dv ts ps ms ss) "matches") with (Some (tbl matches_def ms)).
  cbv beta iota.
  change (missing_column (col_names (tdef (tbl matches_def ms)))
            ["id"; "date"; "division_id"; "team1_id"; "team2_id"; "team1_score"; "team2_score"])
    with (@None string).
  cbv beta iota.
  replace (if fk then parent_missing (netball_db dv ts ps ms ss) (tdef (tbl matches_def ms)) else None)
    with (@None string) by (destruct fk; reflexivity).
  cbn [length Nat.eqb negb forallb operand_ok andb arity map operand_arity fold_right Nat.max eval_operand nth].
  apply insert_local_violation. cbn [tbl tdef trows]. intros r A.
  apply local_violation_iff. right. left.
  exists (Ne (Col "team1_id") (Col "team2_id")). split; [left; reflexivity|].
  assert (R : exists x, r = [x; vdate; vdiv; vt1; vt2; vs1; vs2]).
  { unfold assign_rowid in A. cbn in A.
    destruct vid; try discriminate A; injection A as <-; eauto. }
  destruct R as [x ->]. cbn. unfold same_key in K.
  destruct (sql_eq vt1 vt2) as [[|]|]; try discriminate K. reflexivity.
Qed.

Lemma run_insert_player_stat fk dv ts ps ms ss vid vp vm va vg other :
  In other ss ->
  same_key (col_of player_stats_def "player_id" other) vp = true ->
  same_key (col_of player_stats_def "match_id" other) vm = true ->
  exists v, run fk (netball_db dv ts ps ms ss) insert_player_stat [vid; vp; vm; va; vg] =
            inl (IntegrityError v).
Proof.
  intros I Kp Km. unfold run, insert_player_stat.
  change (find_table (netball_db dv ts ps ms ss) "player_stats")
    with (Some (tbl player_stats_def ss)).
  cbv beta iota.
  change (missing_column (col_names (tdef (tbl player_stats_def ss)))
            ["id"; "player_id"; "match_id"; "attempts"; "goals"])
    with (@None string).
  cbv beta iota.
  replace (if fk then parent_missing (netball_db dv ts ps ms ss) (tdef (tbl player_stats_def ss)) else None)
    with (@None string) by (destruct fk; reflexivity).
  cbn [length Nat.eqb negb forallb operand_ok andb arity map operand_arity fold_right Nat.max eval_operand nth].
  apply insert_local_violation. cbn [tbl tdef trows]. intros r A.
  apply local_violation_iff. do 3 right.
  exists ["player_id"; "match_id"], other. split; [left; reflexivity|]. split; [exact I|].
  assert (R : col_of player_stats_def "player_id" r = vp /\
              col_of player_stats_def "match_id" r = vm).
  { unfold assign_rowid in A. cbn in A.
    destruct vid; try discriminate A; injection A as <-; split; reflexivity. }
  destruct R as [Rp Rm].
  intros c [<-|[<-|[]]]; [rewrite Rp; exact Kp | rewrite Rm; exact Km].
Qed.

(** C3.  On the declared schema, holding rows whose values have the
    declared types, an INSERT that the engine accepts as a statement, of a
    row whose values have the declared types too, raises [IntegrityError]
    exactly when its row violates a declared constraint.  A second
    division with a name already present, a match whose two teams are the
    same, and a second statistic for the same player and match all raise
    it, whatever the other values bound (integers of 64 bits, text or
    NULL).  Whenever [execute_query] raises, the file is unchanged: the
    offending row is not stored. *)
Theorem constraint_violations_raise (st : State) (dv ts ps ms ss : list row) :
  manager_inv st ->
  seen st = netball_db dv ts ps ms ss ->
  typed (seen st) = true ->
  (forall tb cols vals params r,
     inserts (enforcing st) (seen st) tb cols vals (bound params) r ->
     forallb fits (bound params) = true ->
     typed_row (tcols (tdef tb)) r = true ->
     ((exists v, fst (execute_query (Insert false (tname (tdef tb)) cols vals) params st) =
                 Raise (sqlite3_Error (IntegrityError v))) <->
      violates (enforcing st) (seen st) tb r)) /\
  (forall q params e,
     fst (execute_query q params st) = Raise e ->
     disk (world (snd (execute_query q params st))) = disk (world st)) /\
  (forall vid vname other,
     In other dv -> same_key (col_of divisions_def "name" other) vname = true ->
     forallb fits [vid; vname] = true ->
     exists v, fst (execute_query insert_division (Some [vid; vname]) st) =
               Raise (sqlite3_Error (IntegrityError v))) /\
  (forall vid vdate vdiv vt1 vt2 vs1 vs2,
     same_key vt1 vt2 = true ->
     forallb fits [vid; vdate; vdiv; vt1; vt2; vs1; vs2] = true ->
     exists v, fst (execute_query insert_match
                      (Some [vid; vdate; vdiv; vt1; vt2; vs1; vs2]) st) =
               Raise (sqlite3_Error (IntegrityError v))) /\
  (forall vid vp vm va vg other,
     In other ss ->
     same_key (col_of player_stats_def "player_id" other) vp = true ->
     same_key (col_of player_stats_def "match_id" other) vm = true ->
     forallb fits [vid; vp; vm; va; vg] = true ->
     exists v, fst (execute_query insert_player_stat (Some [vid; vp; vm; va; vg]) st) =
               Raise (sqlite3_Error (IntegrityError v))).
Proof.
  intros W S _.
  assert (X : forall q ps e,
            forallb fits ps = true -> length ps = arity q ->
            run (enforcing st) (seen st) q ps = inl e ->
            fst (execute_query q (Some ps) st) = Raise (sqlite3_Error e)).
  { intros q ps0 e B L R. rewrite (execute_query_fst _ _ _ W), bound_some, answer_run, R.
    - reflexivity.
    - unfold bindable. rewrite L, Nat.eqb_refl, B. reflexivity. }
  repeat match goal with |- _ /\ _ => split end.
  - intros tb cols vals params r I B _.
    assert (B' : bindable (Insert false (tname (tdef tb)) cols vals) (bound params) = true).
    { unfold bindable. destruct I as (_ & _ & _ & _ & _ & L & _).
      rewrite L, Nat.eqb_refl, B. reflexivity. }
    rewrite (execute_query_fst _ _ _ W), (answer_run _ _ _ _ B').
    rewrite <- (run_insert_raises_iff _ _ _ _ _ _ _ I).
    destruct (run _ _ _ _) as [e|out]; cbn [lift].
    + split; intros [v H]; exists v; congruence.
    + split; intros [v H]; discriminate.
  - intros q params e. apply execute_query_raise_keeps, W.
  - intros vid vname other I K B.
    destruct (run_insert_division (enforcing st) dv ts ps ms ss vid vname other I K) as [v R].
    exists v. apply X; [exact B | reflexivity | rewrite S; exact R].
  - intros vid vdate vdiv vt1 vt2 vs1 vs2 K B.
    destruct (run_insert_match (enforcing st) dv ts ps ms ss vid vdate vdiv vt1 vt2 vs1 vs2 K)
      as [v R].
    exists v. apply X; [exact B | reflexivity | rewrite S; exact R].
  - intros vid vp vm va vg other I Kp Km B.
    destruct (run_insert_player_stat (enforcing st) dv ts ps ms ss vid vp vm va vg other I Kp Km)
      as [v R].
    exists v. apply X; [exact B | reflexivity | rewrite S; exact R].
Qed.

Lemma constraint_violations_raise_witness :
  manager_inv sample_state /\
  seen sample_state = netball_db division_rows team_rows player_rows match_rows stat_rows /\
  typed (seen sample_state) = true /\
  violates (enforcing sample_state) (seen sample_state) (tbl divisions_def division_rows)
    [VInt 9; VText "Division 1"] /\
  (exists v, fst (execute_query insert_division (Some [VInt 9; VText "Division 1"])
                    sample_state) =
             Raise (sqlite3_Error (IntegrityError v))) /\
  (exists v, fst (execute_query insert_match
                    (Some [VInt 9; VText "2024-02-01"; VInt 1; VInt 1; VInt 1;
                           VInt 0; VInt 0]) sample_state) =
             Raise (sqlite3_Error (IntegrityError v))) /\
  (exists v, fst (execute_query insert_player_stat
                    (Some [VInt 9; VInt 1; VInt 1; VInt 10; VInt 8]) sample_state) =
             Raise (sqlite3_Error (IntegrityError v))).
Proof.
  assert (W : manager_inv sample_state).
  { vm_compute. split; [constructor | eexists; split; reflexivity]. }
  assert (S : seen sample_state =
              netball_db division_rows team_rows player_rows match_rows stat_rows)
    by (vm_compute; reflexivity).
  assert (T : typed (seen sample_state) = true) by (vm_compute; reflexivity).
  split; [exact W|]. split; [exact S|]. split; [exact T|].
  destruct (constraint_violations_raise sample_state division_rows team_rows player_rows
              match_rows stat_rows W S T) as (V & _ & D & M & P).
  assert (HD : exists v, fst (execute_query insert_division
                                (Some [VInt 9; VText "Division 1"]) sample_state) =
                         Raise (sqlite3_Error (IntegrityError v))).
  { apply (D (VInt 9) (VText "Division 1") [VInt 2; VText "Division 1"]).
    - vm_compute. right. left. reflexivity.
    - reflexivity.
    - reflexivity. }
  split; [|split; [exact HD|split]].
  - apply (V (tbl divisions_def division_rows) ["id"; "name"] [Param 0; Param 1]
             (Some [VInt 9; VText "Division 1"]) [VInt 9; VText "Division 1"]).
    + rewrite S. repeat split; vm_compute; reflexivity.
    + reflexivity.
    + reflexivity.
    + exact HD.
  - apply (M (VInt 9) (VText "2024-02-01") (VInt 1) (VInt 1) (VInt 1) (VInt 0) (VInt 0)).
    + reflexivity.
    + reflexivity.
  - apply (P (VInt 9) (VInt 1) (VInt 1) (VInt 10) (VInt 8)
             [VInt 1; VInt 1; VInt 1; VInt 15; VInt 12; VInt 0; VInt 0; VInt 0; VInt 0; VInt 2]).
    + vm_compute. left. reflexivity.
    + reflexivity.
    + reflexivity.
    + reflexivity.
Defined.

(** ** The sample data *)

Lemma insert_sample_data_loop st :
  insert_sample_data st = for_each sample_inserts run_one st.
Proof.
  unfold sample_inserts, insert_sample_data.
  rewrite for_each_app. apply bind_ext. intros _ s1.
  rewrite for_each_app. apply bind_ext. intros _ s2.
  rewrite for_each_app. apply bind_ext. intros _ s3.
  rewrite for_each_app. apply bind_ext. intros _ s4.
  reflexivity.
Qed.

Lemma insert_sample_data_opened st :
  manager_inv st -> insert_sample_data st = insert_sample_data (opened st).
Proof.
  intros W. rewrite !insert_sample_data_loop.
  change (for_each sample_inserts run_one)
    with (bind (bind (execute_query (insert_or_ignore "divisions" ["id"; "name"])
                        (Some [VInt 1; VText "Premier Division"]))
                     (fun _ => ret tt))
               (fun _ => for_each (tl sample_inserts) run_one)).
  apply bind_opened, bind_opened, execute_query_opened, W.
Qed.

Lemma sample_inserts_not_pragma :
  Forall (fun sp => is_pragma (fst sp) = false /\ bindable (fst sp) (snd sp) = true)
         sample_inserts.
Proof. repeat constructor. Qed.

Lemma grows_refl db : grows db db.
Proof. induction db; constructor; auto. split; [reflexivity | apply incl_refl]. Qed.

Lemma grows_trans a b c : grows a b -> grows b c -> grows a c.
Proof.
  intros H. revert c. induction H as [|x y l l' [D I] _ IH]; intros c G; inversion G; subst.
  - constructor.
  - constructor; [|apply IH; assumption].
    destruct H1 as [D' I']. split; [congruence | eapply incl_tran; eauto].
Qed.

Lemma grows_find db db' n :
  grows db db' ->
  match find_table db n with
  | Some tb => exists tb', find_table db' n = Some tb' /\ tdef tb' = tdef tb /\
                           incl (trows tb) (trows tb')
  | None => find_table db' n = None
  end.
Proof.
  unfold find_table. induction 1 as [|x y l l' [D I] _ IH]; cbn [find]; [reflexivity|].
  unfold named. rewrite <- D. destruct (same_name (tname (tdef x)) n).
  - exists y. auto.
  - exact IH.
Qed.

Lemma grows_set_rows db n tb r :
  find_table db n = Some tb -> grows db (set_rows db n (trows tb ++ [r])).
Proof.
  unfold find_table. induction db as [|x db IH]; cbn [find set_rows]; [discriminate|].
  destruct (named n x) eqn:N.
  - intros [= <-]. constructor; [|apply grows_refl].
    split; [reflexivity | apply incl_appl, incl_refl].
  - intros F. constructor; [|apply IH, F]. split; [reflexivity | apply incl_refl].
Qed.

Lemma find_set_rows db n tb rs :
  find_table db n = Some tb ->
  find_table (set_rows db n rs) n = Some {| tdef := tdef tb; trows := rs |}.
Proof.
  unfold find_table. induction db as [|x db IH]; cbn [find set_rows]; [discriminate|].
  destruct (named n x) eqn:N.
  - intros [= <-]. cbn [find]. unfold named in *. cbn [tdef]. rewrite N. reflexivity.
  - intros F. cbn [find]. rewrite N. apply IH, F.
Qed.

Lemma grows_parent_missing db db' td :
  grows db db' -> parent_missing db' td = parent_missing db td.
Proof.
  intros G. unfold parent_missing. f_equal.
  induction (tfks td) as [|f fs IH]; simpl; [reflexivity|].
  pose proof (grows_find db db' (fk_table f) G) as H.
  destruct (find_table db (fk_table f)) as [tb|].
  - destruct H as (tb' & -> & _). exact IH.
  - rewrite H. reflexivity.
Qed.

Lemma assign_rowid_explicit td rows r : explicit_key td r -> assign_rowid td rows r = inr r.
Proof. intros (pk & z & P & F). unfold assign_rowid. rewrite P, F. reflexivity. Qed.

Lemma ready_grows fk db db' sp tb r :
  ready fk db sp tb r -> grows db db' ->
  exists tb', ready fk db' sp tb' r /\ tdef tb' = tdef tb /\ incl (trows tb) (trows tb').
Proof.
  intros (cols & vals & Q & R & K & (F & M & L & O & P & A & _)) G.
  pose proof (grows_find db db' (tname (tdef tb)) G) as H. rewrite F in H.
  destruct H as (tb' & F' & D & I). exists tb'. split; [|auto].
  exists cols, vals. unfold inserts. rewrite D. repeat split; auto.
  - destruct fk; [|reflexivity]. rewrite (grows_parent_missing _ _ _ G). exact P.
  - rewrite <- R. apply assign_rowid_explicit, K.
Qed.

Lemma local_violation_incl td rows rows' r :
  incl rows rows' -> local_violation td rows r <> None ->
  local_violation td rows' r <> None.
Proof.
  intros I. rewrite !local_violation_iff.
  intros [H|[H|[H|H]]]; auto.
  - right; right; left. destruct H as (pk & r' & P & Ir & K). exists pk, r'. auto.
  - right; right; right. destruct H as (u & r' & Iu & Ir & K). exists u, r'. auto.
Qed.

Lemma settled_grows fk db db' sp : settled fk db sp -> grows db db' -> settled fk db' sp.
Proof.
  intros (tb & r & R & V) G.
  destruct (ready_grows _ _ _ _ _ _ R G) as (tb' & R' & D & I).
  exists tb', r. split; [exact R'|]. rewrite D. eapply local_violation_incl; eauto.
Qed.

Lemma settled_run fk db sp :
  settled fk db sp -> run fk db (fst sp) (snd sp) = done db 0.
Proof.
  intros (tb & r & (cols & vals & Q & _ & _ & I) & V).
  rewrite Q, (run_insert _ _ _ _ _ _ _ _ I).
  destruct (local_violation _ _ r); [reflexivity | congruence].
Qed.

Lemma ready_run fk db sp tb r out :
  ready fk db sp tb r -> run fk db (fst sp) (snd sp) = inr out ->
  grows db (out_db out) /\ settled fk (out_db out) sp.
Proof.
  intros R E. pose proof R as (cols & vals & Q & Rr & K & I).
  rewrite Q, (run_insert _ _ _ _ _ _ _ _ I) in E.
  destruct (local_violation (tdef tb) (trows tb) r) as [v|] eqn:V.
  - injection E as <-. simpl. split; [apply grows_refl|].
    exists tb, r. split; [exact R | congruence].
  - destruct (fk && _); [discriminate|]. injection E as <-. simpl.
    destruct I as (F & I').
    pose proof (grows_set_rows db _ tb r F) as G. split; [exact G|].
    destruct (ready_grows _ _ _ _ _ _ R G) as (tb' & R' & D & _).
    exists tb', r. split; [exact R'|].
    destruct R' as (_ & _ & _ & _ & _ & (F' & _)).
    rewrite D, (find_set_rows _ _ _ _ F) in F'. injection F' as <-. simpl.
    apply local_violation_iff. right; right; left.
    destruct K as (pk & z & P & Fz). exists pk, r.
    split; [exact P|]. split; [apply in_or_app; right; left; reflexivity|].
    unfold col_of. rewrite Fz. unfold same_key. simpl. rewrite Z.eqb_refl. reflexivity.
Qed.

(** Once every statement of a list is settled, running the list changes
    nothing. *)
Lemma run_all_settled fk db l :
  Forall (settled fk db) l -> run_all fk db l = inr db.
Proof.
  induction 1 as [|sp l S _ IH]; simpl; [reflexivity|].
  rewrite (settled_run _ _ _ S). simpl. exact IH.
Qed.

(** Running a list of ready statements settles each of them. *)
Lemma run_all_settles fk l : forall db db',
  Forall (fun sp => exists tb r, ready fk db sp tb r) l ->
  run_all fk db l = inr db' ->
  grows db db' /\ Forall (settled fk db') l.
Proof.
  induction l as [|sp l IH]; intros db db' R E.
  - simpl in E. injection E as <-. split; [apply grows_refl | constructor].
  - simpl in E. inversion R as [|? ? (tb & r & Rsp) Rl]; subst.
    destruct (run fk db (fst sp) (snd sp)) as [e|out] eqn:Er; [discriminate|].
    destruct (ready_run _ _ _ _ _ _ Rsp Er) as [G S].
    assert (Rl' : Forall (fun sp0 => exists tb0 r0, ready fk (out_db out) sp0 tb0 r0) l).
    { eapply List.Forall_impl; [|exact Rl]. intros sp0 (tb0 & r0 & R0).
      destruct (ready_grows _ _ _ _ _ _ R0 G) as (tb' & R' & _). eauto. }
    destruct (IH _ _ Rl' E) as [G' S']. split; [eapply grows_trans; eauto|].
    constructor; [eapply settled_grows; eauto | exact S'].
Qed.

Ltac solve_ready fk tb :=
  exists tb; eexists; eexists; eexists;
  split; [reflexivity|]; split; [reflexivity|];
  split; [eexists; eexists; split; reflexivity|];
  repeat split; try reflexivity; destruct fk; reflexivity.

Lemma sample_inserts_ready fk dv ts ps ms ss :
  Forall (fun sp => exists tb r, ready fk (netball_db dv ts ps ms ss) sp tb r)
         sample_inserts.
Proof.
  let l := eval vm_compute in sample_inserts in change sample_inserts with l.
  repeat (apply List.Forall_cons;
          [first [ solve_ready fk (tbl divisions_def dv)
                 | solve_ready fk (tbl teams_def ts)
                 | solve_ready fk (tbl players_def ps)
                 | solve_ready fk (tbl matches_def ms)
                 | solve_ready fk (tbl player_stats_def ss) ] |]).
  apply List.Forall_nil.
Qed.

Lemma run_all_empty_tables fk :
  run_all fk (netball_db [] [] [] [] []) sample_inserts = inr sample_db.
Proof. destruct fk; vm_compute; reflexivity. Qed.

(** C7.  [insert_sample_data] issues INSERT OR IGNORE statements only.  On
    the empty declared tables it returns and stores exactly the fixture:
    3 divisions, 4 teams, 6 players, 2 matches, 6 statistics.  On the
    declared schema, whenever a call returns, it has issued exactly these
    statements, and the next call returns too and leaves every table as the
    first call left it. *)
Theorem insert_sample_data_idempotent (st : State) :
  manager_inv st ->
  map tdef (seen st) = declared ->
  (map (fun tb => (tname (tdef tb), length (trows tb))) sample_db =
     [("divisions", 3); ("teams", 4); ("players", 6); ("matches", 2);
      ("player_stats", 6)]%nat /\
   forallb is_insert_or_ignore sample_inserts = true) /\
  (seen st = netball_db [] [] [] [] [] ->
   exists st1,
     insert_sample_data st = (Return tt, st1) /\ disk (world st1) = sample_db) /\
  (forall st1,
     insert_sample_data st = (Return tt, st1) ->
     trace (world st1) = trace (world st) ++ connect_log st ++ sample_inserts /\
     exists st2,
       insert_sample_data st1 = (Return tt, st2) /\
       disk (world st2) = disk (world st1)).
Proof.
  intros W S.
  destruct (opened_state_with st W) as (h & c & Fc & Kc & Vc & O).
  pose proof (for_each_run_one_first st h c (next_handle (world (opened st)))
                (hd (PragmaForeignKeys true, []) sample_inserts) (tl sample_inserts)
                (disk (world st)) (connect_log st) sample_inserts_not_pragma) as H.
  change (hd (PragmaForeignKeys true, []) sample_inserts :: tl sample_inserts)
    with sample_inserts in H.
  rewrite Vc in H.
  split; [split; reflexivity|]. split.
  - intros E. rewrite E, run_all_empty_tables in H.
    rewrite (insert_sample_data_opened st W), insert_sample_data_loop, O, H.
    eexists. split; reflexivity.
  - intros st1 E1.
    rewrite (insert_sample_data_opened st W), insert_sample_data_loop, O in E1.
    destruct (run_all (foreign_keys c) (seen st) sample_inserts) as [e|db1] eqn:RA.
    + rewrite E1 in H. discriminate H.
    + rewrite H in E1. injection E1 as <-. split; [reflexivity|].
      destruct (schema_netball _ S) as (dv & ts & ps & ms & ss & N).
      rewrite N in RA.
      destruct (run_all_settles _ _ _ _ (sample_inserts_ready _ dv ts ps ms ss) RA)
        as [_ St].
      rewrite insert_sample_data_loop.
      pose proof (for_each_run_one st h c (foreign_keys c)
                    (next_handle (world (opened st))) sample_inserts
                    sample_inserts_not_pragma db1
                    (connect_log st ++ sample_inserts)) as H2.
      rewrite (run_all_settled _ _ _ St) in H2. rewrite H2.
      eexists. split; reflexivity.
Qed.

Lemma insert_sample_data_idempotent_witness :
  manager_inv (snd (create_tables (new_state "netball_stats.db"))) /\
  map tdef (seen (snd (create_tables (new_state "netball_stats.db")))) = declared /\
  exists st1,
    insert_sample_data (snd (create_tables (new_state "netball_stats.db"))) =
      (Return tt, st1) /\
    disk (world st1) = sample_db.
Proof.
  assert (W : manager_inv (snd (create_tables (new_state "netball_stats.db")))).
  { vm_compute. split; [constructor | eexists; split; reflexivity]. }
  assert (S : map tdef (seen (snd (create_tables (new_state "netball_stats.db")))) = declared).
  { vm_compute. reflexivity. }
  split; [exact W|]. split; [exact S|].
  apply (insert_sample_data_idempotent
           (snd (create_tables (new_state "netball_stats.db"))) W S).
  vm_compute. reflexivity.
Defined.

(** ** sqlite_master *)

Lemma run_names_query fk db :
  run fk db names_query [] =
    inr {| out_db := db; out_rowcount := -1; out_columns := ["name"];
           out_rows := map (project master_cols (Columns ["name"]))
                           (sort_by name_of (List.filter listed (master_rows db))) |}.
Proof. reflexivity. Qed.

Lemma run_exists_query fk db n :
  run fk db exists_query [VText n] =
    inr {| out_db := db; out_rowcount := -1; out_columns := ["name"];
           out_rows := map (project master_cols (Columns ["name"]))
                           (List.filter (is_table n) (master_rows db)) |}.
Proof. reflexivity. Qed.

Lemma in_insert_sorted key r x l : In r (insert_sorted key x l) <-> r = x \/ In r l.
Proof.
  induction l as [|y l IH]; simpl.
  - split; intros [H|H]; auto.
  - destruct (value_leb (key x) (key y)); simpl.
    + split; intros [H|H]; auto.
    + rewrite IH. split; intros H; tauto.
Qed.

Lemma in_sort_by key r l : In r (sort_by key l) <-> In r l.
Proof.
  unfold sort_by. induction l as [|x l IH]; simpl; [reflexivity|].
  rewrite in_insert_sorted, IH. split; intros [H|H]; auto.
Qed.

Lemma in_master_rows db r :
  In r (master_rows db) <->
  exists tb, In tb db /\
    (r = [VText "table"; VText (tname (tdef tb)); VText (tname (tdef tb))] \/
     exists k, r = [VText "index"; VText (autoindex_name (tname (tdef tb)) k);
                    VText (tname (tdef tb))] /\
               In k (seq 1 (length (tuniques (tdef tb))))).
Proof.
  unfold master_rows. rewrite in_flat_map. split.
  - intros (tb & I & [H|H]); exists tb; (split; [exact I|]); [left; auto|].
    right. apply in_map_iff in H. destruct H as (k & <- & Ik). eauto.
  - intros (tb & I & [->|(k & -> & Ik)]); exists tb; (split; [exact I|]).
    + left. reflexivity.
    + right. apply in_map_iff. eauto.
Qed.

Lemma listed_table n :
  listed [VText "table"; VText n; VText n] = negb (like "sqlite_%" n).
Proof. unfold listed, holds. cbn -[like]. destruct (like "sqlite_%" n); reflexivity. Qed.

Lemma is_table_table n m :
  is_table n [VText "table"; VText m; VText m] = String.eqb m n.
Proof. unfold is_table, holds. cbn. destruct (String.eqb m n); reflexivity. Qed.

Lemma in_table_names db n :
  In n (table_names db) <-> exists tb, In tb db /\ tname (tdef tb) = n.
Proof. unfold table_names. rewrite in_map_iff. split; intros (tb & A & B); eauto. Qed.

Lemma listed_names db n :
  (exists r, In r (sort_by name_of (List.filter listed (master_rows db))) /\
             name_of r = VText n) <->
  In n (table_names db) /\ like "sqlite_%" n = false.
Proof.
  rewrite in_table_names. split.
  - intros (r & I & N). apply in_sort_by, filter_In in I. destruct I as [I L].
    apply in_master_rows in I. destruct I as (tb & Itb & [->|(k & -> & _)]).
    + rewrite listed_table in L. injection N as <-.
      split; [eauto|]. destruct (like _ _); [discriminate | reflexivity].
    + discriminate L.
  - intros ((tb & I & <-) & L).
    exists [VText "table"; VText (tname (tdef tb)); VText (tname (tdef tb))].
    split; [|reflexivity]. apply in_sort_by, filter_In. split.
    + apply in_master_rows. eauto.
    + rewrite listed_table, L. reflexivity.
Qed.

Lemma is_table_rows db n :
  List.filter (is_table n) (master_rows db) <> [] <-> In n (table_names db).
Proof.
  rewrite in_table_names. split.
  - intros H. destruct (List.filter (is_table n) (master_rows db)) as [|r l] eqn:F;
      [congruence|].
    assert (I : In r (List.filter (is_table n) (master_rows db))) by (rewrite F; left; auto).
    apply filter_In in I. destruct I as [I T].
    apply in_master_rows in I. destruct I as (tb & Itb & [->|(k & -> & _)]).
    + rewrite is_table_table in T. apply String.eqb_eq in T. eauto.
    + discriminate T.
  - intros (tb & I & <-) E.
    assert (X : In [VText "table"; VText (tname (tdef tb)); VText (tname (tdef tb))]
                   (List.filter (is_table (tname (tdef tb))) (master_rows db))).
    { apply filter_In. split; [apply in_master_rows; eauto|].
      rewrite is_table_table. apply String.eqb_refl. }
    rewrite E in X. exact X.
Qed.

Lemma comprehension_names rs (st : State) :
  comprehension (map (make_row sqlite3_Row ["name"])
                     (map (project master_cols (Columns ["name"])) rs))
    (fun table => getitem table "name") st =
  (Return (map name_of rs), st).
Proof.
  induction rs as [|r rs IH]; [reflexivity|].
  cbn [map comprehension]. unfold bind at 1.
  change (getitem (make_row sqlite3_Row ["name"] (project master_cols (Columns ["name"]) r))
            "name" st) with (@Return value (name_of r), st).
  cbv beta iota. unfold bind at 1. rewrite IH. reflexivity.
Qed.

Lemma like_percent s : like "%" s = true.
Proof. induction s as [|c s IH]; [reflexivity|]. cbn in *. rewrite IH. reflexivity. Qed.

Lemma prefix_like n : String.prefix "sqlite_" n = true -> like "sqlite_%" n = true.
Proof.
  destruct n as [|c1 [|c2 [|c3 [|c4 [|c5 [|c6 [|c7 n]]]]]]]; cbn [String.prefix];
    repeat match goal with
           | |- context [ascii_dec ?a ?b] => destruct (ascii_dec a b); try discriminate
           end; try discriminate.
  subst. intros _. change (like "sqlite_%" (String "s" (String "q" (String "l" (String "i"
    (String "t" (String "e" (String "_" n)))))))) with (like "%" n). apply like_percent.
Qed.

Lemma get_table_names_result st :
  manager_inv st ->
  fst (get_table_names st) =
    Return (map name_of (sort_by name_of (List.filter listed (master_rows (seen st))))).
Proof.
  intros W. destruct (inv_opened st W) as (h & c & _ & Co & Mo & Fo & _ & Vo & _).
  unfold get_table_names. fold names_query. unfold bind.
  rewrite (fetch_all_opened _ _ _ W), (fetch_all_connected _ _ _ _ _ Co Mo).
  change (bound None) with (@nil value).
  rewrite (answer_run _ _ names_query [] eq_refl), run_names_query, Vo.
  assert (P : prepare (foreign_keys c) (seen st) names_query = None).
  { destruct (prepare _ _ _) as [e|] eqn:P; [|reflexivity].
    apply (prepare_run _ _ _ []) in P. rewrite run_names_query in P. discriminate. }
  rewrite P. cbn [lift].
  unfold rows_of. rewrite Fo. cbn [out_columns out_rows].
  rewrite comprehension_names. reflexivity.
Qed.

Lemma table_exists_result st n :
  manager_inv st ->
  fst (table_exists n st) =
    Return (match List.filter (is_table n) (master_rows (seen st)) with
            | [] => false
            | _ :: _ => true
            end).
Proof.
  intros W. destruct (inv_opened st W) as (h & c & _ & Co & Mo & Fo & _ & Vo & _).
  unfold table_exists. fold exists_query. unfold bind.
  rewrite (fetch_one_opened _ _ _ W), (fetch_one_connected _ _ _ _ _ Co Mo).
  change (bound (Some [VText n])) with [VText n].
  rewrite (answer_run _ _ exists_query [VText n] eq_refl), run_exists_query, Vo.
  assert (P : prepare (foreign_keys c) (seen st) exists_query = None).
  { destruct (prepare _ _ _) as [e|] eqn:P; [|reflexivity].
    apply (prepare_run _ _ _ [VText n]) in P. rewrite run_exists_query in P. discriminate. }
  rewrite P. cbn [lift].
  unfold rows_of. cbn [out_columns out_rows].
  destruct (List.filter (is_table n) (master_rows (seen st))); reflexivity.
Qed.

(** C10.  The two operations on a database whose only table is the user
    table sqlitex, a name that does not begin with sqlite_: [table_exists]
    answers true, and [get_table_names], documented to return all table
    names, returns the empty list.  In the pattern 'sqlite_%' the
    underscore is not escaped and stands for any one character, so that the
    pattern matches sqlitex.  After [create_tables] on that database the
    list holds the five tables of the schema and still not sqlitex, while
    teams is both listed and found by [table_exists].  The catalog is not
    a row of itself: [table_exists] is false of sqlite_master. *)
Lemma table_exists_disagrees_off_prefix :
  manager_inv sqlitex_state /\
  table_names (seen sqlitex_state) = ["sqlitex"] /\
  String.prefix "sqlite_" "sqlitex" = false /\
  like "sqlite_%" "sqlitex" = true /\
  fst (table_exists "sqlitex" sqlitex_state) = Return true /\
  fst (get_table_names sqlitex_state) = Return [] /\
  fst (table_exists "sqlite_master" sqlitex_state) = Return false /\
  fst (table_exists "teams" (snd (create_tables sqlitex_state))) = Return true /\
  fst (get_table_names (snd (create_tables sqlitex_state))) =
    Return [VText "divisions"; VText "matches"; VText "player_stats"; VText "players";
            VText "teams"].
Proof.
  split; [vm_compute; split; [constructor | eexists; split; reflexivity]|].
  vm_compute. repeat split.
Qed.

(** X23.  [table_exists n] is true exactly when a table is stored under
    the name [n], letter for letter.  [get_table_names] lists exactly the
    stored tables whose name does not match the LIKE pattern 'sqlite_%',
    in which the underscore stands for any one character and letters match
    in either case.  So the two disagree on every stored table whose name
    matches the pattern, which includes every name beginning with sqlite_,
    and agree on all other names. *)
Theorem table_exists_and_get_table_names (st : State) (n : string) :
  manager_inv st ->
  exists b names,
    fst (table_exists n st) = Return b /\
    fst (get_table_names st) = Return names /\
    (b = true <-> In n (table_names (seen st))) /\
    (In (VText n) names <-> In n (table_names (seen st)) /\ like "sqlite_%" n = false) /\
    (In n (table_names (seen st)) -> like "sqlite_%" n = true ->
     b = true /\ ~ In (VText n) names) /\
    (like "sqlite_%" n = false -> (b = true <-> In (VText n) names)) /\
    (String.prefix "sqlite_" n = true -> like "sqlite_%" n = true).
Proof.
  intros W. eexists. eexists.
  split; [apply table_exists_result, W|]. split; [apply get_table_names_result, W|].
  assert (B : (match List.filter (is_table n) (master_rows (seen st)) with
               | [] => false | _ :: _ => true end) = true <->
              In n (table_names (seen st))).
  { rewrite <- is_table_rows. destruct (List.filter _ _); split; congruence. }
  assert (N : In (VText n) (map name_of (sort_by name_of
                 (List.filter listed (master_rows (seen st))))) <->
              In n (table_names (seen st)) /\ like "sqlite_%" n = false).
  { rewrite <- listed_names, in_map_iff. split; intros (r & X & Y); eauto. }
  split; [exact B|]. split; [exact N|]. split; [|split].
  - intros I L. split; [apply B, I|]. intros H. apply N in H. destruct H as [_ H]. congruence.
  - intros L. rewrite B, N. tauto.
  - apply prefix_like.
Qed.

Lemma table_exists_and_get_table_names_witness :
  manager_inv sqlitex_state /\
  In "sqlitex" (table_names (seen sqlitex_state)) /\
  like "sqlite_%" "sqlitex" = true /\
  exists b names,
    fst (table_exists "sqlitex" sqlitex_state) = Return b /\
    fst (get_table_names sqlitex_state) = Return names /\
    b = true /\ ~ In (VText "sqlitex") names.
Proof.
  assert (W : manager_inv sqlitex_state).
  { vm_compute. split; [constructor | eexists; split; reflexivity]. }
  assert (I : In "sqlitex" (table_names (seen sqlitex_state)))
    by (vm_compute; left; reflexivity).
  split; [exact W|]. split; [exact I|]. split; [reflexivity|].
  destruct (table_exists_and_get_table_names sqlitex_state "sqlitex" W)
    as (b & names & B & N & _ & _ & D & _).
  exists b, names. split; [exact B|]. split; [exact N|]. exact (D I eq_refl).
Defined.

(* ================================================================== *)
(** * Further properties of the data-access layer *)
(* ================================================================== *)
(** ** The state after a call *)

Lemma bind_eq {S A B} (m : M S A) (k : A -> M S B) s :
  bind m k s =
    match m s with
    | (Return a, s') => k a s'
    | (Raise e, s') => (Raise e, s')
    end.
Proof. reflexivity. Qed.

Lemma opened_form st :
  manager_inv st ->
  exists h c next,
    (h < next)%nat /\
    row_factory c = sqlite3_Row /\
    foreign_keys c = enforcing st /\
    view (disk (world st)) c = seen st /\
    opened st = state_with st (disk (world st)) h c next (connect_log st).
Proof.
  intros W. destruct (opened_state_with st W) as (h & c & F & K & V & E).
  exists h, c, (next_handle (world (opened st))).
  repeat (split; [|try assumption]); try assumption.
  pose proof (inv_connect st W) as W'. rewrite E in W'. destruct W' as (L & _).
  cbn in L. rewrite E. exact L.
Qed.

Lemma seen_state_with st0 db h c next log :
  seen (state_with st0 db h c next log) = view db c.
Proof.
  unfold seen, current, state_with. cbn [self world connection conns].
  rewrite lookup_singleton_eq. reflexivity.
Qed.

Lemma enforcing_state_with st0 db h c next log :
  enforcing (state_with st0 db h c next log) = foreign_keys c.
Proof.
  unfold enforcing, current, state_with. cbn [self world connection conns].
  rewrite lookup_singleton_eq. reflexivity.
Qed.

Lemma execute_query_done q params st db' n :
  manager_inv st ->
  bindable q (bound params) = true ->
  run (enforcing st) (seen st) q (bound params) = done db' n ->
  exists st', execute_query q params st = (Return n, st') /\ disk (world st') = db'.
Proof.
  intros W B R. destruct (execute_query_run q params st W B) as (h & c & _ & _ & _ & ->).
  rewrite R. unfold done. eexists. split; reflexivity.
Qed.

Lemma execute_query_ok q params st db' n :
  manager_inv st -> is_pragma q = false ->
  bindable q (bound params) = true ->
  run (enforcing st) (seen st) q (bound params) = done db' n ->
  exists st',
    execute_query q params st = (Return n, st') /\
    disk (world st') = db' /\ manager_inv st' /\ seen st' = db' /\
    enforcing st' = enforcing st.
Proof.
  intros W P B R. pose proof (inv_execute_query q params st W) as W'.
  destruct (inv_opened st W) as (h & c & _ & C & E & _ & _ & V & K & _).
  rewrite (execute_query_opened q params st W) in *.
  rewrite (execute_query_connected q params _ h c C E), V, K, (answer_run _ _ _ _ B), R in *.
  unfold done in *. cbn [lift snd out_db out_rowcount] in *.
  eexists. split; [reflexivity|]. split; [reflexivity|]. split; [exact W'|].
  rewrite seen_state_with, enforcing_state_with. cbn [idle view pending foreign_keys].
  split; [reflexivity|]. rewrite <- K. destruct q; try reflexivity. discriminate.
Qed.

Lemma view_begun c db q : view db (begun c db q) = view db c.
Proof.
  unfold begun, view, in_transaction. destruct (pending c) eqn:P; simpl.
  - rewrite andb_false_r, P. reflexivity.
  - rewrite andb_true_r. destruct (is_dml q); simpl; [reflexivity|]. rewrite P. reflexivity.
Qed.

(** After [execute_query], whether it returned or raised. *)
Lemma execute_query_after q params st :
  manager_inv st -> is_pragma q = false ->
  manager_inv (snd (execute_query q params st)) /\
  enforcing (snd (execute_query q params st)) = enforcing st /\
  (seen st = disk (world st) ->
   seen (snd (execute_query q params st)) = disk (world (snd (execute_query q params st)))) /\
  disk (world (snd (execute_query q params st))) =
    match answer (enforcing st) (seen st) q (bound params) with
    | inr out => out_db out
    | inl _ => disk (world st)
    end.
Proof.
  intros W P. split; [apply inv_execute_query, W|].
  destruct (inv_opened st W) as (h & c & _ & C & E & _ & _ & V & K & D & _).
  rewrite (execute_query_opened q params st W).
  rewrite (execute_query_connected q params _ h c C E), V, K.
  assert (A : fk_after c q = enforcing st).
  { rewrite <- K. destruct q; try reflexivity. discriminate. }
  assert (V' : view (disk (world st)) c = seen st).
  { rewrite <- V, <- D. reflexivity. }
  destruct (answer (enforcing st) (seen st) q (bound params)) as [e|out]; cbn [snd];
    rewrite seen_state_with, enforcing_state_with.
  - destruct (is_sqlite3_Error e); cbn [idle view pending foreign_keys].
    + rewrite ?A, ?K, ?D. repeat split; reflexivity.
    + rewrite foreign_keys_begun, D, view_begun, V', K. cbn [state_with world disk].
      repeat split; auto.
  - cbn [idle view pending foreign_keys]. rewrite ?A, ?K, ?D; repeat split; reflexivity.
Qed.

(** What the manager reads after [execute_query]. *)
Lemma execute_query_seen q params st :
  manager_inv st ->
  seen (snd (execute_query q params st)) =
    match answer (enforcing st) (seen st) q (bound params) with
    | inr out => out_db out
    | inl e => if is_sqlite3_Error e then disk (world st) else seen st
    end.
Proof.
  intros W.
  destruct (inv_opened st W) as (h & c & _ & C & E & _ & _ & V & K & D & _).
  rewrite (execute_query_opened q params st W).
  rewrite (execute_query_connected q params _ h c C E), V, K.
  assert (V' : view (disk (world st)) c = seen st).
  { rewrite <- V, <- D. reflexivity. }
  destruct (answer (enforcing st) (seen st) q (bound params)) as [e|out]; cbn [snd];
    rewrite seen_state_with; [|reflexivity].
  destruct (is_sqlite3_Error e); [rewrite D; reflexivity|].
  rewrite D, view_begun. exact V'.
Qed.

Ltac bindable_tac :=
  unfold bindable; rewrite ?bound_some; cbn [forallb];
  repeat match goal with H : fits _ = true |- _ => rewrite H end;
  reflexivity.


(** When [execute_query] returns, the engine has run the statement. *)
Lemma execute_query_returned q params st k :
  manager_inv st ->
  fst (execute_query q params st) = Return k ->
  exists out,
    run (enforcing st) (seen st) q (bound params) = inr out /\
    bindable q (bound params) = true /\
    k = out_rowcount out /\
    disk (world (snd (execute_query q params st))) = out_db out /\
    seen (snd (execute_query q params st)) = out_db out.
Proof.
  intros W R. pose proof (execute_query_seen q params st W) as S.
  destruct (execute_query_answer q params st W) as (h & c & _ & _ & _ & E).
  rewrite E in *. clear E.
  destruct (answer _ _ q _) as [e|out] eqn:A; [discriminate|].
  apply answer_inr in A. destruct A as [A B]. injection R as <-.
  exists out. repeat split; auto.
Qed.

(** When the values can be bound, [execute_query] leaves no transaction
    open. *)
Lemma execute_query_settles q params st :
  manager_inv st ->
  bindable q (bound params) = true ->
  manager_inv (snd (execute_query q params st)) /\
  no_transaction (snd (execute_query q params st)).
Proof.
  intros W B. split; [apply inv_execute_query, W|].
  destruct (execute_query_run q params st W B) as (h & c & _ & _ & _ & ->).
  destruct (run _ _ _ _); cbn [snd]; intros h' c'; unfold state_with; cbn [world conns];
    intros L; apply lookup_singleton_Some in L; destruct L as (_ & <-); reflexivity.
Qed.

(** ** Fetching *)

Lemma fetch_one_head q params st :
  fetch_one q params st =
    (match fst (fetch_all q params st) with
     | Return rows => Return (head rows)
     | Raise e => Raise e
     end,
     snd (fetch_all q params st)).
Proof.
  unfold fetch_one, fetch_all. rewrite !bind_eq.
  destruct (connect st) as [[h|e] st1]; [|reflexivity].
  rewrite !bind_eq.
  destruct (engine (conn_cursor h) st1) as [[cur|e] st2]; [|reflexivity].
  unfold try_finally, try_except, cursor_close, fetchall, fetchone, ret, raise, bind.
  destruct (truthy params).
  - destruct (engine (cursor_execute cur q (tuple_of params)) st2) as [[cur'|e] st3];
      [reflexivity|]. destruct (is_sqlite3_Error e); reflexivity.
  - destruct (engine (cursor_execute cur q []) st2) as [[cur'|e] st3];
      [reflexivity|]. destruct (is_sqlite3_Error e); reflexivity.
Qed.

Lemma run_reads fk db q ps out :
  is_ddl q = false -> is_dml q = false -> run fk db q ps = inr out -> out_db out = db.
Proof.
  intros D M R. destruct q; try discriminate; simpl in R.
  - destruct (relation db from) as [[cols rows]|]; [|discriminate].
    destruct (missing_column _ _); [discriminate|].
    destruct (negb (where_ok cols where_)); [discriminate|].
    destruct (negb _); [discriminate|]. injection R as <-. reflexivity.
  - injection R as <-. reflexivity.
Qed.

Lemma begun_dml c db q :
  is_dml q = true -> pending (begun c db q) <> None.
Proof.
  intros D. unfold begun. rewrite D. simpl. unfold in_transaction.
  destruct (pending c) eqn:E; simpl; [rewrite E|]; discriminate.
Qed.

Lemma begun_not_dml c db q : is_dml q = false -> begun c db q = c.
Proof. intros D. unfold begun. rewrite D. reflexivity. Qed.

Lemma disk_fetched st h c q ps o :
  is_ddl q = false ->
  (forall out, o = Some out -> run (foreign_keys c) (visible (world st) c) q ps = inr out) ->
  disk (world (fetched st h c q ps o)) = disk (world st).
Proof.
  intros D R. unfold fetched. cbn [world]. destruct o as [out|]; [|reflexivity].
  specialize (R out eq_refl). unfold settle.
  destruct (is_dml q) eqn:M.
  - pose proof (begun_dml c (disk (world st)) q M) as B.
    destruct (pending (begun c (disk (world st)) q)); [reflexivity|congruence].
  - rewrite (begun_not_dml _ _ _ M).
    destruct (pending c) eqn:P; [reflexivity|]. cbn [with_conn with_disk disk logged].
    rewrite (run_reads _ _ _ _ _ D M R). unfold visible. rewrite P. reflexivity.
Qed.

Lemma seen_fetched st h c q ps out :
  connection (self st) = Some h ->
  seen (fetched st h c q ps (Some out)) = out_db out.
Proof.
  intros C. unfold seen, current, fetched. cbn [self world]. rewrite C.
  unfold settle.
  destruct (pending (begun c (disk (world st)) q)) eqn:P;
    cbn [with_conn with_disk conns]; rewrite lookup_insert_eq;
    unfold visible; cbn [pending disk]; reflexivity.
Qed.

Lemma fetch_all_run q params st :
  manager_inv st ->
  exists h c,
    connection (self (opened st)) = Some h /\
    conns (world (opened st)) = {[h := c]} /\
    row_factory c = sqlite3_Row /\
    foreign_keys c = enforcing st /\
    visible (world (opened st)) c = seen st /\
    disk (world (opened st)) = disk (world st) /\
    fetch_all q params st =
      match prepare (enforcing st) (seen st) q with
      | Some e => (Raise (sqlite3_Error e), refused (opened st) q (bound params))
      | None =>
          match answer (enforcing st) (seen st) q (bound params) with
          | inl e => (Raise e, fetched (opened st) h c q (bound params) None)
          | inr out =>
              (Return (rows_of c out), fetched (opened st) h c q (bound params) (Some out))
          end
      end.
Proof.
  intros W. destruct (inv_opened st W) as (h & c & _ & C & E & F & _ & V & K & D & _).
  exists h, c. repeat (split; [assumption|]).
  rewrite (fetch_all_opened q params st W), (fetch_all_connected q params _ h c C E), K, V.
  reflexivity.
Qed.

Lemma fetch_all_disk q params st :
  manager_inv st -> is_ddl q = false ->
  disk (world (snd (fetch_all q params st))) = disk (world st).
Proof.
  intros W D.
  destruct (fetch_all_run q params st W) as (h & c & C & E & _ & F & V & K & ->).
  destruct (prepare _ _ q); [exact K|].
  destruct (answer (enforcing st) (seen st) q (bound params)) as [e|out] eqn:R; cbn [snd].
  - rewrite disk_fetched; [exact K|exact D|discriminate].
  - rewrite disk_fetched; [exact K|exact D|].
    intros out' [= <-]. rewrite F, V. apply (answer_inr _ _ _ _ _ R).
Qed.

Lemma fetch_all_fst q params st :
  manager_inv st ->
  fst (fetch_all q params st) =
    match answer (enforcing st) (seen st) q (bound params) with
    | inl e => Raise e
    | inr out => Return (map (make_row sqlite3_Row (out_columns out)) (out_rows out))
    end.
Proof.
  intros W.
  destruct (fetch_all_run q params st W) as (h & c & _ & _ & F & _ & _ & _ & ->).
  destruct (prepare _ _ q) as [e|] eqn:P.
  - rewrite (answer_prepare _ _ _ _ _ P). reflexivity.
  - destruct (answer _ _ _ _); cbn [fst]; [reflexivity|].
    unfold rows_of. rewrite F. reflexivity.
Qed.

Lemma fetch_one_fst q params st :
  manager_inv st ->
  fst (fetch_one q params st) =
    match answer (enforcing st) (seen st) q (bound params) with
    | inl e => Raise e
    | inr out => Return (head (map (make_row sqlite3_Row (out_columns out)) (out_rows out)))
    end.
Proof.
  intros W. rewrite fetch_one_head. cbn [fst]. rewrite (fetch_all_fst _ _ _ W).
  destruct (answer _ _ _ _); reflexivity.
Qed.

(** X1.  [fetch_one] returns the first of the rows that [fetch_all] returns
    for the same query and parameters, [None] when there is none, and
    raises what [fetch_all] raises; both leave the manager and the file in
    the same state. *)
Theorem fetch_one_is_first_of_fetch_all
    (q : stmt) (params : option (list value)) (st : State) :
  fetch_one q params st =
    (match fst (fetch_all q params st) with
     | Return rows => Return (head rows)
     | Raise e => Raise e
     end,
     snd (fetch_all q params st)).
Proof. apply fetch_one_head. Qed.

(** X2.  Through [fetch_all] and [fetch_one] an INSERT, a DELETE or a
    SELECT never reaches the file: the file is as it was before the call,
    whether the call returns or raises.  The rows that an INSERT or DELETE
    passed to a fetch has written are seen by the manager's next queries
    but are lost by [close].  The next [execute_query] commits them
    together with its own statement if that succeeds, and rolls them back
    if it fails with a [sqlite3.Error]; if it fails while binding, with
    [OverflowError], they stay as they are, neither committed nor rolled
    back. *)
Theorem fetch_never_commits (q : stmt) (params : option (list value)) (st : State) :
  manager_inv st ->
  target q <> None ->
  disk (world (snd (fetch_all q params st))) = disk (world st) /\
  snd (fetch_one q params st) = snd (fetch_all q params st) /\
  (forall out,
     answer (enforcing st) (seen st) q (bound params) = inr out ->
     seen (snd (fetch_all q params st)) = out_db out) /\
  disk (world (closed (snd (fetch_all q params st)))) = disk (world st) /\
  seen (closed (snd (fetch_all q params st))) = disk (world st) /\
  (forall q2 p2,
     match answer (enforcing (snd (fetch_all q params st)))
                  (seen (snd (fetch_all q params st))) q2 (bound p2) with
     | inr out2 =>
         disk (world (snd (execute_query q2 p2 (snd (fetch_all q params st))))) =
           out_db out2
     | inl e =>
         disk (world (snd (execute_query q2 p2 (snd (fetch_all q params st))))) =
           disk (world st) /\
         seen (snd (execute_query q2 p2 (snd (fetch_all q params st)))) =
           if is_sqlite3_Error e then disk (world st)
           else seen (snd (fetch_all q params st))
     end).
Proof.
  intros W T.
  assert (D : is_ddl q = false) by (destruct q; try reflexivity; exfalso; apply T; reflexivity).
  pose proof (inv_fetch_all q params st W) as W'.
  pose proof (fetch_all_disk q params st W D) as K.
  split; [exact K|]. split; [rewrite fetch_one_head; reflexivity|].
  split.
  { intros out R. destruct (fetch_all_run q params st W) as (h & c & C & _ & _ & _ & _ & _ & ->).
    destruct (prepare _ _ q) as [e|] eqn:P.
    - rewrite (answer_prepare _ _ _ _ _ P) in R. discriminate.
    - rewrite R. cbn [snd]. apply seen_fetched. exact C. }
  destruct (close_spec _ W') as (_ & CN & _ & CD & _).
  split; [rewrite CD; exact K|].
  split.
  { unfold seen, current. rewrite CN, CD. exact K. }
  intros q2 p2.
  pose proof (execute_query_seen q2 p2 _ W') as S2.
  destruct (execute_query_answer q2 p2 _ W') as (h & c & _ & _ & _ & E).
  rewrite E in *. clear E.
  destruct (answer _ _ q2 (bound p2)) as [e|out2]; cbn [snd state_with world disk] in *.
  - split; [exact K|]. rewrite S2, K. reflexivity.
  - reflexivity.
Qed.

Lemma fetch_never_commits_witness :
  manager_inv sample_state /\
  target insert_division <> None /\
  disk (world (snd (fetch_all insert_division (Some [VInt 7; VText "Division 7"])
                      sample_state))) = disk (world sample_state) /\
  seen (closed (snd (fetch_all insert_division (Some [VInt 7; VText "Division 7"])
                       sample_state))) = disk (world sample_state).
Proof.
  assert (W : manager_inv sample_state).
  { vm_compute. split; [lia|]. eexists. split; reflexivity. }
  assert (T : target insert_division <> None) by discriminate.
  pose proof (fetch_never_commits insert_division (Some [VInt 7; VText "Division 7"])
                sample_state W T) as (A & _ & _ & _ & B & _).
  exact (conj W (conj T (conj A B))).
Defined.

(** ** Row counts and errors *)







Lemma run_arity fk db q ps out :
  target q <> None -> run fk db q ps = inr out -> length ps = arity q.
Proof.
  intros T R. destruct q; try (exfalso; apply T; reflexivity); unfold run in R.
  - destruct (find_table db into) as [tb|]; [|discriminate].
    destruct (missing_column _ _); [discriminate|].
    destruct (negb (length vals =? length cols)%nat); [discriminate|].
    destruct (negb (forallb _ _)); [discriminate|].
    destruct (if fk then _ else _); [discriminate|].
    destruct (Nat.eqb_spec (length ps) (arity (Insert or_ignore into cols vals)));
      [assumption|discriminate].
  - destruct (find_table db from) as [tb|]; [|discriminate]. cbv zeta in R.
    destruct (negb (where_ok _ _)); [discriminate|].
    destruct (if fk then _ else _); [discriminate|].
    destruct (Nat.eqb_spec (length ps) (arity (Delete from where_)));
      [assumption|discriminate].
  - destruct (relation db from) as [[cols rows]|]; [|discriminate].
    destruct (missing_column _ _); [discriminate|].
    destruct (negb (where_ok _ _)); [discriminate|].
    destruct (Nat.eqb_spec (length ps) (arity (Select proj from where_ order_by)));
      [assumption|discriminate].
Qed.

(** X5.  An INSERT, DELETE or SELECT is never run with a number of bound
    values other than its number of placeholders: [execute_query],
    [fetch_all] and [fetch_one] raise a [sqlite3.Error] and the file is
    left as it was.  In particular a statement with placeholders fails
    when [params] is the empty tuple. *)
Theorem wrong_number_of_values_never_accepted
    (q : stmt) (params : option (list value)) (st : State) :
  manager_inv st ->
  target q <> None ->
  length (bound params) <> arity q ->
  (exists e, fst (execute_query q params st) = Raise (sqlite3_Error e)) /\
  (exists e, fst (fetch_all q params st) = Raise (sqlite3_Error e)) /\
  (exists e, fst (fetch_one q params st) = Raise (sqlite3_Error e)) /\
  disk (world (snd (execute_query q params st))) = disk (world st) /\
  disk (world (snd (fetch_all q params st))) = disk (world st).
Proof.
  intros W T N.
  destruct (answer_wrong_count (enforcing st) (seen st) q (bound params) N) as (e & R).
  assert (E : fst (execute_query q params st) = Raise (sqlite3_Error e)).
  { rewrite (execute_query_fst _ _ _ W), R. reflexivity. }
  split; [eauto|]. split; [exists e; rewrite (fetch_all_fst _ _ _ W), R; reflexivity|].
  split; [exists e; rewrite (fetch_one_fst _ _ _ W), R; reflexivity|].
  split; [exact (execute_query_raise_keeps _ _ _ _ W E)|].
  apply fetch_all_disk; [exact W|]. destruct q; try reflexivity; exfalso; apply T; reflexivity.
Qed.

Lemma wrong_number_of_values_never_accepted_witness :
  manager_inv sample_state /\
  target delete_team <> None /\
  length (bound (Some [])) <> arity delete_team /\
  exists e, fst (execute_query delete_team (Some []) sample_state) =
            Raise (sqlite3_Error e).
Proof.
  assert (W : manager_inv sample_state).
  { vm_compute. split; [constructor | eexists; split; reflexivity]. }
  assert (T : target delete_team <> None) by (vm_compute; discriminate).
  assert (N : length (bound (Some [])) <> arity delete_team) by (vm_compute; lia).
  destruct (wrong_number_of_values_never_accepted delete_team (Some []) sample_state W T N)
    as (A & _).
  exact (conj W (conj T (conj N A))).
Defined.

(** ** The with statement *)

Lemma with_eq {A} (body : manager -> M State A) st :
  with_ body st =
    match body (self st) st with
    | (Return a, st') => (Return (Some a), closed st')
    | (Raise e, st') => (Raise e, closed st')
    end.
Proof.
  unfold with_, __enter__, __exit__, get_self. rewrite bind_eq.
  destruct (body (self st) st) as [[a|e] st'];
    rewrite !bind_eq; destruct (close_total st') as (-> & _); reflexivity.
Qed.

Lemma inv_new_manager name st :
  conns (world st) = ∅ -> manager_inv (new_manager name st).
Proof. intros E. exact E. Qed.

(** X6.  A statement run by [execute_query] inside a [with] block is on the
    file after the block when it succeeded, and the file is unchanged when
    it failed (the error is raised out of the block).  After the block no
    connection is open, and a manager constructed afterwards for the same
    file reads exactly what the block left there. *)
Theorem with_block_keeps_committed_writes
    (q : stmt) (params : option (list value)) (st : State) :
  manager_inv st ->
  match answer (enforcing st) (seen st) q (bound params) with
  | inr out =>
      fst (with_ (fun _ => execute_query q params) st) = Return (Some (out_rowcount out)) /\
      disk (world (snd (with_ (fun _ => execute_query q params) st))) = out_db out
  | inl e =>
      fst (with_ (fun _ => execute_query q params) st) = Raise e /\
      disk (world (snd (with_ (fun _ => execute_query q params) st))) = disk (world st)
  end /\
  conns (world (snd (with_ (fun _ => execute_query q params) st))) = ∅ /\
  (forall name q2 p2,
     fst (fetch_all q2 p2
            (new_manager name (snd (with_ (fun _ => execute_query q params) st)))) =
       match answer true (disk (world (snd (with_ (fun _ => execute_query q params) st))))
                    q2 (bound p2) with
       | inl e => Raise e
       | inr out2 => Return (map (make_row sqlite3_Row (out_columns out2)) (out_rows out2))
       end) /\
  (forall fk db s ps,
     bindable s ps = true ->
     answer fk db s ps =
       match run fk db s ps with
       | inl e => inl (sqlite3_Error e)
       | inr out => inr out
       end).
Proof.
  intros W.
  assert (AR : forall fk db s ps,
            bindable s ps = true ->
            answer fk db s ps =
              match run fk db s ps with
              | inl e => inl (sqlite3_Error e)
              | inr out => inr out
              end).
  { intros fk db s ps B. rewrite (answer_run _ _ _ _ B). destruct (run _ _ s _); reflexivity. }
  rewrite with_eq.
  pose proof (inv_execute_query q params st W) as W1.
  destruct (close_spec _ W1) as (_ & _ & CE & CD & _).
  destruct (execute_query_answer q params st W) as (h & c & _ & _ & _ & E).
  assert (X : conns (world (closed (snd (execute_query q params st)))) = ∅ /\
              disk (world (closed (snd (execute_query q params st)))) =
                match answer (enforcing st) (seen st) q (bound params) with
                | inr out => out_db out
                | inl _ => disk (world st)
                end).
  { split; [exact CE|]. rewrite CD, E. destruct (answer _ _ _ _); reflexivity. }
  destruct X as (X1 & X2).
  assert (Y : fst (execute_query q params st) =
              match answer (enforcing st) (seen st) q (bound params) with
              | inr out => Return (out_rowcount out)
              | inl e => Raise e
              end).
  { rewrite E. destruct (answer _ _ _ _); reflexivity. }
  clear E. destruct (execute_query q params st) as [[n|e'] st1]; cbn [fst snd] in *.
  - destruct (answer (enforcing st) (seen st) q (bound params)) as [e|out];
      [discriminate|]. injection Y as ->.
    split; [split; [reflexivity|exact X2]|]. split; [exact X1|]. split; [|exact AR].
    intros name q2 p2. apply (fetch_all_fst q2 p2 (new_manager name (closed st1))).
    apply inv_new_manager, X1.
  - destruct (answer (enforcing st) (seen st) q (bound params)) as [e|out];
      [|discriminate]. injection Y as ->.
    split; [split; [reflexivity|exact X2]|]. split; [exact X1|]. split; [|exact AR].
    intros name q2 p2. apply (fetch_all_fst q2 p2 (new_manager name (closed st1))).
    apply inv_new_manager, X1.
Qed.

Lemma with_block_keeps_committed_writes_witness :
  manager_inv sample_state /\
  fst (with_ (fun _ => execute_query insert_team (Some [VText "Black Swans"; VInt 3]))
         sample_state) = Return (Some 1%Z) /\
  fst (fetch_all select_team_name (Some [VInt 5])
         (new_manager "netball_stats.db"
            (snd (with_ (fun _ => execute_query insert_team
                                    (Some [VText "Black Swans"; VInt 3]))
                    sample_state)))) =
    Return [Row [("name", VText "Black Swans")]].
Proof.
  assert (W : manager_inv sample_state).
  { vm_compute. split; [constructor | eexists; split; reflexivity]. }
  pose proof (with_block_keeps_committed_writes insert_team
                (Some [VText "Black Swans"; VInt 3]) sample_state W) as (_ & _ & A & _).
  specialize (A "netball_stats.db" select_team_name (Some [VInt 5])).
  split; [exact W|]. split; [vm_compute; reflexivity|].
  rewrite A. vm_compute. reflexivity.
Defined.

(** ** Rows only come and go *)

Lemma filter_all (l : list row) : List.filter (fun _ => true) l = l.
Proof. induction l as [|x l IH]; cbn [List.filter]; [reflexivity|]. f_equal. exact IH. Qed.

Lemma filter_filter (p q : row -> bool) l :
  List.filter q (List.filter p l) = List.filter (fun r => p r && q r) l.
Proof.
  induction l as [|x l IH]; cbn [List.filter]; [reflexivity|].
  destruct (p x); cbn [andb List.filter]; [destruct (q x)|]; rewrite IH; reflexivity.
Qed.

Lemma filter_none_in (p : row -> bool) l :
  (forall r, In r l -> p r = false) -> List.filter p l = [].
Proof.
  induction l as [|x l IH]; intros H; cbn [List.filter]; [reflexivity|].
  rewrite (H x (or_introl eq_refl)). apply IH. intros r I. apply H. right. exact I.
Qed.

Lemma without_none_in (p : row -> bool) l :
  (forall r, In r l -> p r = false) -> without p l = l.
Proof.
  unfold without. induction l as [|x l IH]; intros H; cbn [List.filter]; [reflexivity|].
  rewrite (H x (or_introl eq_refl)). cbn [negb]. f_equal. apply IH.
  intros r I. apply H. right. exact I.
Qed.

Lemma in_set_rows db n rs tb' :
  In tb' (set_rows db n rs) ->
  In tb' db \/ exists tb, find_table db n = Some tb /\ tb' = {| tdef := tdef tb; trows := rs |}.
Proof.
  unfold find_table. induction db as [|tb db IH]; cbn [set_rows find]; [intros []|].
  destruct (named n tb) eqn:E.
  - intros [<-|I]; [right; eauto|left; right; exact I].
  - intros [<-|I]; [left; left; reflexivity|].
    destruct (IH I) as [J|J]; [left; right; exact J|right; exact J].
Qed.

Lemma tdef_set_rows db n rs : map tdef (set_rows db n rs) = map tdef db.
Proof.
  induction db as [|tb db IH]; cbn [set_rows map]; [reflexivity|].
  destruct (named n tb); cbn [map tdef]; [reflexivity|]. rewrite IH. reflexivity.
Qed.

Lemma set_rows_same db n tb :
  find_table db n = Some tb -> set_rows db n (trows tb) = db.
Proof.
  unfold find_table. induction db as [|x db IH]; cbn [find set_rows]; [discriminate|].
  destruct (named n x).
  - intros [= <-]. destruct x. reflexivity.
  - intros F. rewrite (IH F). reflexivity.
Qed.

Lemma shrinks_refl db : shrinks db db.
Proof.
  induction db as [|tb db IH]; constructor; [|exact IH].
  split; [reflexivity|]. exists (fun _ => true). symmetry. apply filter_all.
Qed.

Lemma shrinks_trans a b c : shrinks a b -> shrinks b c -> shrinks a c.
Proof.
  intros H. revert c. induction H as [|x y a b (D & p & P) _ IH]; intros c K;
    inversion K as [|? z ? c' (D' & q & Q) K']; subst; constructor.
  - split; [congruence|]. exists (fun r => p r && q r).
    rewrite Q, P. apply filter_filter.
  - apply IH, K'.
Qed.

Lemma shrinks_set_rows db n tb keep :
  find_table db n = Some tb ->
  shrinks db (set_rows db n (List.filter keep (trows tb))).
Proof.
  unfold find_table. induction db as [|x db IH]; cbn [find set_rows]; [discriminate|].
  destruct (named n x).
  - intros [= <-]. constructor; [|apply shrinks_refl].
    split; [reflexivity|]. exists keep. reflexivity.
  - intros F. constructor; [|apply IH, F].
    split; [reflexivity|]. exists (fun _ => true). symmetry. apply filter_all.
Qed.

Lemma shrinks_tdef db db' : shrinks db db' -> map tdef db' = map tdef db.
Proof.
  induction 1 as [|tb tb' db db' (D & _) _ IH]; cbn [map]; [reflexivity|].
  rewrite IH, D. reflexivity.
Qed.

Lemma grows_tdef db db' : grows db db' -> map tdef db' = map tdef db.
Proof.
  induction 1 as [|tb tb' db db' (D & _) _ IH]; cbn [map]; [reflexivity|].
  rewrite IH, D. reflexivity.
Qed.

Lemma find_table_shrinks db db' n tb :
  shrinks db db' -> find_table db n = Some tb ->
  exists tb' keep,
    find_table db' n = Some tb' /\ tdef tb' = tdef tb /\
    trows tb' = List.filter keep (trows tb).
Proof.
  unfold find_table. induction 1 as [|x y db db' (D & keep & R) _ IH]; cbn [find];
    [discriminate|].
  unfold named at 1 3. rewrite <- D. fold (named n x).
  destruct (named n x).
  - intros [= <-]. exists y, keep. auto.
  - exact IH.
Qed.

Lemma fold_cascade_error continue pcols gone refs e :
  fold_left (cascade_through continue pcols gone) refs (inl e) = inl e.
Proof. induction refs as [|cf refs IH]; [reflexivity|exact IH]. Qed.

Lemma cascade_shrinks depth : forall db parent pcols gone db',
  cascade depth db parent pcols gone = inr db' -> shrinks db db'.
Proof.
  induction depth as [|d IHd]; intros db parent pcols gone db' C.
  - destruct gone; [|discriminate]. injection C as <-. apply shrinks_refl.
  - rewrite cascade_S in C. destruct gone as [|g gone]; [injection C as <-; apply shrinks_refl|].
    assert (F : forall refs db1,
              shrinks db db1 ->
              fold_left (cascade_through (cascade d) pcols (g :: gone)) refs (inr db1) =
                inr db' ->
              shrinks db db').
    { induction refs as [|cf refs IH]; intros db1 S1 E; cbn [fold_left] in E.
      - injection E as <-. exact S1.
      - unfold cascade_through at 2 in E.
        destruct (find_table db1 (fst cf)) as [tb|] eqn:Ft; [|exact (IH _ S1 E)].
        cbv zeta in E.
        destruct (cascade d _ (fst cf) (col_names (tdef tb)) _) as [e|db2] eqn:Cd.
        + rewrite fold_cascade_error in E. discriminate.
        + apply (IH db2); [|exact E].
          apply (shrinks_trans _ db1); [exact S1|].
          exact (shrinks_trans _ _ _
                   (shrinks_set_rows db1 (fst cf) tb
                      (fun r => negb (refers (col_names (tdef tb)) pcols (snd cf)
                                        (g :: gone) r)) Ft)
                   (IHd _ _ _ _ _ Cd)). }
    exact (F _ _ (shrinks_refl db) C).
Qed.

Lemma shrinks_find_none db db' n :
  shrinks db db' -> find_table db n = None -> find_table db' n = None.
Proof.
  unfold find_table. induction 1 as [|x y db db' (D & _) _ IH]; cbn [find]; [reflexivity|].
  unfold named at 1 3. rewrite <- D. fold (named n x).
  destruct (named n x); [discriminate|exact IH].
Qed.

Lemma shrinks_parent_missing db db' td :
  shrinks db db' -> parent_missing db' td = parent_missing db td.
Proof.
  intros G. unfold parent_missing. f_equal.
  induction (tfks td) as [|f fs IH]; cbn [find]; [reflexivity|].
  destruct (find_table db (fk_table f)) as [tb|] eqn:F.
  - destruct (find_table_shrinks _ _ _ _ G F) as (tb' & keep & -> & _). exact IH.
  - rewrite (shrinks_find_none _ _ _ G F). reflexivity.
Qed.

Lemma run_delete_shape fk db n w ps out :
  run fk db (Delete n w) ps = inr out ->
  exists tb,
    find_table db n = Some tb /\
    where_ok (col_names (tdef tb)) w = true /\
    length ps = where_arity w /\
    (if fk then parent_missing db (tdef tb) else None) = None.
Proof.
  unfold run. destruct (find_table db n) as [tb|]; [|discriminate].
  cbv zeta. destruct (where_ok (col_names (tdef tb)) w) eqn:O; [|discriminate].
  cbn [negb arity].
  destruct (if fk then _ else _) eqn:P; [discriminate|].
  destruct (Nat.eqb_spec (length ps) (where_arity w)) as [A|]; [|discriminate].
  intros _. exists tb. split; [reflexivity|]. split; [exact O|]. split; [exact A|exact P].
Qed.

Lemma run_delete_shrinks fk db n w ps out :
  run fk db (Delete n w) ps = inr out -> shrinks db (out_db out).
Proof.
  unfold run. destruct (find_table db n) as [tb|] eqn:F; [|discriminate]. cbv zeta.
  destruct (negb (where_ok _ _)); [discriminate|].
  destruct (if fk then _ else _); [discriminate|].
  destruct (negb _); [discriminate|].
  unfold delete_rows.
  pose proof (shrinks_set_rows db n tb
                (fun r => negb (holds (col_names (tdef tb)) ps w r)) F) as S.
  rewrite (set_rows_named _ _ _ _ F).
  destruct fk.
  - destruct (cascade _ _ _ _ _) as [e|db'] eqn:C; [discriminate|].
    intros [= <-]. cbn [out_db]. exact (shrinks_trans _ _ _ S (cascade_shrinks _ _ _ _ _ _ C)).
  - intros [= <-]. exact S.
Qed.

Lemma run_insert_appends fk db oi n cols vals ps out :
  run fk db (Insert oi n cols vals) ps = inr out ->
  out_db out = db \/
  exists tb r,
    find_table db n = Some tb /\
    local_violation (tdef tb) (trows tb) r = None /\
    out_db out = set_rows db n (trows tb ++ [r]).
Proof.
  cbn [run]. destruct (find_table db n) as [tb|] eqn:F; [|discriminate].
  destruct (missing_column _ _); [discriminate|].
  destruct (negb (length vals =? length cols)%nat); [discriminate|].
  destruct (negb (forallb _ _)); [discriminate|].
  destruct (if fk then _ else _); [discriminate|].
  destruct (negb _); [discriminate|].
  unfold insert. destruct (assign_rowid _ _ _) as [|r]; [discriminate|].
  destruct (local_violation _ _ _) eqn:V.
  - destruct oi; [|discriminate]. intros [= <-]. left. reflexivity.
  - destruct (fk && _); [discriminate|]. intros [= <-]. right.
    exists tb, r. cbn [out_db]. rewrite (set_rows_named _ _ _ _ F). auto.
Qed.

Lemma run_insert_grows fk db oi n cols vals ps out :
  run fk db (Insert oi n cols vals) ps = inr out -> grows db (out_db out).
Proof.
  intros R. destruct (run_insert_appends _ _ _ _ _ _ _ _ R) as [->|(tb & r & F & _ & ->)].
  - apply grows_refl.
  - apply grows_set_rows, F.
Qed.

(** X7.  On any database, an INSERT or INSERT OR IGNORE that
    [execute_query] runs only adds: every table keeps its definition and
    all its rows.  A DELETE, with its cascades, only removes: every table
    keeps its definition, and its remaining rows are rows it had, unchanged
    and in their order. *)
Theorem writes_only_add_or_remove_rows
    (params : option (list value)) (st : State) :
  manager_inv st ->
  (forall or_ignore into cols vals k,
     fst (execute_query (Insert or_ignore into cols vals) params st) = Return k ->
     grows (seen st)
           (disk (world (snd (execute_query (Insert or_ignore into cols vals) params st))))) /\
  (forall from where_ k,
     fst (execute_query (Delete from where_) params st) = Return k ->
     shrinks (seen st)
             (disk (world (snd (execute_query (Delete from where_) params st))))).
Proof.
  intros W. split.
  - intros oi n cols vals k R.
    destruct (execute_query_returned _ _ _ _ W R) as (out & E & _ & _ & D & _).
    rewrite D. exact (run_insert_grows _ _ _ _ _ _ _ _ E).
  - intros n w k R.
    destruct (execute_query_returned _ _ _ _ W R) as (out & E & _ & _ & D & _).
    rewrite D. exact (run_delete_shrinks _ _ _ _ _ _ E).
Qed.

Lemma writes_only_add_or_remove_rows_witness :
  manager_inv sample_state /\
  fst (execute_query delete_division (Some [VInt 1]) sample_state) = Return 1%Z /\
  shrinks (seen sample_state)
          (disk (world (snd (execute_query delete_division (Some [VInt 1]) sample_state)))).
Proof.
  assert (W : manager_inv sample_state).
  { vm_compute. split; [constructor | eexists; split; reflexivity]. }
  assert (R : fst (execute_query delete_division (Some [VInt 1]) sample_state) =
              Return 1%Z) by (vm_compute; reflexivity).
  destruct (writes_only_add_or_remove_rows (Some [VInt 1]) sample_state W) as (_ & D).
  exact (conj W (conj R (D "divisions" (Some (Eq (Col "id") (Param 0))) 1%Z R))).
Defined.

Lemma run_delete_again fk db n w ps out :
  run fk db (Delete n w) ps = inr out ->
  run fk (out_db out) (Delete n w) ps = done (out_db out) 0.
Proof.
  intros R. pose proof (run_delete_shrinks _ _ _ _ _ _ R) as S.
  destruct (run_delete_shape _ _ _ _ _ _ R) as (tb & F & O & A & P).
  assert (K : exists tb' keep,
            find_table (out_db out) n = Some tb' /\ tdef tb' = tdef tb /\
            trows tb' = List.filter keep
                          (List.filter (fun r => negb (holds (col_names (tdef tb)) ps w r))
                                       (trows tb))).
  { revert R. unfold run. rewrite F. cbv zeta. rewrite O, P. cbn [negb arity].
    rewrite A, Nat.eqb_refl. cbn [negb]. unfold delete_rows.
    rewrite (set_rows_named _ _ _ _ F).
    pose proof (find_set_rows db n tb
                  (List.filter (fun r => negb (holds (col_names (tdef tb)) ps w r))
                               (trows tb)) F) as F1.
    destruct fk.
    - destruct (cascade _ _ _ _ _) as [e|db'] eqn:C; [discriminate|].
      intros [= <-]. cbn [out_db].
      exact (find_table_shrinks _ _ _ _ (cascade_shrinks _ _ _ _ _ _ C) F1).
    - intros [= <-]. cbn [out_db]. eexists. exists (fun _ => true).
      split; [exact F1|]. split; [reflexivity|]. cbn [trows].
      symmetry. apply filter_all. }
  destruct K as (tb' & keep & F' & D' & R').
  unfold run. rewrite F'. cbv zeta. rewrite D', O. cbn [negb arity].
  replace (if fk then parent_missing (out_db out) (tdef tb) else None) with (@None string)
    by (destruct fk; [rewrite (shrinks_parent_missing _ _ _ S); symmetry; exact P
                     |reflexivity]).
  rewrite A, Nat.eqb_refl. cbn [negb].
  assert (G : List.filter (holds (col_names (tdef tb)) ps w) (trows tb') = []).
  { rewrite R', !filter_filter. apply filter_none_in. intros r _.
    destruct (holds (col_names (tdef tb)) ps w r); cbn; [reflexivity|].
    apply andb_false_r. }
  assert (H : List.filter (fun r => negb (holds (col_names (tdef tb)) ps w r)) (trows tb') =
              trows tb').
  { rewrite R', !filter_filter. apply List.filter_ext. intros r.
    destruct (holds (col_names (tdef tb)) ps w r); cbn; [reflexivity|].
    rewrite andb_true_r. reflexivity. }
  rewrite G, H. unfold delete_rows. rewrite (set_rows_named _ _ _ _ F').
  rewrite (set_rows_same _ _ _ F').
  destruct fk; [|reflexivity]. destruct trigger_depth; reflexivity.
Qed.

(** X8.  DELETE is idempotent.  When [execute_query] has run a DELETE, the
    same call again returns 0 and leaves the file as the first call left
    it. *)
Theorem delete_again_removes_nothing
    (from : string) (where_ : option cond) (params : option (list value))
    (st : State) (k : Z) :
  manager_inv st ->
  fst (execute_query (Delete from where_) params st) = Return k ->
  fst (execute_query (Delete from where_) params
         (snd (execute_query (Delete from where_) params st))) = Return 0%Z /\
  disk (world (snd (execute_query (Delete from where_) params
                      (snd (execute_query (Delete from where_) params st))))) =
    disk (world (snd (execute_query (Delete from where_) params st))).
Proof.
  intros W R.
  destruct (execute_query_after (Delete from where_) params st W eq_refl)
    as (W1 & F1 & _ & _).
  destruct (execute_query_returned _ _ _ _ W R) as (out & E & B & _ & D1 & S1).
  set (st1 := snd (execute_query (Delete from where_) params st)) in *.
  assert (E1 : run (enforcing st1) (seen st1) (Delete from where_) (bound params) =
               done (seen st1) 0).
  { rewrite S1, F1. exact (run_delete_again _ _ _ _ _ _ E). }
  destruct (execute_query_done _ _ _ _ _ W1 B E1) as (st2 & E2 & D2).
  rewrite E2. cbn [fst snd]. split; [reflexivity|]. rewrite D2, S1, D1. reflexivity.
Qed.

Lemma delete_again_removes_nothing_witness :
  manager_inv sample_state /\
  fst (execute_query delete_team (Some [VInt 1]) sample_state) = Return 1%Z /\
  fst (execute_query delete_team (Some [VInt 1])
         (snd (execute_query delete_team (Some [VInt 1]) sample_state))) = Return 0%Z.
Proof.
  assert (W : manager_inv sample_state).
  { vm_compute. split; [constructor | eexists; split; reflexivity]. }
  assert (R : fst (execute_query delete_team (Some [VInt 1]) sample_state) = Return 1%Z)
    by (vm_compute; reflexivity).
  destruct (delete_again_removes_nothing "teams" (Some (Eq (Col "id") (Param 0)))
              (Some [VInt 1]) sample_state 1%Z W R) as (A & _).
  exact (conj W (conj R A)).
Defined.

(** ** The declared constraints are invariants *)

Lemma local_violation_none td rows r :
  local_violation td rows r = None <->
  ~ not_null_violated td r /\ ~ check_violated td r /\
  ~ key_taken td rows r /\ ~ unique_taken td rows r.
Proof.
  pose proof (local_violation_iff td rows r) as I.
  destruct (local_violation td rows r) as [v|].
  - split; [discriminate|]. intros (A & B & C & D). exfalso.
    assert (H : Some v <> None) by discriminate. apply I in H. tauto.
  - split; [|reflexivity]. intros _.
    assert (H : ~ (@None violation <> None)) by (intros H; apply H; reflexivity).
    rewrite I in H. tauto.
Qed.

Lemma lawful_rows_true td rows : forall before,
  lawful_rows td before rows = true ->
  forall b r a, rows = b ++ r :: a -> local_violation td (before ++ b) r = None.
Proof.
  induction rows as [|x rows IH]; intros before H b r a E.
  - destruct b; discriminate.
  - cbn [lawful_rows] in H. destruct (local_violation td before x) eqn:V; [discriminate|].
    destruct b as [|y b]; cbn [app] in E; injection E as -> ->.
    + rewrite app_nil_r. exact V.
    + specialize (IH _ H b r a eq_refl). rewrite <- app_assoc in IH. exact IH.
Qed.

Lemma lawfulb_true db : lawfulb db = true -> lawful_db db.
Proof.
  unfold lawfulb, lawful_db, lawful. intros H tb I before r after E.
  rewrite forallb_forall in H. specialize (H tb I).
  apply local_violation_none.
  exact (lawful_rows_true _ _ _ H before r after E).
Qed.

Lemma filter_split (p : row -> bool) l : forall b' r a',
  List.filter p l = b' ++ r :: a' ->
  exists b a, l = b ++ r :: a /\ b' = List.filter p b.
Proof.
  induction l as [|x l IH]; intros b' r a' E; cbn [List.filter] in E.
  - destruct b'; discriminate.
  - destruct (p x) eqn:P.
    + destruct b' as [|y b']; cbn [app] in E; injection E as -> E.
      * exists [], l. split; reflexivity.
      * destruct (IH _ _ _ E) as (b & a & -> & ->).
        exists (y :: b), a. cbn [app List.filter]. rewrite P. split; reflexivity.
    + destruct (IH _ _ _ E) as (b & a & -> & ->).
      exists (x :: b), a. cbn [app List.filter]. rewrite P. split; reflexivity.
Qed.

Lemma lawful_filter tb tb' keep :
  tdef tb = tdef tb' -> trows tb' = List.filter keep (trows tb) ->
  lawful tb -> lawful tb'.
Proof.
  unfold lawful. intros D R L before r after E. rewrite R in E.
  destruct (filter_split _ _ _ _ _ E) as (b & a & Eb & ->).
  destruct (L b r a Eb) as (N & C & K & U). rewrite <- D.
  split; [exact N|]. split; [exact C|]. split.
  - intros (pk & r' & P & I & S). apply K. exists pk, r'.
    apply filter_In in I. split; [exact P|]. split; [apply I|exact S].
  - intros (u & r' & Iu & I & S). apply U. exists u, r'.
    apply filter_In in I. split; [exact Iu|]. split; [apply I|exact S].
Qed.

Lemma lawful_shrinks db db' : shrinks db db' -> lawful_db db -> lawful_db db'.
Proof.
  unfold lawful_db. induction 1 as [|tb tb' db db' (D & keep & R) _ IH]; intros L x I.
  - destruct I.
  - destruct I as [<-|I].
    + apply (lawful_filter tb _ keep D R). apply L. left. reflexivity.
    + apply IH; [|exact I]. intros y J. apply L. right. exact J.
Qed.

Lemma app_one_split {A} (l : list A) x : forall b r a,
  l ++ [x] = b ++ r :: a ->
  (a = [] /\ b = l /\ r = x) \/ exists a', a = a' ++ [x] /\ l = b ++ r :: a'.
Proof.
  induction l as [|y l IH]; intros b r a E; cbn [app] in E.
  - destruct b as [|z b]; cbn [app] in E; injection E as -> E.
    + left. subst. auto.
    + destruct b; discriminate.
  - destruct b as [|z b]; cbn [app] in E; injection E as -> E.
    + right. exists l. split; [symmetry; exact E|reflexivity].
    + destruct (IH _ _ _ E) as [(-> & -> & ->)|(a' & -> & ->)].
      * left. auto.
      * right. exists a'. split; reflexivity.
Qed.

Lemma lawful_append tb r :
  lawful tb -> local_violation (tdef tb) (trows tb) r = None ->
  lawful {| tdef := tdef tb; trows := trows tb ++ [r] |}.
Proof.
  unfold lawful. cbn [tdef trows]. intros L V before x after E.
  apply app_one_split in E. destruct E as [(-> & -> & ->)|(a' & -> & E)].
  - apply local_violation_none, V.
  - exact (L _ _ _ E).
Qed.

Lemma lawful_insert fk db oi n cols vals ps out :
  lawful_db db -> run fk db (Insert oi n cols vals) ps = inr out -> lawful_db (out_db out).
Proof.
  intros L R. destruct (run_insert_appends _ _ _ _ _ _ _ _ R) as [->|(tb & r & F & V & ->)];
    [exact L|].
  intros x I. apply in_set_rows in I. destruct I as [I|(tb0 & F0 & ->)]; [apply L, I|].
  rewrite F in F0. injection F0 as <-. apply lawful_append; [|exact V].
  apply L. unfold find_table in F. apply find_some in F. apply F.
Qed.

(** X9.  The declared constraints are invariants of the stored rows.  On
    any database without uncommitted change in which every row satisfies
    NOT NULL and CHECK and no two rows of a table share a primary key or
    the columns of a UNIQUE constraint, every INSERT, INSERT OR IGNORE and
    DELETE run by [execute_query], whether it succeeds or fails, leaves
    the table definitions as they were and the rows in that condition. *)
Theorem writes_keep_declared_constraints
    (q : stmt) (params : option (list value)) (st : State) :
  manager_inv st ->
  seen st = disk (world st) ->
  lawful_db (seen st) ->
  is_dml q = true ->
  manager_inv (snd (execute_query q params st)) /\
  seen (snd (execute_query q params st)) = disk (world (snd (execute_query q params st))) /\
  map tdef (seen (snd (execute_query q params st))) = map tdef (seen st) /\
  lawful_db (seen (snd (execute_query q params st))).
Proof.
  intros W S L D.
  assert (P : is_pragma q = false) by (destruct q; try discriminate; reflexivity).
  destruct (execute_query_after q params st W P) as (W' & _ & S' & E).
  specialize (S' S).
  split; [exact W'|]. split; [exact S'|]. rewrite S', E. clear W' S' E.
  destruct (answer (enforcing st) (seen st) q (bound params)) as [e|out] eqn:R.
  - rewrite <- S. split; [reflexivity|exact L].
  - apply answer_inr in R. destruct R as [R _]. destruct q; try discriminate D.
    + split; [exact (grows_tdef _ _ (run_insert_grows _ _ _ _ _ _ _ _ R))|].
      exact (lawful_insert _ _ _ _ _ _ _ _ L R).
    + pose proof (run_delete_shrinks _ _ _ _ _ _ R) as K.
      split; [exact (shrinks_tdef _ _ K)|exact (lawful_shrinks _ _ K L)].
Qed.

Lemma writes_keep_declared_constraints_witness :
  manager_inv sample_state /\
  seen sample_state = disk (world sample_state) /\
  lawful_db (seen sample_state) /\
  lawful_db (seen (snd (execute_query insert_team (Some [VText "Black Swans"; VInt 3])
                          sample_state))).
Proof.
  assert (W : manager_inv sample_state).
  { vm_compute. split; [constructor | eexists; split; reflexivity]. }
  assert (S : seen sample_state = disk (world sample_state)) by (vm_compute; reflexivity).
  assert (L : lawful_db (seen sample_state)).
  { apply lawfulb_true. vm_compute. reflexivity. }
  destruct (writes_keep_declared_constraints insert_team
              (Some [VText "Black Swans"; VInt 3]) sample_state W S L eq_refl)
    as (_ & _ & _ & L').
  exact (conj W (conj S (conj L L'))).
Defined.

(* ================================================================== *)
(** * Further properties of the schema manager *)
(* ================================================================== *)
(** ** Tables after [create_tables] and [drop_tables] *)

Lemma create_tables_result st :
  manager_inv st ->
  exists st1,
    create_tables st = (Return tt, st1) /\
    manager_inv st1 /\
    seen st1 = ensure_all (seen st) /\
    disk (world st1) = ensure_all (seen st).
Proof.
  intros W. destruct (opened_form st W) as (h & c & next & L & F & K & V & E).
  rewrite (create_tables_opened st W), E, create_tables_state_with, V.
  eexists. split; [reflexivity|]. split; [|split].
  - apply inv_state_with; [exact L|exact F].
  - rewrite seen_state_with. reflexivity.
  - reflexivity.
Qed.

Lemma find_table_ensure_all_keeps db n tb :
  find_table db n = Some tb -> find_table (ensure_all db) n = Some tb.
Proof.
  intros F. unfold ensure_all. cbn [fold_left declared].
  do 5 apply find_table_ensure_keeps. exact F.
Qed.

Lemma find_table_ensure_other db td n :
  same_name (tname td) n = false -> find_table (ensure db td) n = find_table db n.
Proof.
  intros N. unfold ensure. destruct (find_table db (tname td)); [reflexivity|].
  rewrite find_table_app. destruct (find_table db n); [reflexivity|].
  unfold find_table. cbn [find]. unfold named. cbn [tdef]. rewrite N. reflexivity.
Qed.

Lemma find_table_ensure_new db td :
  find_table db (tname td) = None ->
  find_table (ensure db td) (tname td) = Some (tbl td []).
Proof.
  intros F. unfold ensure. rewrite F, find_table_app, F.
  unfold find_table. cbn [find]. unfold named. cbn [tdef].
  rewrite same_name_refl. reflexivity.
Qed.

Lemma find_table_ensure_all_new db td :
  In td declared -> find_table db (tname td) = None ->
  find_table (ensure_all db) (tname td) = Some (tbl td []).
Proof.
  intros I F. unfold ensure_all. cbn [fold_left declared].
  destruct I as [<-|[<-|[<-|[<-|[<-|[]]]]]].
  - do 4 apply find_table_ensure_keeps. apply find_table_ensure_new, F.
  - do 3 apply find_table_ensure_keeps. apply find_table_ensure_new.
    rewrite find_table_ensure_other by reflexivity. exact F.
  - do 2 apply find_table_ensure_keeps. apply find_table_ensure_new.
    rewrite !find_table_ensure_other by reflexivity. exact F.
  - do 1 apply find_table_ensure_keeps. apply find_table_ensure_new.
    rewrite !find_table_ensure_other by reflexivity. exact F.
  - apply find_table_ensure_new.
    rewrite !find_table_ensure_other by reflexivity. exact F.
Qed.

(** A name that is listed finds a table. *)
Lemma find_table_names db n :
  In n (table_names db) -> exists tb, find_table db n = Some tb.
Proof.
  unfold table_names, find_table. induction db as [|tb db IH]; cbn [map find In]; [intros []|].
  unfold named at 1. intros [E|I].
  - rewrite E, same_name_refl. eauto.
  - destruct (same_name (tname (tdef tb)) n); [eauto|exact (IH I)].
Qed.

Lemma table_names_ensure db td n :
  In n (table_names (ensure db td)) <->
  In n (table_names db) \/ (n = tname td /\ find_table db n = None).
Proof.
  unfold ensure. destruct (find_table db (tname td)) as [tb|] eqn:F.
  - split; [intros I; left; exact I|]. intros [I|[-> F']]; [exact I|congruence].
  - unfold table_names. rewrite map_app, in_app_iff. cbn [map In tdef].
    split; (intros [I|I]; [left; exact I|right]).
    + destruct I as [<-|[]]. split; [reflexivity|exact F].
    + left. symmetry. apply I.
Qed.

Lemma table_names_ensure_all db n :
  In n (table_names (ensure_all db)) <->
  In n (table_names db) \/ (In n (map tname declared) /\ find_table db n = None).
Proof.
  unfold ensure_all. cbn [fold_left declared map In].
  rewrite !table_names_ensure.
  assert (H2 : n = tname teams_def ->
               find_table (ensure db divisions_def) n = find_table db n)
    by (intros ->; rewrite !find_table_ensure_other by reflexivity; reflexivity).
  assert (H3 : n = tname players_def ->
               find_table (ensure (ensure db divisions_def) teams_def) n = find_table db n)
    by (intros ->; rewrite !find_table_ensure_other by reflexivity; reflexivity).
  assert (H4 : n = tname matches_def ->
               find_table (ensure (ensure (ensure db divisions_def) teams_def) players_def) n =
                 find_table db n)
    by (intros ->; rewrite !find_table_ensure_other by reflexivity; reflexivity).
  assert (H5 : n = tname player_stats_def ->
               find_table (ensure (ensure (ensure (ensure db divisions_def) teams_def)
                                     players_def) matches_def) n = find_table db n)
    by (intros ->; rewrite !find_table_ensure_other by reflexivity; reflexivity).
  split.
  - intros [[[[[I|[E F]]|[E F]]|[E F]]|[E F]]|[E F]].
    + left. exact I.
    + right. split; [left; symmetry; exact E|exact F].
    + right. rewrite (H2 E) in F. split; [right; left; symmetry; exact E|exact F].
    + right. rewrite (H3 E) in F. split; [do 2 right; left; symmetry; exact E|exact F].
    + right. rewrite (H4 E) in F. split; [do 3 right; left; symmetry; exact E|exact F].
    + right. rewrite (H5 E) in F. split; [do 4 right; left; symmetry; exact E|exact F].
  - intros [I|[[E|[E|[E|[E|[E|[]]]]]] F]]; try symmetry in E.
    + do 5 left. exact I.
    + do 4 left. right. auto.
    + do 3 left. right. rewrite (H2 E). auto.
    + do 2 left. right. rewrite (H3 E). auto.
    + left. right. rewrite (H4 E). auto.
    + right. rewrite (H5 E). auto.
Qed.

(** X10.  [create_tables] only adds tables.  A table that exists before the
    call, whatever its definition and the case of the letters of its name,
    is there afterwards with the same definition and the same rows; a
    table of the schema whose name, in any case of its letters, was the
    name of no table is there afterwards as declared, with no row; and no
    other table appears.  ([find_table] looks a name up without regard to
    the case of its letters.) *)
Theorem create_tables_keeps_existing_tables (st : State) :
  manager_inv st ->
  exists st1,
    create_tables st = (Return tt, st1) /\
    (forall n tb,
       find_table (seen st) n = Some tb -> find_table (disk (world st1)) n = Some tb) /\
    (forall td,
       In td declared -> find_table (seen st) (tname td) = None ->
       find_table (disk (world st1)) (tname td) = Some (tbl td [])) /\
    (forall n,
       In n (table_names (disk (world st1))) <->
       In n (table_names (seen st)) \/
       (In n (map tname declared) /\ find_table (seen st) n = None)) /\
    (forall n m, same_name n m = true -> find_table (seen st) n = find_table (seen st) m).
Proof.
  intros W. destruct (create_tables_result st W) as (st1 & E & _ & _ & D).
  exists st1. split; [exact E|]. rewrite D. split; [|split; [|split]].
  - apply find_table_ensure_all_keeps.
  - apply find_table_ensure_all_new.
  - apply table_names_ensure_all.
  - intros n m. apply find_table_same.
Qed.

Lemma create_tables_keeps_existing_tables_witness :
  manager_inv sample_state /\
  exists st1,
    create_tables sample_state = (Return tt, st1) /\
    (forall n tb,
       find_table (seen sample_state) n = Some tb ->
       find_table (disk (world st1)) n = Some tb).
Proof.
  assert (W : manager_inv sample_state).
  { vm_compute. split; [constructor | eexists; split; reflexivity]. }
  split; [exact W|].
  destruct (create_tables_keeps_existing_tables sample_state W) as (st1 & E & K & _).
  exists st1. exact (conj E K).
Defined.

Lemma drop_tables_result st :
  manager_inv st -> map tdef (seen st) = declared ->
  exists st1,
    drop_tables st = (Return tt, st1) /\ manager_inv st1 /\ seen st1 = [] /\
    disk (world st1) = [].
Proof.
  intros W S. destruct (opened_form st W) as (h & c & next & L & F & K & V & E).
  destruct (schema_netball _ S) as (dv & ts & ps & ms & ss & N).
  rewrite (drop_tables_opened st W), E.
  rewrite (drop_tables_netball st _ h c next _ dv ts ps ms ss) by (rewrite V; exact N).
  eexists. split; [reflexivity|]. split; [|split].
  - apply inv_state_with; [exact L|exact F].
  - rewrite seen_state_with. reflexivity.
  - reflexivity.
Qed.

Lemma table_exists_iff st n :
  manager_inv st ->
  fst (table_exists n st) = Return (if in_dec string_dec n (table_names (seen st))
                                    then true else false).
Proof.
  intros W. rewrite (table_exists_result st n W).
  pose proof (is_table_rows (seen st) n) as I.
  destruct (List.filter (is_table n) (master_rows (seen st))) as [|r rs];
    destruct (in_dec string_dec n (table_names (seen st))) as [Y|N]; try reflexivity.
  - exfalso. apply I in Y. apply Y. reflexivity.
  - exfalso. apply N, I. discriminate.
Qed.

Lemma get_table_names_in st n :
  manager_inv st ->
  exists names,
    fst (get_table_names st) = Return names /\
    (In (VText n) names <-> In n (table_names (seen st)) /\ like "sqlite_%" n = false).
Proof.
  intros W. eexists. split; [apply (get_table_names_result st W)|].
  rewrite <- listed_names. rewrite in_map_iff.
  split; intros (r & A & B); exists r; auto.
Qed.

(** X11.  After [create_tables], on a database in which no table has the
    name of a table of the schema in another case of its letters,
    [table_exists] is true of each of the five tables and
    [get_table_names] lists each of them.  After [drop_tables] on the
    declared schema, [table_exists] is false of every name and
    [get_table_names] returns the empty list. *)
Theorem tables_exist_after_create_not_after_drop (st : State) :
  manager_inv st ->
  ((forall tb n,
      In tb (seen st) -> In n (map tname declared) ->
      same_name (tname (tdef tb)) n = true -> tname (tdef tb) = n) ->
   forall n,
     In n (map tname declared) ->
     fst (table_exists n (snd (create_tables st))) = Return true /\
     exists names,
       fst (get_table_names (snd (create_tables st))) = Return names /\
       In (VText n) names) /\
  (map tdef (seen st) = declared ->
   forall n,
     fst (table_exists n (snd (drop_tables st))) = Return false /\
     fst (get_table_names (snd (drop_tables st))) = Return []).
Proof.
  intros W. split.
  - intros H n I. destruct (create_tables_result st W) as (st1 & -> & W1 & S1 & _).
    cbn [snd].
    assert (T : In n (table_names (seen st1))).
    { rewrite S1. apply table_names_ensure_all.
      destruct (find_table (seen st) n) as [tb|] eqn:F; [left|right; auto].
      apply in_table_names. exists tb. split; [exact (find_table_in _ _ _ F)|].
      exact (H tb n (find_table_in _ _ _ F) I (find_table_named _ _ _ F)). }
    split.
    + rewrite (table_exists_iff st1 n W1).
      destruct (in_dec string_dec n (table_names (seen st1))); [reflexivity|contradiction].
    + destruct (get_table_names_in st1 n W1) as (names & G & K).
      exists names. split; [exact G|]. apply K. split; [exact T|].
      cbn [map declared In] in I.
      destruct I as [<-|[<-|[<-|[<-|[<-|[]]]]]]; reflexivity.
  - intros S n. destruct (drop_tables_result st W S) as (st1 & -> & W1 & S1 & _).
    cbn [snd]. split.
    + rewrite (table_exists_iff st1 n W1), S1. reflexivity.
    + rewrite (get_table_names_result st1 W1), S1. reflexivity.
Qed.

Lemma tables_exist_after_create_not_after_drop_witness :
  manager_inv sample_state /\
  map tdef (seen sample_state) = declared /\
  (forall tb n,
     In tb (seen sample_state) -> In n (map tname declared) ->
     same_name (tname (tdef tb)) n = true -> tname (tdef tb) = n) /\
  fst (table_exists "teams" (snd (create_tables sample_state))) = Return true /\
  fst (table_exists "teams" (snd (drop_tables sample_state))) = Return false /\
  fst (get_table_names (snd (drop_tables sample_state))) = Return [].
Proof.
  assert (W : manager_inv sample_state).
  { vm_compute. split; [constructor | eexists; split; reflexivity]. }
  assert (S : map tdef (seen sample_state) = declared) by (vm_compute; reflexivity).
  assert (H : forall tb n,
            In tb (seen sample_state) -> In n (map tname declared) ->
            same_name (tname (tdef tb)) n = true -> tname (tdef tb) = n).
  { intros tb n I J. vm_compute in I. cbn [map declared In] in J.
    destruct I as [<-|[<-|[<-|[<-|[<-|[]]]]]];
      destruct J as [<-|[<-|[<-|[<-|[<-|[]]]]]]; intros K;
      first [reflexivity | discriminate K]. }
  destruct (tables_exist_after_create_not_after_drop sample_state W) as (A & B).
  destruct (A H "teams" (or_intror (or_introl eq_refl))) as (A1 & _).
  destruct (B S "teams") as (B1 & B2).
  exact (conj W (conj S (conj H (conj A1 (conj B1 B2))))).
Defined.

(** ** The order of [get_table_names] *)

Lemma value_leb_total a b : value_leb a b = true \/ value_leb b a = true.
Proof.
  destruct a as [|x|s], b as [|y|t]; cbn; auto.
  - destruct (Z.leb_spec x y); [left; reflexivity|right]. apply Z.leb_le. lia.
  - apply String.leb_total.
Qed.

Lemma sorted_insert key r l :
  Sorted (fun a b => value_leb (key a) (key b) = true) l ->
  Sorted (fun a b => value_leb (key a) (key b) = true) (insert_sorted key r l).
Proof.
  induction 1 as [|x l S IH H]; cbn [insert_sorted].
  - constructor; constructor.
  - destruct (value_leb (key r) (key x)) eqn:E.
    + constructor; [constructor; assumption|]. constructor. exact E.
    + constructor; [exact IH|].
      destruct l as [|y l]; cbn [insert_sorted].
      * constructor. destruct (value_leb_total (key r) (key x)); congruence.
      * destruct (value_leb (key r) (key y)).
        -- constructor. destruct (value_leb_total (key r) (key x)); congruence.
        -- constructor. inversion H. assumption.
Qed.

Lemma sorted_sort_by key l :
  Sorted (fun a b => value_leb (key a) (key b) = true) (sort_by key l).
Proof.
  unfold sort_by. induction l as [|x l IH]; cbn [fold_right].
  - constructor.
  - apply sorted_insert, IH.
Qed.

Lemma sorted_map {A B} (R : B -> B -> Prop) (f : A -> B) l :
  Sorted (fun a b => R (f a) (f b)) l <-> Sorted R (map f l).
Proof.
  induction l as [|x l IH]; cbn [map].
  - split; constructor.
  - split; intros S; inversion S as [|? ? S' H]; subst; constructor;
      try (apply IH; exact S');
      destruct l; cbn [map] in *; constructor; inversion H; assumption.
Qed.

Lemma texts l :
  Forall (fun v => exists n, v = VText n) l -> exists ns, l = map VText ns.
Proof.
  induction 1 as [|v l (n & ->) _ (ns & ->)].
  - exists []. reflexivity.
  - exists (n :: ns). reflexivity.
Qed.

Lemma master_names db r : In r (master_rows db) -> exists n, name_of r = VText n.
Proof.
  intros I. apply in_master_rows in I. destruct I as (tb & _ & [-> | (k & -> & _)]);
    eexists; reflexivity.
Qed.

(** X12.  The names that [get_table_names] returns are text and in ascending
    byte order: each one is at most the next. *)
Theorem get_table_names_sorted (st : State) (names : list value) :
  manager_inv st ->
  fst (get_table_names st) = Return names ->
  exists ns,
    names = map VText ns /\
    Sorted (fun a b => (a <=? b)%string = true) ns.
Proof.
  intros W G. rewrite (get_table_names_result st W) in G. injection G as <-.
  destruct (texts (map name_of (sort_by name_of (List.filter listed (master_rows (seen st))))))
    as (ns & E).
  { apply List.Forall_forall. intros v I. apply in_map_iff in I.
    destruct I as (r & <- & I). apply in_sort_by, filter_In in I.
    apply (master_names (seen st)), I. }
  exists ns. split; [exact E|].
  apply (sorted_map (fun a b => value_leb a b = true) VText). rewrite <- E.
  apply sorted_map, sorted_sort_by.
Qed.

Lemma get_table_names_sorted_witness :
  manager_inv sample_state /\
  fst (get_table_names sample_state) =
    Return [VText "divisions"; VText "matches"; VText "player_stats"; VText "players";
            VText "teams"] /\
  exists ns,
    [VText "divisions"; VText "matches"; VText "player_stats"; VText "players";
     VText "teams"] = map VText ns /\
    Sorted (fun a b => (a <=? b)%string = true) ns.
Proof.
  assert (W : manager_inv sample_state).
  { vm_compute. split; [constructor | eexists; split; reflexivity]. }
  assert (G : fst (get_table_names sample_state) =
              Return [VText "divisions"; VText "matches"; VText "player_stats";
                      VText "players"; VText "teams"]) by (vm_compute; reflexivity).
  exact (conj W (conj G (get_table_names_sorted sample_state _ W G))).
Defined.

(** ** What every operation keeps *)

Lemma snd_bind {A B} (P Q : State -> Prop) (m : M State A) (k : A -> M State B) st :
  (forall s, P s -> Q (snd (m s))) ->
  (forall a s, Q s -> Q (snd (k a s))) ->
  P st -> Q (snd (bind m k st)).
Proof.
  intros Hm Hk H. rewrite bind_eq. specialize (Hm st H).
  destruct (m st) as [[a|e] s]; cbn [snd] in *; [apply Hk|]; exact Hm.
Qed.

Lemma snd_for_each {X} (P : State -> Prop) (f : X -> M State unit) l :
  (forall x s, P s -> P (snd (f x s))) ->
  forall st, P st -> P (snd (for_each l f st)).
Proof.
  intros Hf. induction l as [|x l IH]; intros st H; [exact H|].
  rewrite for_each_cons. specialize (Hf x st H).
  destruct (f x st) as [[a|e] s]; cbn [snd] in *; [apply IH|]; exact Hf.
Qed.

Lemma snd_for_each_first {X} (P Q : State -> Prop) (f : X -> M State unit) x l :
  (forall x s, P s -> Q (snd (f x s))) ->
  (forall s, Q s -> P s) ->
  forall st, P st -> Q (snd (for_each (x :: l) f st)).
Proof.
  intros Hf QP st H. rewrite for_each_cons. pose proof (Hf x st H) as H1.
  destruct (f x st) as [[a|e] s]; cbn [snd] in *; [|exact H1].
  apply (snd_for_each Q); [|exact H1]. intros y s' H'. apply Hf, QP, H'.
Qed.

Lemma snd_comprehension {X Y} (P : State -> Prop) (f : X -> M State Y) l :
  (forall x s, P s -> P (snd (f x s))) ->
  forall st, P st -> P (snd (comprehension l f st)).
Proof.
  intros Hf. induction l as [|x l IH]; intros st H; [exact H|].
  cbn [comprehension]. apply (snd_bind P P); [apply Hf| |exact H].
  intros y s Hs. apply (snd_bind P P); [apply IH| |exact Hs].
  intros ys s' Hs'. exact Hs'.
Qed.

Lemma snd_getitem (r : py_row) key (st : State) : snd (getitem r key st) = st.
Proof.
  unfold getitem. destruct r as [vals|fields]; [reflexivity|].
  destruct (assoc key fields); reflexivity.
Qed.

(** X13.  Every operation of the schema manager, whether it returns or
    raises, leaves at most one connection open, the manager's.
    [create_tables], [drop_tables] and [insert_sample_data] leave no
    transaction open; [get_table_names] and [table_exists] leave the file
    as it was. *)
Theorem schema_operations_keep_invariant (st : State) (n : string) :
  manager_inv st ->
  (manager_inv (snd (create_tables st)) /\ no_transaction (snd (create_tables st))) /\
  (manager_inv (snd (drop_tables st)) /\ no_transaction (snd (drop_tables st))) /\
  (manager_inv (snd (insert_sample_data st)) /\
   no_transaction (snd (insert_sample_data st))) /\
  (manager_inv (snd (get_table_names st)) /\
   disk (world (snd (get_table_names st))) = disk (world st)) /\
  (manager_inv (snd (table_exists n st)) /\
   disk (world (snd (table_exists n st))) = disk (world st)).
Proof.
  intros W.
  set (Q := fun s => manager_inv s /\ no_transaction s).
  assert (E : forall q p, bindable q (bound p) = true -> forall s, manager_inv s ->
                          Q (snd (execute_query q p s)))
    by (intros; apply execute_query_settles; assumption).
  assert (QP : forall s, Q s -> manager_inv s) by (intros s H; apply H).
  split; [|split; [|split; [|split]]].
  - unfold create_tables.
    apply (snd_bind manager_inv Q); [apply E; reflexivity| |exact W]. intros _ s1 H1.
    apply (snd_bind Q Q); [intros s Hs; apply E, Hs; reflexivity| |exact H1]. intros _ s2 H2.
    apply (snd_bind Q Q); [intros s Hs; apply E, Hs; reflexivity| |exact H2]. intros _ s3 H3.
    apply (snd_bind Q Q); [intros s Hs; apply E, Hs; reflexivity| |exact H3]. intros _ s4 H4.
    apply (snd_bind Q Q); [intros s Hs; apply E, Hs; reflexivity| |exact H4]. intros _ s5 H5.
    exact H5.
  - unfold drop_tables.
    apply (snd_for_each_first manager_inv Q); [|exact QP|exact W].
    intros x s H. apply (snd_bind manager_inv Q); [apply E; reflexivity| |exact H].
    intros ? ? H'; exact H'.
  - rewrite insert_sample_data_loop.
    assert (H : forall l s,
              Forall (fun sp => is_pragma (fst sp) = false /\
                                bindable (fst sp) (snd sp) = true) l ->
              manager_inv s -> l <> [] -> Q (snd (for_each l run_one s))).
    { induction l as [|sp l IH]; intros s Pl Hs N; [congruence|].
      inversion Pl as [|? ? [_ Pb] Pr]; subst.
      rewrite for_each_cons, run_one_eq.
      assert (B : bindable (fst sp) (bound (Some (snd sp))) = true)
        by (rewrite bound_some; exact Pb).
      pose proof (E (fst sp) (Some (snd sp)) B s Hs) as H1.
      destruct (execute_query (fst sp) (Some (snd sp)) s) as [[a|e] s1];
        cbn [snd] in *; [|exact H1].
      destruct l as [|sp' l']; [exact H1|].
      apply IH; [exact Pr|apply H1|discriminate]. }
    apply (H _ _ sample_inserts_not_pragma W). discriminate.
  - set (R := fun s => manager_inv s /\ disk (world s) = disk (world st)).
    unfold get_table_names.
    apply (snd_bind R R); [| |split; [exact W|reflexivity]].
    + intros s (Hs & Ds). split; [apply inv_fetch_all, Hs|].
      rewrite fetch_all_disk by (exact Hs || reflexivity). exact Ds.
    + intros rows s H. apply snd_comprehension; [|exact H].
      intros r s' H'. rewrite snd_getitem. exact H'.
  - set (R := fun s => manager_inv s /\ disk (world s) = disk (world st)).
    unfold table_exists.
    apply (snd_bind R R); [| |split; [exact W|reflexivity]].
    + intros s (Hs & Ds). split; [apply inv_fetch_one, Hs|].
      rewrite fetch_one_head. cbn [snd].
      rewrite fetch_all_disk by (exact Hs || reflexivity). exact Ds.
    + intros r s H. exact H.
Qed.

Lemma schema_operations_keep_invariant_witness :
  manager_inv (new_state "netball_stats.db") /\
  manager_inv (snd (insert_sample_data (new_state "netball_stats.db"))) /\
  no_transaction (snd (insert_sample_data (new_state "netball_stats.db"))).
Proof.
  destruct (schema_operations_keep_invariant (new_state "netball_stats.db") "teams"
              (inv_new_state "netball_stats.db")) as (_ & _ & A & _).
  exact (conj (inv_new_state "netball_stats.db") A).
Defined.

Lemma enforcing_fetched st h c q ps o :
  connection (self st) = Some h -> is_pragma q = false ->
  enforcing (fetched st h c q ps o) = foreign_keys c.
Proof.
  intros C P. unfold enforcing, current, fetched. cbn [self world]. rewrite C.
  assert (B : foreign_keys (begun c (disk (world st)) q) = foreign_keys c)
    by apply foreign_keys_begun.
  destruct o as [out|].
  - unfold settle.
    destruct (pending (begun c (disk (world st)) q));
      cbn [with_conn with_disk conns]; rewrite lookup_insert_eq; cbn [foreign_keys];
      destruct q; try exact B; discriminate P.
  - cbn [with_conn conns]. rewrite lookup_insert_eq. exact B.
Qed.

Lemma opened_enforcing st : manager_inv st -> enforcing (opened st) = enforcing st.
Proof.
  intros W. destruct (opened_form st W) as (h & c & next & _ & _ & K & _ & ->).
  rewrite enforcing_state_with. exact K.
Qed.

Lemma fetch_all_enforcing q params st :
  manager_inv st -> is_pragma q = false ->
  enforcing (snd (fetch_all q params st)) = enforcing st.
Proof.
  intros W P.
  destruct (fetch_all_run q params st W) as (h & c & C & _ & _ & F & _ & _ & ->).
  destruct (prepare _ _ q); [cbn [snd]; apply opened_enforcing, W|].
  destruct (answer _ _ _ _); cbn [snd]; rewrite (enforcing_fetched _ _ _ _ _ _ C P); exact F.
Qed.

Lemma closed_enforcing st : manager_inv st -> enforcing (closed st) = true.
Proof.
  intros W. destruct (close_spec st W) as (_ & C & _).
  unfold enforcing, current. rewrite C. reflexivity.
Qed.

(** X14.  The two classes never switch foreign keys off.  The connection
    opened after [close] enforces them whatever was set before; and when
    they are enforced, they still are after [connect], after
    [execute_query], [fetch_all] and [fetch_one] with any statement other
    than PRAGMA foreign_keys, and after every operation of the schema
    manager. *)
Theorem foreign_keys_stay_enforced
    (q : stmt) (params : option (list value)) (n : string) (st : State) :
  manager_inv st ->
  is_pragma q = false ->
  (forall h c, conns (world (opened (closed st))) !! h = Some c -> foreign_keys c = true) /\
  (enforcing st = true ->
   enforcing (snd (connect st)) = true /\
   enforcing (snd (execute_query q params st)) = true /\
   enforcing (snd (fetch_all q params st)) = true /\
   enforcing (snd (fetch_one q params st)) = true /\
   enforcing (snd (create_tables st)) = true /\
   enforcing (snd (drop_tables st)) = true /\
   enforcing (snd (insert_sample_data st)) = true /\
   enforcing (snd (get_table_names st)) = true /\
   enforcing (snd (table_exists n st)) = true).
Proof.
  intros W P. split.
  - intros h c L. pose proof (inv_closed st W) as Wc.
    destruct (inv_opened _ Wc) as (h' & c' & _ & _ & E & _ & _ & _ & K & _).
    rewrite E in L. apply lookup_singleton_Some in L. destruct L as (_ & <-).
    rewrite K. apply closed_enforcing, W.
  - intros F.
    set (Q := fun s => manager_inv s /\ enforcing s = true).
    assert (Q0 : Q st) by (split; assumption).
    assert (E : forall q' p s, is_pragma q' = false -> Q s ->
                               Q (snd (execute_query q' p s))).
    { intros q' p s P' (Ws & Fs).
      destruct (execute_query_after q' p s Ws P') as (W' & F' & _).
      split; [exact W'|]. rewrite F'. exact Fs. }
    assert (A : forall q' p s, is_pragma q' = false -> Q s -> Q (snd (fetch_all q' p s))).
    { intros q' p s P' (Ws & Fs). split; [apply inv_fetch_all, Ws|].
      rewrite (fetch_all_enforcing _ _ _ Ws P'). exact Fs. }
    assert (O : forall q' p s, is_pragma q' = false -> Q s -> Q (snd (fetch_one q' p s))).
    { intros q' p s P' H. rewrite fetch_one_head. cbn [snd]. apply A; assumption. }
    split; [fold (opened st); rewrite (opened_enforcing st W); exact F|].
    split; [apply (E q params st P Q0)|].
    split; [apply (A q params st P Q0)|].
    split; [apply (O q params st P Q0)|].
    split; [|split; [|split; [|split]]].
    + assert (C : forall td s, Q s -> Q (snd (execute_query (CreateTable true td) None s)))
        by (intros td s Hs; apply E; [reflexivity|exact Hs]).
      unfold create_tables.
      apply (snd_bind Q Q); [apply C| |exact Q0]. intros _ s1 H1.
      apply (snd_bind Q Q); [apply C| |exact H1]. intros _ s2 H2.
      apply (snd_bind Q Q); [apply C| |exact H2]. intros _ s3 H3.
      apply (snd_bind Q Q); [apply C| |exact H3]. intros _ s4 H4.
      apply (snd_bind Q Q); [apply C| |exact H4]. intros _ s5 H5.
      exact H5.
    + unfold drop_tables.
      apply (snd_for_each Q); [|exact Q0].
      intros x s Hs. apply (snd_bind Q Q); [| |exact Hs].
      * intros s' Hs'. apply E; [reflexivity|exact Hs'].
      * intros ? ? H; exact H.
    + rewrite insert_sample_data_loop.
      assert (H : forall l s,
                Forall (fun sp => is_pragma (fst sp) = false /\
                                  bindable (fst sp) (snd sp) = true) l -> Q s ->
                Q (snd (for_each l run_one s))).
      { induction l as [|sp l IH]; intros s Pl Hs; [exact Hs|].
        inversion Pl as [|? ? [Pa _] Pr]; subst.
        rewrite for_each_cons, run_one_eq.
        pose proof (E (fst sp) (Some (snd sp)) s Pa Hs) as H1.
        destruct (execute_query (fst sp) (Some (snd sp)) s) as [[a|e] s1];
          cbn [snd] in *; [apply IH; assumption|exact H1]. }
      apply (H _ _ sample_inserts_not_pragma Q0).
    + unfold get_table_names.
      apply (snd_bind Q Q); [| |exact Q0].
      * intros s Hs. apply A; [reflexivity|exact Hs].
      * intros rows s H. apply snd_comprehension; [|exact H].
        intros r s' H'. rewrite snd_getitem. exact H'.
    + unfold table_exists.
      apply (snd_bind Q Q); [| |exact Q0].
      * intros s Hs. apply O; [reflexivity|exact Hs].
      * intros r s H. exact H.
Qed.

Lemma foreign_keys_stay_enforced_witness :
  manager_inv sample_state /\
  enforcing sample_state = true /\
  enforcing (snd (execute_query delete_team (Some [VInt 1]) sample_state)) = true /\
  enforcing (snd (insert_sample_data sample_state)) = true.
Proof.
  assert (W : manager_inv sample_state).
  { vm_compute. split; [constructor | eexists; split; reflexivity]. }
  assert (F : enforcing sample_state = true) by (vm_compute; reflexivity).
  destruct (foreign_keys_stay_enforced delete_team (Some [VInt 1]) "teams" sample_state
              W eq_refl) as (_ & H).
  destruct (H F) as (_ & A & _ & _ & _ & _ & B & _).
  exact (conj W (conj F (conj A B))).
Defined.

(** ** [insert_sample_data] on a database that is not empty *)

Lemma for_each_run_one_fails st0 h next sp l2 db1 e : forall l1 c db log,
  Forall (fun sp => is_pragma (fst sp) = false /\ bindable (fst sp) (snd sp) = true)
         (l1 ++ [sp]) ->
  run_all (foreign_keys c) (view db c) l1 = inr db1 ->
  run (foreign_keys c) db1 (fst sp) (snd sp) = inl e ->
  for_each (l1 ++ sp :: l2) run_one (state_with st0 db h c next log) =
    (Raise (sqlite3_Error e),
     state_with st0 (committed l1 db db1) h (idle c (foreign_keys c)) next
       (log ++ l1 ++ [sp])).
Proof.
  destruct sp as [s ps].
  induction l1 as [|[a pa] l1 IH]; intros c db log P A R.
  - cbn [app] in *. inversion P as [|? ? [_ Pb] _]; subst.
    rewrite for_each_cons, run_one_eq.
    rewrite execute_query_state_with by (rewrite bound_some; exact Pb).
    rewrite bound_some.
    cbn [run_all] in A. injection A as <-. rewrite R. reflexivity.
  - cbn [app] in *. inversion P as [|? ? [Pa Pb] Pl]; subst.
    rewrite for_each_cons, run_one_eq.
    rewrite execute_query_state_with by (rewrite bound_some; exact Pb).
    rewrite bound_some.
    cbn [run_all] in A.
    cbn [fst snd] in *.
    destruct (run (foreign_keys c) (view db c) a pa) as [e'|out]; [discriminate|].
    assert (K : fk_after c a = foreign_keys c).
    { destruct a; try reflexivity. discriminate. }
    rewrite K.
    rewrite (IH (idle c (foreign_keys c)) (out_db out) (log ++ [(a, pa)]) Pl A R).
    cbn [committed]. f_equal. f_equal.
    + destruct l1; [|reflexivity]. cbn [run_all] in A. injection A as <-. reflexivity.
    + rewrite <- app_assoc. reflexivity.
Qed.

Lemma insert_sample_data_fails st l1 l2 sp db1 e :
  manager_inv st ->
  sample_inserts = l1 ++ sp :: l2 ->
  run_all (enforcing st) (seen st) l1 = inr db1 ->
  run (enforcing st) db1 (fst sp) (snd sp) = inl e ->
  fst (insert_sample_data st) = Raise (sqlite3_Error e) /\
  disk (world (snd (insert_sample_data st))) = committed l1 (disk (world st)) db1 /\
  trace (world (snd (insert_sample_data st))) =
    trace (world st) ++ connect_log st ++ l1 ++ [sp].
Proof.
  intros W S A R. destruct (opened_form st W) as (h & c & next & L & F & K & V & E).
  rewrite (insert_sample_data_opened st W), E, insert_sample_data_loop, S.
  rewrite (for_each_run_one_fails st h next sp l2 db1 e l1 c).
  - cbn [fst snd state_with world disk trace]. repeat split.
  - pose proof sample_inserts_not_pragma as P. rewrite S in P.
    change (sp :: l2) with ([sp] ++ l2) in P. rewrite app_assoc in P.
    apply Forall_app in P. apply P.
  - rewrite K, V. exact A.
  - rewrite K. exact R.
Qed.

(** X15.  [insert_sample_data] is not atomic.  When its statement [sp] is
    the first that the engine refuses, the call raises that error, the
    statements before [sp] stay committed on the file, and no statement
    after [sp] is sent. *)
Theorem insert_sample_data_stops_at_first_error
    (st : State) (l1 l2 : list (stmt * list value)) (sp : stmt * list value)
    (db1 : Db) (e : error) :
  manager_inv st ->
  sample_inserts = l1 ++ sp :: l2 ->
  run_all (enforcing st) (seen st) l1 = inr db1 ->
  run (enforcing st) db1 (fst sp) (snd sp) = inl e ->
  fst (insert_sample_data st) = Raise (sqlite3_Error e) /\
  disk (world (snd (insert_sample_data st))) = committed l1 (disk (world st)) db1 /\
  trace (world (snd (insert_sample_data st))) =
    trace (world st) ++ connect_log st ++ l1 ++ [sp].
Proof. apply insert_sample_data_fails. Qed.

Lemma insert_sample_data_stops_at_first_error_witness :
  manager_inv divisions_only_state /\
  sample_inserts = firstn 3 sample_inserts ++
                   (insert_or_ignore "teams" ["id"; "name"; "division_id"],
                    [VInt 1; VText "Red Dragons"; VInt 1]) :: skipn 4 sample_inserts /\
  run_all (enforcing divisions_only_state) (seen divisions_only_state)
          (firstn 3 sample_inserts) = inr [tbl divisions_def division_rows] /\
  fst (insert_sample_data divisions_only_state) =
    Raise (sqlite3_Error (OperationalError (NoSuchTable "teams"))) /\
  disk (world (snd (insert_sample_data divisions_only_state))) =
    committed (firstn 3 sample_inserts) (disk (world divisions_only_state))
              [tbl divisions_def division_rows].
Proof.
  assert (W : manager_inv divisions_only_state).
  { vm_compute. split; [constructor | eexists; split; reflexivity]. }
  assert (S : sample_inserts =
              firstn 3 sample_inserts ++
              (insert_or_ignore "teams" ["id"; "name"; "division_id"],
               [VInt 1; VText "Red Dragons"; VInt 1]) :: skipn 4 sample_inserts)
    by (vm_compute; reflexivity).
  assert (A : run_all (enforcing divisions_only_state) (seen divisions_only_state)
                      (firstn 3 sample_inserts) = inr [tbl divisions_def division_rows])
    by (vm_compute; reflexivity).
  assert (R : run (enforcing divisions_only_state) [tbl divisions_def division_rows]
                  (insert_or_ignore "teams" ["id"; "name"; "division_id"])
                  [VInt 1; VText "Red Dragons"; VInt 1] =
              inl (OperationalError (NoSuchTable "teams")))
    by (vm_compute; reflexivity).
  destruct (insert_sample_data_stops_at_first_error divisions_only_state _ _ _ _ _ W S A R)
    as (B & C & _).
  exact (conj W (conj S (conj A (conj B C)))).
Defined.

Lemma run_all_first_error fk l : forall db e,
  run_all fk db l = inl e ->
  exists l1 sp l2 db1,
    l = l1 ++ sp :: l2 /\ run_all fk db l1 = inr db1 /\
    run fk db1 (fst sp) (snd sp) = inl e.
Proof.
  induction l as [|a l IH]; intros db e R; cbn [run_all] in R; [discriminate|].
  destruct (run fk db (fst a) (snd a)) as [e'|out] eqn:E.
  - injection R as ->. exists [], a, l, db. auto.
  - destruct (IH _ _ R) as (l1 & sp & l2 & db1 & -> & A & B).
    exists (a :: l1), sp, l2, db1. cbn [run_all app]. rewrite E. auto.
Qed.

Lemma insert_sample_data_returns st db' :
  manager_inv st ->
  run_all (enforcing st) (seen st) sample_inserts = inr db' ->
  exists st', insert_sample_data st = (Return tt, st') /\ disk (world st') = db'.
Proof.
  intros W R. destruct (opened_form st W) as (h & c & next & L & F & K & V & E).
  rewrite (insert_sample_data_opened st W), E, insert_sample_data_loop.
  pose proof sample_inserts_not_pragma as P.
  change sample_inserts with (hd (Malformed EmptyString, []) sample_inserts :: tl sample_inserts)
    in P, R |- *.
  pose proof (for_each_run_one_first st h c next _ _ (disk (world st)) (connect_log st) P)
    as Q.
  rewrite K, V, R in Q. rewrite Q. eexists. split; reflexivity.
Qed.

(** X16.  On the declared schema, whether it returns or raises,
    [insert_sample_data] keeps every table with its definition and every
    row that was there: it only adds rows. *)
Theorem insert_sample_data_only_adds (st : State) :
  manager_inv st ->
  seen st = disk (world st) ->
  map tdef (seen st) = declared ->
  grows (disk (world st)) (disk (world (snd (insert_sample_data st)))).
Proof.
  intros W S T. destruct (schema_netball _ T) as (dv & ts & ps & ms & ss & N).
  pose proof (sample_inserts_ready (enforcing st) dv ts ps ms ss) as Rd.
  rewrite <- N in Rd. rewrite <- S.
  destruct (run_all (enforcing st) (seen st) sample_inserts) as [e|db'] eqn:R.
  - destruct (run_all_first_error _ _ _ _ R) as (l1 & sp & l2 & db1 & E & A & B).
    destruct (insert_sample_data_fails st l1 l2 sp db1 e W E A B) as (_ & D & _).
    rewrite D.
    destruct l1 as [|a l1]; cbn [committed]; [rewrite <- S; apply grows_refl|].
    rewrite E in Rd. apply Forall_app in Rd. destruct Rd as (Rd & _).
    apply (run_all_settles _ _ _ _ Rd A).
  - destruct (insert_sample_data_returns st db' W R) as (st' & E1 & E2).
    rewrite E1. cbn [snd]. rewrite E2.
    apply (run_all_settles _ _ _ _ Rd R).
Qed.

Lemma insert_sample_data_only_adds_witness :
  manager_inv name_taken_state /\
  seen name_taken_state = disk (world name_taken_state) /\
  map tdef (seen name_taken_state) = declared /\
  fst (insert_sample_data name_taken_state) =
    Raise (sqlite3_Error (IntegrityError ForeignKey)) /\
  grows (disk (world name_taken_state))
        (disk (world (snd (insert_sample_data name_taken_state)))).
Proof.
  assert (W : manager_inv name_taken_state).
  { vm_compute. split; [constructor | eexists; split; reflexivity]. }
  assert (S : seen name_taken_state = disk (world name_taken_state))
    by (vm_compute; reflexivity).
  assert (T : map tdef (seen name_taken_state) = declared) by (vm_compute; reflexivity).
  assert (R : fst (insert_sample_data name_taken_state) =
              Raise (sqlite3_Error (IntegrityError ForeignKey)))
    by (vm_compute; reflexivity).
  exact (conj W (conj S (conj T (conj R
           (insert_sample_data_only_adds name_taken_state W S T))))).
Defined.

(** X17.  On the declared schema, whatever rows it holds, [drop_tables]
    followed by [create_tables] and [insert_sample_data] returns and
    leaves exactly the fixture on the file. *)
Theorem reset_gives_the_fixture (st : State) :
  manager_inv st ->
  map tdef (seen st) = declared ->
  exists st',
    bind drop_tables (fun _ => bind create_tables (fun _ => insert_sample_data)) st =
      (Return tt, st') /\
    disk (world st') = sample_db.
Proof.
  intros W T.
  destruct (drop_tables_result st W T) as (st1 & E1 & W1 & S1 & _).
  destruct (create_tables_result st1 W1) as (st2 & E2 & W2 & S2 & _).
  rewrite S1 in S2.
  destruct (insert_sample_data_returns st2 sample_db W2) as (st3 & E3 & D3).
  { rewrite S2. apply run_all_empty_tables. }
  exists st3. rewrite bind_eq, E1, bind_eq, E2. split; [exact E3|exact D3].
Qed.

Lemma reset_gives_the_fixture_witness :
  manager_inv name_taken_state /\
  map tdef (seen name_taken_state) = declared /\
  exists st',
    bind drop_tables (fun _ => bind create_tables (fun _ => insert_sample_data))
      name_taken_state = (Return tt, st') /\
    disk (world st') = sample_db.
Proof.
  assert (W : manager_inv name_taken_state).
  { vm_compute. split; [constructor | eexists; split; reflexivity]. }
  assert (T : map tdef (seen name_taken_state) = declared) by (vm_compute; reflexivity).
  exact (conj W (conj T (reset_gives_the_fixture name_taken_state W T))).
Defined.

(* ================================================================== *)
(** * Teams, players and matches *)
(* ================================================================== *)
(** ** DELETE with any WHERE clause *)

Lemma existsb_two (f p1 p2 : row -> bool) l :
  existsb f (List.filter p1 l) || existsb f (List.filter p2 (without p1 l)) =
  existsb f (List.filter (fun m => p1 m || p2 m) l).
Proof.
  unfold without. induction l as [|x l IH]; simpl; [reflexivity|].
  destruct (p1 x); simpl; destruct (p2 x); simpl;
    rewrite <- IH; destruct (f x); simpl;
    repeat match goal with |- context [existsb ?g ?k] => generalize (existsb g k); intro end;
    repeat match goal with b : bool |- _ => destruct b end; reflexivity.
Qed.

Lemma run_delete_teams w ps' dv ts ps ms ss :
  where_ok (col_names teams_def) w = true ->
  length ps' = where_arity w ->
  run true (netball_db dv ts ps ms ss) (Delete "teams" w) ps' =
    done (without_teams (holds (col_names teams_def) ps' w) dv ts ps ms ss)
         (Z.of_nat (length (List.filter (holds (col_names teams_def) ps' w) ts))).
Proof.
  intros O A. unfold run.
  change (find_table (netball_db dv ts ps ms ss) "teams") with (Some (tbl teams_def ts)).
  cbv beta iota zeta. cbn [tbl tdef trows arity]. rewrite O, A, Nat.eqb_refl.
  cbn [negb]. cbv iota.
  set (hit := holds (col_names teams_def) ps' w).
  unfold delete_rows. cbn [tbl tdef trows].
  change (tname teams_def) with "teams".
  change (set_rows (netball_db dv ts ps ms ss) "teams" ?rows)
    with (netball_db dv rows ps ms ss).
  fold (without hit ts).
  change trigger_depth with (S (S (S 997))).
  rewrite cascade_teams. unfold done, without_teams. cbv zeta.
  do 2 f_equal.
  set (gone := List.filter hit ts).
  assert (M : without (ref_team2 gone) (without (ref_team1 gone) ms) =
              without (played_by gone) ms).
  { rewrite without_without. reflexivity. }
  rewrite M. f_equal.
  rewrite !without_without. apply without_ext. intros s.
  unfold stat_of. fold (ref_player (List.filter (player_of gone) ps) s).
  rewrite <- ?orb_assoc. f_equal.
  unfold ref_match, id_among.
  exact (existsb_two
           (fun p => same_key (col_of player_stats_def "match_id" s)
                              (col_of matches_def "id" p))
           (ref_team1 gone) (ref_team2 gone) ms).
Qed.

Lemma run_delete_players w ps' dv ts ps ms ss :
  where_ok (col_names players_def) w = true ->
  length ps' = where_arity w ->
  run true (netball_db dv ts ps ms ss) (Delete "players" w) ps' =
    done (without_players (holds (col_names players_def) ps' w) dv ts ps ms ss)
         (Z.of_nat (length (List.filter (holds (col_names players_def) ps' w) ps))).
Proof.
  intros O A. unfold run.
  change (find_table (netball_db dv ts ps ms ss) "players") with (Some (tbl players_def ps)).
  cbv beta iota zeta. cbn [tbl tdef trows arity]. rewrite O, A, Nat.eqb_refl.
  cbn [negb]. cbv iota.
  set (hit := holds (col_names players_def) ps' w).
  unfold delete_rows. cbn [tbl tdef trows].
  change (tname players_def) with "players".
  change (set_rows (netball_db dv ts ps ms ss) "players" ?rows)
    with (netball_db dv ts rows ms ss).
  fold (without hit ps).
  change trigger_depth with (S (S 998)).
  rewrite cascade_players. reflexivity.
Qed.

Lemma run_delete_matches w ps' dv ts ps ms ss :
  where_ok (col_names matches_def) w = true ->
  length ps' = where_arity w ->
  run true (netball_db dv ts ps ms ss) (Delete "matches" w) ps' =
    done (without_matches (holds (col_names matches_def) ps' w) dv ts ps ms ss)
         (Z.of_nat (length (List.filter (holds (col_names matches_def) ps' w) ms))).
Proof.
  intros O A. unfold run.
  change (find_table (netball_db dv ts ps ms ss) "matches") with (Some (tbl matches_def ms)).
  cbv beta iota zeta. cbn [tbl tdef trows arity]. rewrite O, A, Nat.eqb_refl.
  cbn [negb]. cbv iota.
  set (hit := holds (col_names matches_def) ps' w).
  unfold delete_rows. cbn [tbl tdef trows].
  change (tname matches_def) with "matches".
  change (set_rows (netball_db dv ts ps ms ss) "matches" ?rows)
    with (netball_db dv ts ps rows ss).
  fold (without hit ms).
  change trigger_depth with (S (S 998)).
  rewrite cascade_matches. reflexivity.
Qed.

Lemma run_delete_divisions w ps' dv ts ps ms ss :
  where_ok (col_names divisions_def) w = true ->
  length ps' = where_arity w ->
  run true (netball_db dv ts ps ms ss) (Delete "divisions" w) ps' =
    done (without_divisions (holds (col_names divisions_def) ps' w) dv ts ps ms ss)
         (Z.of_nat (length (List.filter (holds (col_names divisions_def) ps' w) dv))).
Proof.
  intros O A. unfold run.
  change (find_table (netball_db dv ts ps ms ss) "divisions")
    with (Some (tbl divisions_def dv)).
  cbv beta iota zeta. cbn [tbl tdef trows arity]. rewrite O, A, Nat.eqb_refl.
  cbn [negb]. cbv iota.
  set (hit := holds (col_names divisions_def) ps' w).
  unfold delete_rows. cbn [tbl tdef trows].
  change (tname divisions_def) with "divisions".
  change (set_rows (netball_db dv ts ps ms ss) "divisions" ?rows)
    with (netball_db rows ts ps ms ss).
  fold (without hit dv).
  change trigger_depth with (S (S (S (S 996)))).
  rewrite cascade_divisions. cbv zeta. unfold done, without_divisions. cbv zeta.
  do 2 f_equal.
  set (gone_dv := List.filter hit dv).
  set (gone_ts := List.filter (team_of gone_dv) ts).
  assert (M : without (ref_division gone_dv)
                 (without (ref_team2 gone_ts) (without (ref_team1 gone_ts) ms)) =
               without (match_of gone_dv gone_ts) ms).
  { rewrite !without_without. apply without_ext. intros m. unfold match_of.
    destruct (ref_team1 gone_ts m), (ref_team2 gone_ts m), (ref_division gone_dv m);
      reflexivity. }
  rewrite M. f_equal.
  rewrite !without_without. apply without_ext. intros s.
  unfold stat_of. rewrite <- ?orb_assoc. f_equal.
  unfold ref_match, id_among.
  exact (existsb_three
           (fun p => same_key (col_of player_stats_def "match_id" s)
                              (col_of matches_def "id" p))
           (ref_team1 gone_ts) (ref_team2 gone_ts) (ref_division gone_dv) ms).
Qed.

Lemma run_delete_stats w ps' dv ts ps ms ss :
  where_ok (col_names player_stats_def) w = true ->
  length ps' = where_arity w ->
  run true (netball_db dv ts ps ms ss) (Delete "player_stats" w) ps' =
    done (netball_db dv ts ps ms (without (holds (col_names player_stats_def) ps' w) ss))
         (Z.of_nat (length (List.filter (holds (col_names player_stats_def) ps' w) ss))).
Proof.
  intros O A. unfold run.
  change (find_table (netball_db dv ts ps ms ss) "player_stats")
    with (Some (tbl player_stats_def ss)).
  cbv beta iota zeta. cbn [tbl tdef trows arity]. rewrite O, A, Nat.eqb_refl.
  cbn [negb]. cbv iota.
  set (hit := holds (col_names player_stats_def) ps' w).
  unfold delete_rows. cbn [tbl tdef trows].
  change (tname player_stats_def) with "player_stats".
  change (set_rows (netball_db dv ts ps ms ss) "player_stats" ?rows)
    with (netball_db dv ts ps ms rows).
  fold (without hit ss).
  change trigger_depth with (S 999).
  rewrite cascade_player_stats. reflexivity.
Qed.






(** ** A new team *)

Lemma fold_max_start zs : forall z, (z <= fold_left Z.max zs z)%Z.
Proof.
  induction zs as [|y zs IH]; intros z; cbn [fold_left]; [lia|].
  specialize (IH (Z.max z y)). lia.
Qed.

Lemma fold_max_ge zs : forall z x, In x (z :: zs) -> (x <= fold_left Z.max zs z)%Z.
Proof.
  induction zs as [|y zs IH]; intros z x I; cbn [fold_left].
  - destruct I as [->|[]]. lia.
  - destruct I as [->|[->|I]].
    + pose proof (fold_max_start zs (Z.max x y)). lia.
    + pose proof (fold_max_start zs (Z.max z x)). lia.
    + apply IH. right. exact I.
Qed.

Lemma next_rowid_above td rows pk r z :
  In r rows -> field (col_names td) r pk = VInt z -> (z < next_rowid td rows pk)%Z.
Proof.
  intros I F. unfold next_rowid.
  assert (J : In z (ints_of (map (fun r => field (col_names td) r pk) rows))).
  { unfold ints_of. apply in_flat_map. exists (VInt z). split; [|left; reflexivity].
    apply in_map_iff. exists r. split; assumption. }
  destruct (ints_of _) as [|y ys]; [destruct J|].
  pose proof (fold_max_ge ys y z J). lia.
Qed.

Lemma next_team_id_fresh ts t :
  In t ts -> team_is (next_team_id ts) t = false.
Proof.
  intros I. unfold team_is, same_key, sql_eq.
  destruct (col_of teams_def "id" t) as [|z|s] eqn:E; try reflexivity.
  pose proof (next_rowid_above teams_def ts "id" t z I E) as L.
  fold (next_team_id ts) in L.
  destruct (Z.eqb_spec z (next_team_id ts)); [lia|reflexivity].
Qed.

Lemma run_insert_team name d dv ts ps ms ss :
  run true (netball_db dv ts ps ms ss) insert_team [VText name; VInt d] =
    if existsb (division_is d) dv
    then done (netball_db dv (ts ++ [[VInt (next_team_id ts); VText name; VInt d]]) ps ms ss) 1
    else inl (IntegrityError ForeignKey).
Proof.
  unfold run, insert_team.
  change (find_table (netball_db dv ts ps ms ss) "teams") with (Some (tbl teams_def ts)).
  cbv beta iota zeta. cbn [tbl tdef trows].
  change (missing_column (col_names teams_def) ["name"; "division_id"]) with (@None string).
  cbv beta iota. cbn [length Nat.eqb negb forallb operand_ok andb].
  change (parent_missing (netball_db dv ts ps ms ss) teams_def) with (@None string).
  cbv beta iota. cbn [arity map operand_arity fold_right Nat.max length Nat.eqb negb].
  unfold insert. cbn [tdef trows tbl].
  match goal with
  | |- context [assign_rowid ?a ?b ?c] =>
      change (assign_rowid a b c)
        with (@inr error row [VInt (next_team_id ts); VText name; VInt d])
  end.
  cbv beta iota.
  assert (P : pk_clash teams_def ts [VInt (next_team_id ts); VText name; VInt d] = false).
  { unfold pk_clash. cbn [tpk teams_def].
    apply not_true_is_false. intros H. apply existsb_exists in H.
    destruct H as (t & I & K). pose proof (next_team_id_fresh ts t I) as N.
    unfold team_is, col_of in N. cbn in K. cbn in N. congruence. }
  unfold local_violation, not_null_violation, check_violation, pk_violation,
    unique_violation.
  rewrite P. cbn [tcols teams_def find col col_notnull col_name is_null field col_names map
                  index_of String.eqb Ascii.eqb Bool.eqb nth andb tchecks existsb tuniques
                  first_of].
  match goal with
  | |- context [set_rows ?a ?b ?c] =>
      change (set_rows a b c) with (netball_db dv c ps ms ss)
  end.
  match goal with
  | |- context [fk_violated ?a ?b ?c] =>
      change (fk_violated a b c) with (negb (existsb (division_is d) dv) || false)
  end.
  rewrite orb_false_r. destruct (existsb (division_is d) dv); reflexivity.
Qed.

Lemma run_select_team_name fk i dv ts ps ms ss :
  run fk (netball_db dv ts ps ms ss) select_team_name [VInt i] =
    inr {| out_db := netball_db dv ts ps ms ss;
           out_rowcount := -1;
           out_columns := ["name"];
           out_rows := map (fun t => [col_of teams_def "name" t])
                           (List.filter (team_is i) ts) |}.
Proof. reflexivity. Qed.

(** X20.  INSERT INTO teams (name, division_id) VALUES (?, ?), the statement
    of the team dialog, run while the largest team id is below the largest
    64-bit integer, gives the new team an id that no team has and that is
    greater than every integer id in use.  When the division exists the
    row is appended to teams and the call returns 1; when it does not, the
    call raises [sqlite3.IntegrityError] and nothing is stored. *)
Theorem new_team_gets_fresh_id
    (st : State) (name : string) (d : Z) (dv ts ps ms ss : list row) :
  manager_inv st ->
  enforcing st = true ->
  seen st = netball_db dv ts ps ms ss ->
  fits (VInt d) = true ->
  fits (VInt (next_team_id ts)) = true ->
  (forall t, In t ts -> team_is (next_team_id ts) t = false) /\
  (forall t z, In t ts -> col_of teams_def "id" t = VInt z -> (z < next_team_id ts)%Z) /\
  (existsb (division_is d) dv = true ->
   exists st',
     execute_query insert_team (Some [VText name; VInt d]) st = (Return 1%Z, st') /\
     disk (world st') =
       netball_db dv (ts ++ [[VInt (next_team_id ts); VText name; VInt d]]) ps ms ss) /\
  (existsb (division_is d) dv = false ->
   fst (execute_query insert_team (Some [VText name; VInt d]) st) =
     Raise (sqlite3_Error (IntegrityError ForeignKey)) /\
   disk (world (snd (execute_query insert_team (Some [VText name; VInt d]) st))) =
     disk (world st)).
Proof.
  intros W F S Hd _. split; [apply next_team_id_fresh|].
  split; [intros t z I E; exact (next_rowid_above teams_def ts "id" t z I E)|].
  assert (B : bindable insert_team (bound (Some [VText name; VInt d])) = true)
    by bindable_tac.
  split; intros D.
  - apply (execute_query_done _ _ _ _ _ W B).
    rewrite F, S, bound_some, run_insert_team, D. reflexivity.
  - assert (R : fst (execute_query insert_team (Some [VText name; VInt d]) st) =
                Raise (sqlite3_Error (IntegrityError ForeignKey))).
    { rewrite (execute_query_fst _ _ _ W), (answer_run _ _ _ _ B), F, S, bound_some,
        run_insert_team, D. reflexivity. }
    split; [exact R|]. exact (execute_query_raise_keeps _ _ _ _ W R).
Qed.

Lemma new_team_gets_fresh_id_witness :
  manager_inv sample_state /\
  enforcing sample_state = true /\
  seen sample_state = netball_db division_rows team_rows player_rows match_rows stat_rows /\
  fits (VInt 3) = true /\
  fits (VInt (next_team_id team_rows)) = true /\
  existsb (division_is 3) division_rows = true /\
  next_team_id team_rows = 5%Z /\
  exists st',
    execute_query insert_team (Some [VText "Black Swans"; VInt 3]) sample_state =
      (Return 1%Z, st') /\
    disk (world st') =
      netball_db division_rows
        (team_rows ++ [[VInt (next_team_id team_rows); VText "Black Swans"; VInt 3]])
        player_rows match_rows stat_rows.
Proof.
  assert (W : manager_inv sample_state).
  { vm_compute. split; [constructor | eexists; split; reflexivity]. }
  assert (F : enforcing sample_state = true) by (vm_compute; reflexivity).
  assert (S : seen sample_state =
              netball_db division_rows team_rows player_rows match_rows stat_rows)
    by (vm_compute; reflexivity).
  assert (D : existsb (division_is 3) division_rows = true) by (vm_compute; reflexivity).
  assert (N : next_team_id team_rows = 5%Z) by (vm_compute; reflexivity).
  assert (B1 : fits (VInt 3) = true) by reflexivity.
  assert (B2 : fits (VInt (next_team_id team_rows)) = true) by (vm_compute; reflexivity).
  destruct (new_team_gets_fresh_id sample_state "Black Swans" 3 division_rows team_rows
              player_rows match_rows stat_rows W F S B1 B2) as (_ & _ & A & _).
  exact (conj W (conj F (conj S (conj B1 (conj B2 (conj D (conj N (A D)))))))).
Defined.

Lemma head_map_filter {A B} (f : A -> B) (p : A -> bool) l :
  head (map f (List.filter p l)) = option_map f (find p l).
Proof.
  induction l as [|x l IH]; cbn [List.filter find]; [reflexivity|].
  destruct (p x); [reflexivity|exact IH].
Qed.

Lemma fetch_team_name st i dv ts ps ms ss :
  manager_inv st ->
  seen st = netball_db dv ts ps ms ss ->
  fits (VInt i) = true ->
  fst (fetch_one select_team_name (Some [VInt i]) st) =
    Return (option_map (fun t => Row [("name", col_of teams_def "name" t)])
                       (find (team_is i) ts)).
Proof.
  intros W S B.
  assert (B' : bindable select_team_name (bound (Some [VInt i])) = true) by bindable_tac.
  rewrite (fetch_one_fst _ _ _ W), (answer_run _ _ _ _ B'), S, bound_some,
    run_select_team_name.
  cbn [lift out_columns out_rows]. rewrite map_map, head_map_filter. reflexivity.
Qed.

(** X21.  SELECT name FROM teams WHERE id = ? returns the name of the first
    team with that id, or [None].  While the largest team id is below the
    largest 64-bit integer, a team that has just been inserted is found
    under its new id, which found nothing before; after DELETE FROM teams
    WHERE id = ? with that id it is found no more, and the teams table is
    as it was before the insertion. *)
Theorem team_insert_lookup_delete
    (st : State) (name : string) (d i : Z) (dv ts ps ms ss : list row) :
  manager_inv st ->
  enforcing st = true ->
  seen st = netball_db dv ts ps ms ss ->
  existsb (division_is d) dv = true ->
  fits (VInt d) = true ->
  fits (VInt i) = true ->
  fits (VInt (next_team_id ts)) = true ->
  fst (fetch_one select_team_name (Some [VInt i]) st) =
    Return (option_map (fun t => Row [("name", col_of teams_def "name" t)])
                       (find (team_is i) ts)) /\
  fst (fetch_one select_team_name (Some [VInt (next_team_id ts)]) st) = Return None /\
  exists st1 st2,
    execute_query insert_team (Some [VText name; VInt d]) st = (Return 1%Z, st1) /\
    fst (fetch_one select_team_name (Some [VInt (next_team_id ts)]) st1) =
      Return (Some (Row [("name", VText name)])) /\
    execute_query delete_team (Some [VInt (next_team_id ts)]) st1 = (Return 1%Z, st2) /\
    fst (fetch_one select_team_name (Some [VInt (next_team_id ts)]) st2) = Return None /\
    find_table (disk (world st2)) "teams" = Some (tbl teams_def ts).
Proof.
  intros W F S D Hd Hi Hn.
  set (id := next_team_id ts) in *. set (r := [VInt id; VText name; VInt d]).
  assert (N : forall t, In t ts -> team_is id t = false) by apply next_team_id_fresh.
  assert (Fi : List.filter (team_is id) (ts ++ [r]) = [r]).
  { rewrite List.filter_app, (filter_none_in _ _ N). cbn [List.filter app].
    unfold team_is, r, same_key, sql_eq, col_of. cbn. rewrite Z.eqb_refl. reflexivity. }
  assert (Wo : without (team_is id) (ts ++ [r]) = ts).
  { unfold without. rewrite List.filter_app. fold (without (team_is id) ts).
    rewrite (without_none_in _ _ N). cbn [List.filter].
    unfold team_is, r, same_key, sql_eq, col_of. cbn. rewrite Z.eqb_refl.
    apply app_nil_r. }
  split; [exact (fetch_team_name st i dv ts ps ms ss W S Hi)|].
  split.
  { rewrite (fetch_team_name st id dv ts ps ms ss W S Hn).
    destruct (find (team_is id) ts) as [t|] eqn:E; [|reflexivity].
    apply find_some in E. destruct E as (I & E). rewrite (N t I) in E. discriminate. }
  destruct (execute_query_ok insert_team (Some [VText name; VInt d]) st
              (netball_db dv (ts ++ [r]) ps ms ss) 1 W eq_refl)
    as (st1 & E1 & _ & W1 & S1 & F1).
  { bindable_tac. }
  { rewrite F, S, bound_some, run_insert_team, D. reflexivity. }
  rewrite F in F1.
  destruct (execute_query_ok delete_team (Some [VInt id]) st1
              (without_teams (team_is id) dv (ts ++ [r]) ps ms ss) 1 W1 eq_refl)
    as (st2 & E2 & D2 & W2 & S2 & _).
  { bindable_tac. }
  { rewrite F1, S1, bound_some.
    rewrite (run_delete_teams (Some (Eq (Col "id") (Param 0))) [VInt id])
      by reflexivity.
    change (holds (col_names teams_def) [VInt id] (Some (Eq (Col "id") (Param 0))))
      with (team_is id).
    rewrite Fi. reflexivity. }
  exists st1, st2. split; [exact E1|]. split; [|split; [exact E2|split]].
  - rewrite (fetch_team_name st1 id dv (ts ++ [r]) ps ms ss W1 S1 Hn).
    rewrite <- head_map_filter, Fi. reflexivity.
  - unfold without_teams in S2. cbv zeta in S2. rewrite Wo in S2.
    rewrite (fetch_team_name st2 id _ _ _ _ _ W2 S2 Hn).
    destruct (find (team_is id) ts) as [t|] eqn:E; [|reflexivity].
    apply find_some in E. destruct E as (I & E). rewrite (N t I) in E. discriminate.
  - rewrite D2. unfold without_teams. cbv zeta. rewrite Wo. reflexivity.
Qed.

Lemma team_insert_lookup_delete_witness :
  manager_inv sample_state /\
  enforcing sample_state = true /\
  seen sample_state = netball_db division_rows team_rows player_rows match_rows stat_rows /\
  existsb (division_is 3) division_rows = true /\
  fits (VInt (next_team_id team_rows)) = true /\
  fst (fetch_one select_team_name (Some [VInt 2]) sample_state) =
    Return (option_map (fun t => Row [("name", col_of teams_def "name" t)])
                       (find (team_is 2) team_rows)) /\
  exists st1 st2,
    execute_query insert_team (Some [VText "Black Swans"; VInt 3]) sample_state =
      (Return 1%Z, st1) /\
    fst (fetch_one select_team_name (Some [VInt (next_team_id team_rows)]) st1) =
      Return (Some (Row [("name", VText "Black Swans")])) /\
    execute_query delete_team (Some [VInt (next_team_id team_rows)]) st1 =
      (Return 1%Z, st2) /\
    fst (fetch_one select_team_name (Some [VInt (next_team_id team_rows)]) st2) =
      Return None /\
    find_table (disk (world st2)) "teams" = Some (tbl teams_def team_rows).
Proof.
  assert (W : manager_inv sample_state).
  { vm_compute. split; [constructor | eexists; split; reflexivity]. }
  assert (F : enforcing sample_state = true) by (vm_compute; reflexivity).
  assert (S : seen sample_state =
              netball_db division_rows team_rows player_rows match_rows stat_rows)
    by (vm_compute; reflexivity).
  assert (D : existsb (division_is 3) division_rows = true) by (vm_compute; reflexivity).
  assert (Hn : fits (VInt (next_team_id team_rows)) = true) by (vm_compute; reflexivity).
  destruct (team_insert_lookup_delete sample_state "Black Swans" 3 2 division_rows
              team_rows player_rows match_rows stat_rows W F S D eq_refl eq_refl Hn)
    as (A & _ & B).
  exact (conj W (conj F (conj S (conj D (conj Hn (conj A B)))))).
Defined.

(** ** Referential integrity *)

Lemma consistentb_true db : consistentb db = true -> consistent db.
Proof.
  unfold consistentb, consistent. intros H tb r I J.
  rewrite forallb_forall in H. specialize (H tb I). rewrite forallb_forall in H.
  specialize (H r J). destruct (fk_violated db (tdef tb) r); [discriminate|reflexivity].
Qed.

Lemma same_key_sym a b : same_key a b = same_key b a.
Proof.
  unfold same_key, sql_eq. destruct a as [|x|s], b as [|y|t]; try reflexivity.
  - rewrite Z.eqb_sym. reflexivity.
  - rewrite String.eqb_sym. reflexivity.
Qed.

Lemma fk_orphan_grows db db' td r f :
  grows db db' -> fk_orphan db td r f = false -> fk_orphan db' td r f = false.
Proof.
  intros G. unfold fk_orphan. destruct (is_null _); [reflexivity|].
  pose proof (grows_find db db' (fk_table f) G) as F.
  destruct (find_table db (fk_table f)) as [p|]; [|discriminate].
  destruct F as (p' & -> & E & I). rewrite E. intros H.
  apply negb_false_iff in H. apply negb_false_iff.
  apply existsb_exists in H. destruct H as (pr & J & K).
  apply existsb_exists. exists pr. split; [apply I, J|exact K].
Qed.

Lemma fk_violated_grows db db' td r :
  grows db db' -> fk_violated db td r = false -> fk_violated db' td r = false.
Proof.
  intros G. unfold fk_violated. intros H.
  apply not_true_is_false. intros T. apply existsb_exists in T.
  destruct T as (f & I & K).
  assert (O : fk_orphan db td r f = false).
  { apply not_true_is_false. intros O. 
    assert (existsb (fk_orphan db td r) (tfks td) = true)
      by (apply existsb_exists; exists f; auto). congruence. }
  rewrite (fk_orphan_grows db db' td r f G O) in K. discriminate.
Qed.

Lemma run_insert_shape fk db oi n cols vals ps out :
  run fk db (Insert oi n cols vals) ps = inr out ->
  out_db out = db \/
  exists tb r,
    find_table db n = Some tb /\
    out_db out = set_rows db (tname (tdef tb)) (trows tb ++ [r]) /\
    (fk = true -> fk_violated (out_db out) (tdef tb) r = false).
Proof.
  cbn [run]. destruct (find_table db n) as [tb|] eqn:F; [|discriminate].
  destruct (missing_column _ _); [discriminate|].
  destruct (negb (length vals =? length cols)%nat); [discriminate|].
  destruct (negb (forallb _ _)); [discriminate|].
  destruct (if fk then _ else _); [discriminate|].
  destruct (negb _); [discriminate|].
  unfold insert. destruct (assign_rowid _ _ _) as [|r]; [discriminate|].
  destruct (local_violation _ _ _).
  - destruct oi; [|discriminate]. intros [= <-]. left. reflexivity.
  - destruct fk; cbn [andb].
    + destruct (fk_violated _ _ _) eqn:V; [discriminate|]. intros [= <-]. right.
      exists tb, r. cbn [out_db]. auto.
    + intros [= <-]. right. exists tb, r. cbn [out_db].
      split; [reflexivity|]. split; [reflexivity|discriminate].
Qed.

Lemma consistent_insert db oi n cols vals ps out :
  consistent db ->
  run true db (Insert oi n cols vals) ps = inr out ->
  consistent (out_db out) /\ map tdef (out_db out) = map tdef db.
Proof.
  intros C R. destruct (run_insert_shape _ _ _ _ _ _ _ _ R) as [->|(tb & r & F & E & V)];
    [split; [exact C|reflexivity]|].
  specialize (V eq_refl). rewrite E in *. split; [|apply tdef_set_rows].
  rewrite (set_rows_named db n tb _ F) in *.
  pose proof (grows_set_rows db n tb r F) as G.
  intros tb' r' I J. apply in_set_rows in I. destruct I as [I|(tb0 & F0 & ->)].
  - apply (fk_violated_grows db _ _ _ G). apply C; assumption.
  - rewrite F in F0. injection F0 as <-. cbn [tdef trows] in *.
    apply in_app_iff in J. destruct J as [J|[<-|[]]]; [|exact V].
    apply (fk_violated_grows db _ _ _ G). apply C; [|exact J].
    unfold find_table in F. apply find_some in F. apply F.
Qed.

Lemma orphan_divisions dv ts ps ms ss td r c :
  fk_orphan (netball_db dv ts ps ms ss) td r (references c "divisions" "id") =
    negb (has_parent (field (col_names td) r c) divisions_def dv).
Proof.
  unfold fk_orphan, has_parent. cbn [fk_from fk_table fk_to references].
  change (find_table (netball_db dv ts ps ms ss) "divisions")
    with (Some (tbl divisions_def dv)).
  cbv beta iota zeta. destruct (is_null _); reflexivity.
Qed.

Lemma orphan_teams dv ts ps ms ss td r c :
  fk_orphan (netball_db dv ts ps ms ss) td r (references c "teams" "id") =
    negb (has_parent (field (col_names td) r c) teams_def ts).
Proof.
  unfold fk_orphan, has_parent. cbn [fk_from fk_table fk_to references].
  change (find_table (netball_db dv ts ps ms ss) "teams") with (Some (tbl teams_def ts)).
  cbv beta iota zeta. destruct (is_null _); reflexivity.
Qed.

Lemma orphan_players dv ts ps ms ss td r c :
  fk_orphan (netball_db dv ts ps ms ss) td r (references c "players" "id") =
    negb (has_parent (field (col_names td) r c) players_def ps).
Proof.
  unfold fk_orphan, has_parent. cbn [fk_from fk_table fk_to references].
  change (find_table (netball_db dv ts ps ms ss) "players")
    with (Some (tbl players_def ps)).
  cbv beta iota zeta. destruct (is_null _); reflexivity.
Qed.

Lemma orphan_matches dv ts ps ms ss td r c :
  fk_orphan (netball_db dv ts ps ms ss) td r (references c "matches" "id") =
    negb (has_parent (field (col_names td) r c) matches_def ms).
Proof.
  unfold fk_orphan, has_parent. cbn [fk_from fk_table fk_to references].
  change (find_table (netball_db dv ts ps ms ss) "matches")
    with (Some (tbl matches_def ms)).
  cbv beta iota zeta. destruct (is_null _); reflexivity.
Qed.

Lemma violated_teams dv ts ps ms ss t :
  fk_violated (netball_db dv ts ps ms ss) teams_def t =
    negb (has_parent (col_of teams_def "division_id" t) divisions_def dv).
Proof.
  unfold fk_violated. cbn [tfks teams_def existsb].
  rewrite orphan_divisions, orb_false_r. reflexivity.
Qed.

Lemma violated_players dv ts ps ms ss p :
  fk_violated (netball_db dv ts ps ms ss) players_def p =
    negb (has_parent (col_of players_def "team_id" p) teams_def ts).
Proof.
  unfold fk_violated. cbn [tfks players_def existsb].
  rewrite orphan_teams, orb_false_r. reflexivity.
Qed.

Lemma violated_matches dv ts ps ms ss m :
  fk_violated (netball_db dv ts ps ms ss) matches_def m =
    negb (has_parent (col_of matches_def "division_id" m) divisions_def dv) ||
    (negb (has_parent (col_of matches_def "team1_id" m) teams_def ts) ||
     negb (has_parent (col_of matches_def "team2_id" m) teams_def ts)).
Proof.
  unfold fk_violated. cbn [tfks matches_def existsb].
  rewrite orphan_divisions, !orphan_teams, orb_false_r. reflexivity.
Qed.

Lemma violated_stats dv ts ps ms ss s :
  fk_violated (netball_db dv ts ps ms ss) player_stats_def s =
    negb (has_parent (col_of player_stats_def "player_id" s) players_def ps) ||
    negb (has_parent (col_of player_stats_def "match_id" s) matches_def ms).
Proof.
  unfold fk_violated. cbn [tfks player_stats_def existsb].
  rewrite orphan_players, orphan_matches, orb_false_r. reflexivity.
Qed.

Lemma consistent_netball dv ts ps ms ss :
  consistent (netball_db dv ts ps ms ss) <->
  (forall t, In t ts ->
     has_parent (col_of teams_def "division_id" t) divisions_def dv = true) /\
  (forall p, In p ps ->
     has_parent (col_of players_def "team_id" p) teams_def ts = true) /\
  (forall m, In m ms ->
     has_parent (col_of matches_def "division_id" m) divisions_def dv = true /\
     has_parent (col_of matches_def "team1_id" m) teams_def ts = true /\
     has_parent (col_of matches_def "team2_id" m) teams_def ts = true) /\
  (forall s, In s ss ->
     has_parent (col_of player_stats_def "player_id" s) players_def ps = true /\
     has_parent (col_of player_stats_def "match_id" s) matches_def ms = true).
Proof.
  unfold consistent. split.
  - intros C. split; [|split; [|split]].
    + intros t I.
      pose proof (C (tbl teams_def ts) t (or_intror (or_introl eq_refl)) I) as V.
      cbn [tbl tdef] in V. rewrite violated_teams in V. apply negb_false_iff, V.
    + intros p I.
      pose proof (C (tbl players_def ps) p
                    (or_intror (or_intror (or_introl eq_refl))) I) as V.
      cbn [tbl tdef] in V. rewrite violated_players in V. apply negb_false_iff, V.
    + intros m I.
      pose proof (C (tbl matches_def ms) m
                    (or_intror (or_intror (or_intror (or_introl eq_refl)))) I) as V.
      cbn [tbl tdef] in V. rewrite violated_matches in V.
      apply orb_false_iff in V. destruct V as (V1 & V).
      apply orb_false_iff in V. destruct V as (V2 & V3).
      rewrite negb_false_iff in V1, V2, V3. auto.
    + intros s I.
      pose proof (C (tbl player_stats_def ss) s
                    (or_intror (or_intror (or_intror (or_intror (or_introl eq_refl))))) I)
        as V.
      cbn [tbl tdef] in V. rewrite violated_stats in V.
      apply orb_false_iff in V. destruct V as (V1 & V2).
      rewrite negb_false_iff in V1, V2. auto.
  - intros (T & P & M & S) tb r I J.
    cbn [netball_db In] in I. destruct I as [<-|[<-|[<-|[<-|[<-|[]]]]]];
      cbn [tbl tdef trows] in *.
    + reflexivity.
    + rewrite violated_teams, (T r J). reflexivity.
    + rewrite violated_players, (P r J). reflexivity.
    + destruct (M r J) as (A & B & C). rewrite violated_matches, A, B, C. reflexivity.
    + destruct (S r J) as (A & B). rewrite violated_stats, A, B. reflexivity.
Qed.

Lemma in_without (p : row -> bool) l x : In x (without p l) <-> In x l /\ p x = false.
Proof.
  unfold without. rewrite filter_In, negb_true_iff. reflexivity.
Qed.

Lemma keep_parent v td parents (hit : row -> bool) :
  has_parent v td parents = true ->
  id_among v td (List.filter hit parents) = false ->
  has_parent v td (without hit parents) = true.
Proof.
  unfold has_parent, id_among. destruct (is_null v); [reflexivity|]. cbn [orb].
  intros H G. apply existsb_exists in H. destruct H as (p & I & K).
  apply existsb_exists. exists p. split; [|exact K].
  apply in_without. split; [exact I|].
  apply not_true_is_false. intros T.
  assert (E : existsb (fun p => same_key v (col_of td "id" p)) (List.filter hit parents) = true).
  { apply existsb_exists. exists p. split; [apply filter_In; auto|].
    rewrite same_key_sym. exact K. }
  congruence.
Qed.

Lemma consistent_without_stats hit dv ts ps ms ss :
  consistent (netball_db dv ts ps ms ss) ->
  consistent (netball_db dv ts ps ms (without hit ss)).
Proof.
  rewrite !consistent_netball. intros (T & P & M & S).
  split; [exact T|]. split; [exact P|]. split; [exact M|].
  intros s I. apply in_without in I. apply S, I.
Qed.

Lemma consistent_without_players hit dv ts ps ms ss :
  consistent (netball_db dv ts ps ms ss) ->
  consistent (without_players hit dv ts ps ms ss).
Proof.
  unfold without_players. rewrite !consistent_netball. intros (T & P & M & S).
  split; [exact T|]. split; [|split; [exact M|]].
  - intros p I. apply in_without in I. apply P, I.
  - intros s I. apply in_without in I. destruct I as (I & R).
    destruct (S s I) as (A & B). split; [|exact B].
    apply keep_parent; [exact A|exact R].
Qed.

Lemma consistent_without_matches hit dv ts ps ms ss :
  consistent (netball_db dv ts ps ms ss) ->
  consistent (without_matches hit dv ts ps ms ss).
Proof.
  unfold without_matches. rewrite !consistent_netball. intros (T & P & M & S).
  split; [exact T|]. split; [exact P|]. split.
  - intros m I. apply in_without in I. apply M, I.
  - intros s I. apply in_without in I. destruct I as (I & R).
    destruct (S s I) as (A & B). split; [exact A|].
    apply keep_parent; [exact B|exact R].
Qed.

Lemma consistent_without_teams hit dv ts ps ms ss :
  consistent (netball_db dv ts ps ms ss) ->
  consistent (without_teams hit dv ts ps ms ss).
Proof.
  unfold without_teams. cbv zeta. rewrite !consistent_netball. intros (T & P & M & S).
  split; [|split; [|split]].
  - intros t I. apply in_without in I. apply T, I.
  - intros p I. apply in_without in I. destruct I as (I & R).
    apply keep_parent; [apply P, I|exact R].
  - intros m I. apply in_without in I. destruct I as (I & R).
    unfold played_by in R. apply orb_false_iff in R. destruct R as (R1 & R2).
    destruct (M m I) as (A & B & C). split; [exact A|].
    split; apply keep_parent; assumption.
  - intros s I. apply in_without in I. destruct I as (I & R).
    unfold stat_of in R. apply orb_false_iff in R. destruct R as (R1 & R2).
    destruct (S s I) as (A & B). split; apply keep_parent; assumption.
Qed.

Lemma consistent_without_divisions hit dv ts ps ms ss :
  consistent (netball_db dv ts ps ms ss) ->
  consistent (without_divisions hit dv ts ps ms ss).
Proof.
  unfold without_divisions. cbv zeta. rewrite !consistent_netball. intros (T & P & M & S).
  split; [|split; [|split]].
  - intros t I. apply in_without in I. destruct I as (I & R).
    apply keep_parent; [apply T, I|exact R].
  - intros p I. apply in_without in I. destruct I as (I & R).
    apply keep_parent; [apply P, I|exact R].
  - intros m I. apply in_without in I. destruct I as (I & R).
    unfold match_of in R. apply orb_false_iff in R. destruct R as (R & R3).
    apply orb_false_iff in R. destruct R as (R1 & R2).
    destruct (M m I) as (A & B & C). repeat split; apply keep_parent; assumption.
  - intros s I. apply in_without in I. destruct I as (I & R).
    unfold stat_of in R. apply orb_false_iff in R. destruct R as (R1 & R2).
    destruct (S s I) as (A & B). split; apply keep_parent; assumption.
Qed.

Lemma find_table_netball dv ts ps ms ss n tb :
  find_table (netball_db dv ts ps ms ss) n = Some tb ->
  (same_name "divisions" n = true /\ tb = tbl divisions_def dv) \/
  (same_name "teams" n = true /\ tb = tbl teams_def ts) \/
  (same_name "players" n = true /\ tb = tbl players_def ps) \/
  (same_name "matches" n = true /\ tb = tbl matches_def ms) \/
  (same_name "player_stats" n = true /\ tb = tbl player_stats_def ss).
Proof.
  unfold find_table, netball_db. cbn [find]. unfold named. cbn [tbl tdef].
  change (tname divisions_def) with "divisions". change (tname teams_def) with "teams".
  change (tname players_def) with "players". change (tname matches_def) with "matches".
  change (tname player_stats_def) with "player_stats".
  destruct (same_name "divisions" n); [intros [= <-]; auto|].
  destruct (same_name "teams" n); [intros [= <-]; auto|].
  destruct (same_name "players" n); [intros [= <-]; auto 6|].
  destruct (same_name "matches" n); [intros [= <-]; auto 7|].
  destruct (same_name "player_stats" n); [intros [= <-]; auto 8|].
  discriminate.
Qed.

(** A DELETE names its table in any case of the letters. *)
Lemma run_delete_same fk db a b w ps tb :
  same_name a b = true -> find_table db b = Some tb ->
  run fk db (Delete a w) ps = run fk db (Delete b w) ps.
Proof.
  intros H F. unfold run. rewrite (find_table_same _ _ _ H), F. reflexivity.
Qed.

Lemma consistent_delete n w ps' out dv ts ps ms ss :
  consistent (netball_db dv ts ps ms ss) ->
  run true (netball_db dv ts ps ms ss) (Delete n w) ps' = inr out ->
  consistent (out_db out) /\ map tdef (out_db out) = declared.
Proof.
  intros C R. destruct (run_delete_shape _ _ _ _ _ _ R) as (tb & F & O & A & _).
  pose proof F as F0. apply find_table_netball in F.
  destruct F as [(N & ->)|[(N & ->)|[(N & ->)|[(N & ->)|(N & ->)]]]];
    cbn [tbl tdef] in O;
    rewrite <- (run_delete_same true _ _ n w ps' _ N F0) in R.
  - rewrite (run_delete_divisions _ _ _ _ _ _ _ O A) in R. injection R as <-.
    split; [apply consistent_without_divisions, C|reflexivity].
  - rewrite (run_delete_teams _ _ _ _ _ _ _ O A) in R. injection R as <-.
    split; [apply consistent_without_teams, C|reflexivity].
  - rewrite (run_delete_players _ _ _ _ _ _ _ O A) in R. injection R as <-.
    split; [apply consistent_without_players, C|reflexivity].
  - rewrite (run_delete_matches _ _ _ _ _ _ _ O A) in R. injection R as <-.
    split; [apply consistent_without_matches, C|reflexivity].
  - rewrite (run_delete_stats _ _ _ _ _ _ _ O A) in R. injection R as <-.
    split; [apply consistent_without_stats, C|reflexivity].
Qed.

(** X22.  On the declared schema, with foreign keys enforced and no
    uncommitted change, every INSERT, INSERT OR IGNORE and DELETE run by
    [execute_query], whether it succeeds or fails, leaves the schema as
    declared and every foreign key of every row with a parent row, and
    leaves these conditions in force for the next call. *)
Theorem writes_keep_referential_integrity
    (q : stmt) (params : option (list value)) (st : State) :
  manager_inv st ->
  enforcing st = true ->
  seen st = disk (world st) ->
  map tdef (seen st) = declared ->
  consistent (seen st) ->
  is_dml q = true ->
  manager_inv (snd (execute_query q params st)) /\
  enforcing (snd (execute_query q params st)) = true /\
  seen (snd (execute_query q params st)) = disk (world (snd (execute_query q params st))) /\
  map tdef (seen (snd (execute_query q params st))) = declared /\
  consistent (seen (snd (execute_query q params st))).
Proof.
  intros W F S T C D.
  assert (P : is_pragma q = false) by (destruct q; try discriminate; reflexivity).
  destruct (execute_query_after q params st W P) as (W' & F' & S' & E).
  specialize (S' S).
  split; [exact W'|]. split; [rewrite F'; exact F|]. split; [exact S'|].
  rewrite S', E, F. clear W' F' S' E.
  destruct (answer true (seen st) q (bound params)) as [e|out] eqn:R.
  - rewrite <- S. split; assumption.
  - apply answer_inr in R. destruct R as [R _]. destruct q; try discriminate D.
    + destruct (consistent_insert _ _ _ _ _ _ _ C R) as (C' & T').
      split; [rewrite T'; exact T|exact C'].
    + destruct (schema_netball _ T) as (dv & ts & ps & ms & ss & N).
      rewrite N in *. destruct (consistent_delete _ _ _ _ _ _ _ _ _ C R) as (C' & T').
      split; assumption.
Qed.

Lemma writes_keep_referential_integrity_witness :
  manager_inv sample_state /\
  enforcing sample_state = true /\
  seen sample_state = disk (world sample_state) /\
  map tdef (seen sample_state) = declared /\
  consistent (seen sample_state) /\
  consistent (seen (snd (execute_query delete_team (Some [VInt 1]) sample_state))).
Proof.
  assert (W : manager_inv sample_state).
  { vm_compute. split; [constructor | eexists; split; reflexivity]. }
  assert (F : enforcing sample_state = true) by (vm_compute; reflexivity).
  assert (S : seen sample_state = disk (world sample_state)) by (vm_compute; reflexivity).
  assert (T : map tdef (seen sample_state) = declared) by (vm_compute; reflexivity).
  assert (C : consistent (seen sample_state)).
  { apply consistentb_true. vm_compute. reflexivity. }
  destruct (writes_keep_referential_integrity delete_team (Some [VInt 1]) sample_state
              W F S T C eq_refl) as (_ & _ & _ & _ & C').
  exact (conj W (conj F (conj S (conj T (conj C C'))))).
Defined.
